(** * stretch_core: joint-trajectory execution, arm-joint consolidation and
    the robot-mode read/write gate

    A shallow embedding of [joint_trajectory_server.py],
    [trajectory_components.py], [action_exceptions.py] and the parts of
    [stretch_driver.py] that touch the stop flag and the robot-mode lock.

    Conventions.
    - Joint positions, velocities and accelerations are binary64 floats, as in
      the ROS messages; they are embedded as Rocq's primitive floats and the
      arithmetic is written in the order the Python code performs it.
    - Times ([time_from_start], clock readings, durations) are integer
      nanoseconds, the representation of [rclpy]'s [Time] and [Duration].
    - Python exceptions are values of [Py.exn]; a computation that may raise
      returns [Py.res].
    - Calls that leave the process (hardware, action server, goal handle,
      command groups, logger, locks) are recorded, in order, in a trace of
      [event]s kept in the node state. *)

From Stdlib Require Import ZArith String List PrimFloat Uint63 Lia.
From stdpp Require Import gmap strings list.

Open Scope Z_scope.

(** ** Python values and exceptions *)

Module Py.

(** The exceptions the modelled code can raise.  The first two are the
    classes of [action_exceptions.py]; both derive from
    [FollowJointTrajectoryException].  The others are builtin. *)
Inductive exn : Type :=
| InvalidGoalException
| InvalidJointException
| IndexError
| KeyError (key : string)
| AttributeError (attr : string)
| TypeError
| AssertionError.

Definition is_FollowJointTrajectoryException (e : exn) : bool :=
  match e with
  | InvalidGoalException | InvalidJointException => true
  | _ => false
  end.

Inductive res (A : Type) : Type :=
| Ok (a : A)
| Raise (e : exn).
Arguments Ok {A} a.
Arguments Raise {A} e.

Definition bind {A B} (m : res A) (k : A -> res B) : res B :=
  match m with
  | Ok a => k a
  | Raise e => Raise e
  end.

(** [for x in l: f(x)], collecting the values, stopping at the first raise. *)
Fixpoint mapM {A B} (f : A -> res B) (l : list A) : res (list B) :=
  match l with
  | [] => Ok []
  | x :: l' => bind (f x) (fun y => bind (mapM f l') (fun ys => Ok (y :: ys)))
  end.

(** [sub in s] on Python strings: [sub] occurs as a contiguous substring. *)
Fixpoint str_in (sub s : string) : bool :=
  if String.prefix sub s then true
  else match s with
       | EmptyString => false
       | String _ s' => str_in sub s'
       end.

(** [v in l] on a list of strings. *)
Definition list_in (v : string) (l : list string) : bool :=
  bool_decide (v ∈ l).

(** [sum(l)] on a list of floats: Python starts from the integer [0] and
    adds from the left; [0 + x] is computed as [0.0 + x]. *)
Definition sum (l : list float) : float := foldl PrimFloat.add 0%float l.

(** [float(len(l))], the implicit conversion in [sum(l) / len(l)]. *)
Definition float_of_len {A} (l : list A) : float :=
  PrimFloat.of_uint63 (Uint63.of_Z (Z.of_nat (length l))).

(** A Python value that may be [None]: appended to a list only when present. *)
Definition append_if_not_None (l : list float) (v : option float) : list float :=
  match v with
  | Some x => l ++ [x]
  | None => l
  end.

End Py.

Notation "'let!' x ':=' m 'in' k" := (Py.bind m (fun x => k))
  (at level 10, x name, m at level 100, k at level 200).

(** ** Messages *)

(** [trajectory_msgs/JointTrajectoryPoint].  [velocities] and [accelerations]
    may be shorter than [positions]; entries are aligned by index. *)
Record JointTrajectoryPoint : Type := {
  positions : list float;
  velocities : list float;
  accelerations : list float;
  time_from_start : Z
}.

(** [trajectory_msgs/JointTrajectory]. *)
Record JointTrajectory : Type := {
  joint_names : list string;
  points : list JointTrajectoryPoint
}.

(** ** [merge_arm_joints] *)

Module Merge.

Definition wrist_extension : string := "wrist_extension".

(** The test of the first loop: ['joint_arm_l' in name]. *)
Definition is_arm_joint (name : string) : bool :=
  Py.str_in "joint_arm_l" name.

(** First loop: [arm_indexes] and the joint names of [new_trajectory],
    walking [enumerate(trajectory.joint_names)] from [index]. *)
Fixpoint split_names (index : nat) (names : list string)
  : list nat * list string :=
  match names with
  | [] => ([], [])
  | name :: rest =>
      let '(arm_indexes, new_names) := split_names (S index) rest in
      if is_arm_joint name then (index :: arm_indexes, new_names)
      else (arm_indexes, name :: new_names)
  end.

Definition arm_indexes (names : list string) : list nat :=
  fst (split_names 0 names).

(** What the code keeps for one trajectory point while it walks the joints:
    the point under construction and the point's entries of the parallel
    lists [total_extension], [arm_velocities] and [arm_accelerations]. *)
Record arm_values : Type := {
  new_point : JointTrajectoryPoint;
  total_extension : float;
  arm_velocities : list float;
  arm_accelerations : list float
}.

(** Second loop: a fresh point carrying [time_from_start], extension [0.0]
    and no velocities or accelerations gathered yet. *)
Definition init_values (point : JointTrajectoryPoint) : arm_values :=
  {| new_point := {| positions := []; velocities := []; accelerations := [];
                     time_from_start := time_from_start point |};
     total_extension := 0%float;
     arm_velocities := [];
     arm_accelerations := [] |}.

(** Body of the inner loop of the third loop, for joint [index] and one
    point.  [point.positions[index]] raises [IndexError] out of range; the
    velocity and the acceleration are [None] out of range. *)
Definition gather (arm : list nat) (index : nat)
    (pv : JointTrajectoryPoint * arm_values)
  : Py.res (JointTrajectoryPoint * arm_values) :=
  let '(point, vals) := pv in
  match positions point !! index with
  | None => Py.Raise Py.IndexError
  | Some x =>
      let v := velocities point !! index in
      let a := accelerations point !! index in
      if bool_decide (index ∈ arm) then
        Py.Ok (point,
               {| new_point := new_point vals;
                  total_extension := (total_extension vals + x)%float;
                  arm_velocities := Py.append_if_not_None (arm_velocities vals) v;
                  arm_accelerations := Py.append_if_not_None (arm_accelerations vals) a |})
      else
        let np := new_point vals in
        Py.Ok (point,
               {| new_point :=
                    {| positions := positions np ++ [x];
                       velocities := Py.append_if_not_None (velocities np) v;
                       accelerations := Py.append_if_not_None (accelerations np) a;
                       time_from_start := time_from_start np |};
                  total_extension := total_extension vals;
                  arm_velocities := arm_velocities vals;
                  arm_accelerations := arm_accelerations vals |})
  end.

(** Third loop: for every joint index in order, every point in order. *)
Fixpoint gather_all (arm : list nat) (index : nat) (names : list string)
    (st : list (JointTrajectoryPoint * arm_values))
  : Py.res (list (JointTrajectoryPoint * arm_values)) :=
  match names with
  | [] => Py.Ok st
  | _ :: rest =>
      let! st' := Py.mapM (gather arm index) st in
      gather_all arm (S index) rest st'
  end.

(** [sum(l) / len(l)]. *)
Definition mean (l : list float) : float :=
  (Py.sum l / Py.float_of_len l)%float.

(** [if l: target.append(sum(l) / len(l))]. *)
Definition append_mean (target l : list float) : list float :=
  match l with
  | [] => target
  | _ :: _ => target ++ [mean l]
  end.

(** Fourth loop: the arm values are appended to each new point. *)
Definition add_arm_values (vals : arm_values) : JointTrajectoryPoint :=
  let np := new_point vals in
  {| positions := positions np ++ [total_extension vals];
     velocities := append_mean (velocities np) (arm_velocities vals);
     accelerations := append_mean (accelerations np) (arm_accelerations vals);
     time_from_start := time_from_start np |}.

Definition merge_arm_joints (trajectory : JointTrajectory)
  : Py.res JointTrajectory :=
  let '(arm, new_names) := split_names 0 (joint_names trajectory) in
  match arm with
  | [] => Py.Ok trajectory
  | _ :: _ =>
      if Py.list_in wrist_extension (joint_names trajectory) then
        Py.Raise Py.InvalidJointException
      else if negb (length arm =? 4)%nat then
        Py.Raise Py.InvalidJointException
      else
        let st := map (fun point => (point, init_values point)) (points trajectory) in
        let! st' := gather_all arm 0 (joint_names trajectory) st in
        Py.Ok {| joint_names := new_names ++ [wrist_extension];
                 points := map (fun pv => add_arm_values (snd pv)) st' |}
  end.

End Merge.

(** ** Node state, goal handle and trace *)

(** [StretchBodyNode.robot_mode]: [None] until the first [change_mode], then
    one of the four mode names. *)
Inductive mode : Type := Position | Navigation | Manipulation | Calibration.

Global Instance mode_eq_dec : EqDecision mode.
Proof. solve_decision. Defined.

(** The command groups, in the order of the list [command_groups] of
    [execute_cb]. *)
Inductive cg_id : Type :=
| telescoping_cg | lift_cg | mobile_base_cg | head_pan_cg
| head_tilt_cg | wrist_yaw_cg | gripper_cg.

Definition command_groups : list cg_id :=
  [telescoping_cg; lift_cg; mobile_base_cg; head_pan_cg;
   head_tilt_cg; wrist_yaw_cg; gripper_cg].

(** State of the goal handle. *)
Inductive goal_status : Type :=
| Executing | Canceling | Succeeded | Aborted.

(** [FollowJointTrajectory.Result] error codes ([control_msgs]); the
    manipulation path reports unknown errors as the bare integer [-100]. *)
Definition SUCCESSFUL : Z := 0.
Definition INVALID_GOAL : Z := -1.
Definition INVALID_JOINTS : Z := -2.
Definition GOAL_TOLERANCE_VIOLATED : Z := -5.
Definition UNKNOWN_ERROR : Z := -100.

(** The texts that end in [error_string] or in the log.  The formatted
    strings of the source are kept symbolic, with their arguments. *)
Inductive text : Type :=
| NoText
| FromCommandGroup (c : cg_id) (s : string)
| NewTrajectory (names : list string)
| NoValidJointNames (names : list string)
| OnlySomeValid (num_valid : Z) (total : nat) (names : list string)
| TargetPoint (pointi : nat) (point : JointTrajectoryPoint)
| TimeExceeded (point : JointTrajectoryPoint)
| PreemptionRequested
| AchievedTargetPoint
| AchievedAllTargetPoints
| SendingFeedback
| NewGoal (n_points n_joints : nat)
| OfException (e : Py.exn)
| NotInNavigationMode (m : option mode)
| ChangedMode (m : option mode)
| StopServiceCalled.

Record Result : Type := {
  error_code : Z;
  error_string : text
}.

Inductive level : Type := Debug | Info | Error.

(** [FollowJointTrajectory.Feedback]. *)
Record Feedback : Type := {
  stamp : Z;
  fb_joint_names : list string;
  desired : JointTrajectoryPoint;
  actual : JointTrajectoryPoint;
  error : JointTrajectoryPoint
}.

(** Everything the modelled code does outside its own variables. *)
Inductive event : Type :=
(* threading.Lock robot_stop_lock, RWLock robot_mode_rwlock *)
| StopLockAcquire | StopLockRelease
| AcquireRead | ReleaseRead | AcquireWrite | ReleaseWrite
(* the shared stop flag *)
| StopFlagSet (b : bool)
(* command groups *)
| CgUpdate (c : cg_id) (names : list string) (m : option mode)
| CgSetGoal (c : cg_id) (point : JointTrajectoryPoint)
| CgInitExecution (c : cg_id)
| CgUpdateExecution (c : cg_id)
(* stretch_body robot *)
| GetStatus
| PushCommand
| MoveBy (actuator : string)
| BaseSetVelocity (v w : float)
| EnablePosIncrMode
| Home
| ClearWaypoints (joint : string)
| AddWaypoint (joint : string) (t : Z) (x : float) (v a : option float)
| AddBaseWaypoint (t : Z) (v a : option float)
| CompleteTrajectory
| StartTrajectory
| IsTrajectoryExecuting
| StopTrajectory
(* action server and goal handle *)
| Succeed | Abort
| PublishFeedback (fb : Feedback)
(* logger, executor, rate, publishers *)
| Log (l : level) (t : text)
| SpinOnce
| RateSleep
| Publish (topic : string).

(** Calls on the robot object: anything that reads from or writes to the
    hardware interface, and the command-group call that stages a setpoint. *)
Definition is_hardware_call (e : event) : bool :=
  match e with
  | GetStatus | PushCommand | MoveBy _ | BaseSetVelocity _ _
  | EnablePosIncrMode | Home
  | ClearWaypoints _ | AddWaypoint _ _ _ _ _ | AddBaseWaypoint _ _ _
  | CompleteTrajectory
  | StartTrajectory | IsTrajectoryExecuting | StopTrajectory
  | CgInitExecution _ => true
  | _ => false
  end.

(** A call of [set_goal] on a command group. *)
Definition is_set_goal (e : event) : bool :=
  match e with
  | CgSetGoal _ _ => true
  | _ => false
  end.

(** The fields of [StretchBodyNode] and [JointTrajectoryAction] the modelled
    methods read or write, the goal handle of the goal being executed, and
    the trace. *)
Record Node : Type := {
  robot_mode : option mode;
  stop_the_robot : bool;
  (** [robot_mode_rwlock]: the number of read holds and whether a writer
      holds the lock *)
  read_holds : nat;
  write_held : bool;
  linear_velocity_mps : float;
  angular_velocity_radps : float;
  last_twist_time : Z;
  mobile_base_manipulation_origin : option (float * float * float);
  fail_out_of_range_goal : bool;
  result : Result;
  status : goal_status;
  trace : list event
}.

Module N.

Definition with_trace (f : list event -> list event) (n : Node) : Node :=
  {| robot_mode := robot_mode n; stop_the_robot := stop_the_robot n;
     read_holds := read_holds n; write_held := write_held n;
     linear_velocity_mps := linear_velocity_mps n;
     angular_velocity_radps := angular_velocity_radps n;
     last_twist_time := last_twist_time n;
     mobile_base_manipulation_origin := mobile_base_manipulation_origin n;
     fail_out_of_range_goal := fail_out_of_range_goal n;
     result := result n; status := status n; trace := f (trace n) |}.

Definition emit (e : event) : Node -> Node := with_trace (fun t => t ++ [e]).

Definition set_stop_the_robot (b : bool) (n : Node) : Node :=
  emit (StopFlagSet b)
    {| robot_mode := robot_mode n; stop_the_robot := b;
       read_holds := read_holds n; write_held := write_held n;
       linear_velocity_mps := linear_velocity_mps n;
       angular_velocity_radps := angular_velocity_radps n;
       last_twist_time := last_twist_time n;
       mobile_base_manipulation_origin := mobile_base_manipulation_origin n;
       fail_out_of_range_goal := fail_out_of_range_goal n;
       result := result n; status := status n; trace := trace n |}.

Definition set_read_holds (k : nat) (n : Node) : Node :=
  {| robot_mode := robot_mode n; stop_the_robot := stop_the_robot n;
     read_holds := k; write_held := write_held n;
     linear_velocity_mps := linear_velocity_mps n;
     angular_velocity_radps := angular_velocity_radps n;
     last_twist_time := last_twist_time n;
     mobile_base_manipulation_origin := mobile_base_manipulation_origin n;
     fail_out_of_range_goal := fail_out_of_range_goal n;
     result := result n; status := status n; trace := trace n |}.

Definition set_write_held (b : bool) (n : Node) : Node :=
  {| robot_mode := robot_mode n; stop_the_robot := stop_the_robot n;
     read_holds := read_holds n; write_held := b;
     linear_velocity_mps := linear_velocity_mps n;
     angular_velocity_radps := angular_velocity_radps n;
     last_twist_time := last_twist_time n;
     mobile_base_manipulation_origin := mobile_base_manipulation_origin n;
     fail_out_of_range_goal := fail_out_of_range_goal n;
     result := result n; status := status n; trace := trace n |}.

Definition set_robot_mode (m : option mode) (n : Node) : Node :=
  {| robot_mode := m; stop_the_robot := stop_the_robot n;
     read_holds := read_holds n; write_held := write_held n;
     linear_velocity_mps := linear_velocity_mps n;
     angular_velocity_radps := angular_velocity_radps n;
     last_twist_time := last_twist_time n;
     mobile_base_manipulation_origin := mobile_base_manipulation_origin n;
     fail_out_of_range_goal := fail_out_of_range_goal n;
     result := result n; status := status n; trace := trace n |}.

Definition set_twist (v w : float) (t : Z) (n : Node) : Node :=
  {| robot_mode := robot_mode n; stop_the_robot := stop_the_robot n;
     read_holds := read_holds n; write_held := write_held n;
     linear_velocity_mps := v;
     angular_velocity_radps := w;
     last_twist_time := t;
     mobile_base_manipulation_origin := mobile_base_manipulation_origin n;
     fail_out_of_range_goal := fail_out_of_range_goal n;
     result := result n; status := status n; trace := trace n |}.

Definition set_origin (o : option (float * float * float)) (n : Node) : Node :=
  {| robot_mode := robot_mode n; stop_the_robot := stop_the_robot n;
     read_holds := read_holds n; write_held := write_held n;
     linear_velocity_mps := linear_velocity_mps n;
     angular_velocity_radps := angular_velocity_radps n;
     last_twist_time := last_twist_time n;
     mobile_base_manipulation_origin := o;
     fail_out_of_range_goal := fail_out_of_range_goal n;
     result := result n; status := status n; trace := trace n |}.

Definition set_result (r : Result) (n : Node) : Node :=
  {| robot_mode := robot_mode n; stop_the_robot := stop_the_robot n;
     read_holds := read_holds n; write_held := write_held n;
     linear_velocity_mps := linear_velocity_mps n;
     angular_velocity_radps := angular_velocity_radps n;
     last_twist_time := last_twist_time n;
     mobile_base_manipulation_origin := mobile_base_manipulation_origin n;
     fail_out_of_range_goal := fail_out_of_range_goal n;
     result := r; status := status n; trace := trace n |}.

Definition set_status (s : goal_status) (n : Node) : Node :=
  {| robot_mode := robot_mode n; stop_the_robot := stop_the_robot n;
     read_holds := read_holds n; write_held := write_held n;
     linear_velocity_mps := linear_velocity_mps n;
     angular_velocity_radps := angular_velocity_radps n;
     last_twist_time := last_twist_time n;
     mobile_base_manipulation_origin := mobile_base_manipulation_origin n;
     fail_out_of_range_goal := fail_out_of_range_goal n;
     result := result n; status := s; trace := trace n |}.

(** Modelled from the spec: [rwlock.py] (class [RWLock]) is not among the
    sources.  The gate of the specification lets several holders share read
    access and makes a writer wait until every read holder has released; the
    lock is kept as the number of read holds and a flag for the writer, and
    [acquire_read] adds a hold.  The modelled methods run one at a time, so
    no writer holds the lock when a reader asks for it. *)
Definition acquire_read (n : Node) : Node :=
  emit AcquireRead (set_read_holds (S (read_holds n)) n).

(** Modelled from the spec: [RWLock.release_read] gives one read hold back. *)
Definition release_read (n : Node) : Node :=
  emit ReleaseRead (set_read_holds (pred (read_holds n)) n).

(** [goal_handle.is_active], [goal_handle.is_cancel_requested]. *)
Definition is_active (n : Node) : bool :=
  match status n with
  | Executing | Canceling => true
  | _ => false
  end.

Definition is_cancel_requested (n : Node) : bool :=
  match status n with
  | Canceling => true
  | _ => false
  end.

(** [goal_handle.abort()], [goal_handle.succeed()]. *)
Definition abort (n : Node) : Node := emit Abort (set_status Aborted n).
Definition succeed (n : Node) : Node := emit Succeed (set_status Succeeded n).

(** A cancel request reaching the goal handle. *)
Definition request_cancel (n : Node) : Node :=
  match status n with
  | Executing => set_status Canceling n
  | _ => n
  end.

End N.

(** ** [JointTrajectoryAction]: the Position/Navigation path *)

(** [StretchBodyNode.default_goal_timeout_duration]:
    [Duration(seconds=10.0)], in nanoseconds. *)
Definition default_goal_timeout_s : Z := 10.
Definition default_goal_timeout_duration : Z := default_goal_timeout_s * 1000000000.

(** What [update_execution] of a command group returns: [True], a
    [(name, error)] tuple, a list of such tuples, or anything else (for
    instance [None]). *)
Inductive named_error : Type :=
| RetTrue
| RetTuple (name : string) (err : float)
| RetList (errs : list (string * float))
| RetOther.

(** The seven command groups ([command_groups.py] is not among the
    sources), the clock and the other callbacks of the node are the
    environment of [execute_cb], taken as a parameter: a [World] fixes what
    they answer during one run.  Answers inside the point loop are indexed
    by the point number and, inside the poll loop, by the poll number.  A
    command group reports an error by calling the callback it was handed;
    the texts it passes are listed beside its answer. *)
Record World : Type := {
  (** [c.update(names, invalid_joints_callback, robot_mode=...)] *)
  update : cg_id -> list string -> option mode -> bool * list string;
  (** [c.get_num_valid_commands()] *)
  get_num_valid_commands : cg_id -> Z;
  (** [c.set_goal(point, invalid_goal_callback, fail_out_of_range_goal, ...)] *)
  set_goal : nat -> cg_id -> JointTrajectoryPoint -> bool -> bool * list string;
  (** [c.goal_reached()]: poll [0] is the reading taken after
      [push_command], poll [S k] the one at the end of iteration [k]. *)
  goal_reached : nat -> nat -> cg_id -> bool;
  (** [c.update_execution(status, success_callback=..., ...)] in iteration
      [k], with the texts passed to [success_callback]. *)
  update_execution : nat -> nat -> cg_id -> named_error * list string;
  (** [node.get_clock().now()]: reading [0] is [goal_start_time], reading
      [S k] the one at the head of iteration [k]. *)
  now : nat -> nat -> Z;
  (** the clock reading that stamps the feedback of iteration [k] *)
  feedback_stamp : nat -> nat -> Z;
  (** whether the stop service handler ran to completion, on the executor's
      other thread or inside [spin_once], since the previous poll *)
  stop_requested : nat -> nat -> bool;
  (** whether a cancel request reached the goal handle since the previous poll *)
  cancel_requested : nat -> nat -> bool
}.

(** How a call of [execute_cb] or [execute_trajectory] ends. *)
Inductive outcome : Type :=
| Returned (r : Result)
| Raised (e : Py.exn)
| StillPolling.

(** How one iteration of the poll loop, or the whole loop, ends: an
    iteration continues with new flags or leaves [execute_cb] by [return] or
    by an exception; the loop ends with the flags that made its condition
    false, leaves [execute_cb], or is still polling when the iterations
    followed run out. *)
Inductive loop_exit : Type :=
| Continue (goals_reached : list bool)
| Return
| Raises (e : Py.exn)
| OutOfFuel.

(** [all(l)] on a list of booleans. *)
Definition all (l : list bool) : bool := forallb (fun b => b) l.

(** ** [StretchBodyNode]: velocity commands, state publication, modes, stop *)

(** [geometry_msgs/Twist], the two components the driver reads. *)
Record Twist : Type := {
  linear_x : float;
  angular_z : float
}.

Module Driver.

(** [set_mobile_base_velocity_callback(twist)]; [now] is the clock reading
    stored in [last_twist_time]. *)
Definition set_mobile_base_velocity_callback (now : Z) (twist : Twist)
    (n : Node) : Node :=
  let n := N.acquire_read n in
  if negb (bool_decide (robot_mode n = Some Navigation)) then
    N.emit (Log Error (NotInNavigationMode (robot_mode n))) n
  else
    let n := N.set_twist (linear_x twist) (angular_z twist) now n in
    N.release_read n.

(** The messages of the periodic task are published in this order; their
    contents (odometry, battery, joint states, IMU) are not modelled. *)
Definition state_topics (broadcast_odom_tf : bool) : list string :=
  (if broadcast_odom_tf then ["tf"] else []) ++
  ["odom"; "battery"; "is_calibrated"; "mode"; "joint_states";
   "imu_mobile_base"; "magnetometer_mobile_base"; "imu_wrist"].

(** The topics published before the mode message is filled in, and the
    mode message and those after it. *)
Definition topics_before_mode (broadcast_odom_tf : bool) : list string :=
  (if broadcast_odom_tf then ["tf"] else []) ++
  ["odom"; "battery"; "is_calibrated"].

Definition topics_from_mode : list string :=
  ["mode"; "joint_states"; "imu_mobile_base"; "magnetometer_mobile_base";
   "imu_wrist"].

Definition publish_each (topics : list string) (n : Node) : Node :=
  foldl (fun n topic => N.emit (Publish topic) n) n topics.

(** [command_mobile_base_velocity_and_publish_state]; [timeout] is the
    node's [timeout] duration and [now] the clock reading compared with
    [last_twist_time].  In manipulation mode the task reads
    [mobile_base_manipulation_origin['x']], which raises while the origin
    is still [None].  The mode message is a [std_msgs/String]: the setter of
    its [data] field asserts that it is given a string, which the [None]
    that [robot_mode] holds before the first change of mode is not. *)
Definition command_mobile_base_velocity_and_publish_state
    (broadcast_odom_tf : bool) (timeout now : Z) (n : Node)
  : Py.res unit * Node :=
  let n := N.acquire_read n in
  let n :=
    if bool_decide (robot_mode n = Some Navigation) then
      let time_since_last_twist := now - last_twist_time n in
      if time_since_last_twist <? timeout then
        N.emit PushCommand
          (N.emit (BaseSetVelocity (linear_velocity_mps n) (angular_velocity_radps n)) n)
      else
        N.emit PushCommand (N.emit (BaseSetVelocity 0 0) n)
    else n in
  let n := N.emit GetStatus n in
  if bool_decide (robot_mode n = Some Manipulation)
     && negb (bool_decide (is_Some (mobile_base_manipulation_origin n))) then
    (Py.Raise Py.TypeError, n)
  else
    let n := publish_each (topics_before_mode broadcast_odom_tf) n in
    match robot_mode n with
    | None => (Py.Raise Py.AssertionError, n)
    | Some _ =>
        let n := publish_each topics_from_mode n in
        (Py.Ok tt, N.release_read n)
    end.

(** Modelled from the spec: [RWLock.acquire_write] returns once no read
    hold and no writer is left; [None] stands for a call that is still
    waiting. *)
Definition acquire_write (n : Node) : option Node :=
  if (read_holds n =? 0)%nat && negb (write_held n) then
    Some (N.emit AcquireWrite (N.set_write_held true n))
  else None.

Definition release_write (n : Node) : Node :=
  N.emit ReleaseWrite (N.set_write_held false n).

(** [change_mode(new_mode, code_to_run)]. *)
Definition change_mode (new_mode : mode) (code_to_run : Node -> Node)
    (n : Node) : option Node :=
  match acquire_write n with
  | None => None
  | Some n =>
      let n := N.set_robot_mode (Some new_mode) n in
      let n := code_to_run n in
      let n := N.emit (Log Info (ChangedMode (robot_mode n))) n in
      Some (release_write n)
  end.

Definition turn_on_navigation_mode : Node -> option Node :=
  change_mode Navigation
    (fun n => N.set_twist 0 0 (last_twist_time n) n).

(** [base_pose] is the [(x, y, theta)] of the status read by [code_to_run]. *)
Definition turn_on_manipulation_mode (base_pose : float * float * float)
  : Node -> option Node :=
  change_mode Manipulation
    (fun n =>
       let n := N.emit EnablePosIncrMode n in
       let n := N.emit GetStatus n in
       N.set_origin (Some base_pose) n).

Definition turn_on_position_mode : Node -> option Node :=
  change_mode Position (fun n => N.emit EnablePosIncrMode n).

Definition calibrate : Node -> option Node :=
  change_mode Calibration (fun n => N.emit Home n).

(** [stop_the_robot_callback]: under the stop lock, raise the flag and
    command every actuator to move by zero. *)
Definition stop_the_robot_callback (n : Node) : Node :=
  let n := N.emit StopLockAcquire n in
  let n := N.set_stop_the_robot true n in
  let n := N.emit (MoveBy "base.translate_by") n in
  let n := N.emit (MoveBy "base.rotate_by") n in
  let n := N.emit (MoveBy "arm") n in
  let n := N.emit (MoveBy "lift") n in
  let n := N.emit PushCommand n in
  let n := N.emit (MoveBy "head_pan") n in
  let n := N.emit (MoveBy "head_tilt") n in
  let n := N.emit (MoveBy "wrist_yaw") n in
  let n := N.emit (MoveBy "stretch_gripper") n in
  let n := N.emit PushCommand n in
  let n := N.emit StopLockRelease n in
  N.emit (Log Info StopServiceCalled) n.

End Driver.

Module Server.

(** *** Callbacks *)

Definition invalid_joints_callback (err_str : text) (n : Node) : Node :=
  if N.is_active n || N.is_cancel_requested n then
    let n := N.emit (Log Error err_str) n in
    let n := N.set_result {| error_code := INVALID_JOINTS; error_string := err_str |} n in
    N.abort n
  else n.

Definition invalid_goal_callback (err_str : text) (n : Node) : Node :=
  if N.is_active n || N.is_cancel_requested n then
    let n := N.emit (Log Error err_str) n in
    let n := N.set_result {| error_code := INVALID_GOAL; error_string := err_str |} n in
    N.abort n
  else n.

Definition goal_tolerance_violated_callback (err_str : text) (n : Node) : Node :=
  if N.is_active n || N.is_cancel_requested n then
    let n := N.emit (Log Error err_str) n in
    let n := N.set_result {| error_code := GOAL_TOLERANCE_VIOLATED; error_string := err_str |} n in
    N.abort n
  else n.

Definition success_callback (success_str : text) (n : Node) : Node :=
  let n := N.emit (Log Info success_str) n in
  let n := N.set_result {| error_code := SUCCESSFUL; error_string := success_str |} n in
  N.succeed n.

(** The pairs the feedback dictionary is built from: tuples are kept,
    lists are spliced in, anything else is dropped. *)
Fixpoint clean_named_errors (named_errors : list named_error)
  : list (string * float) :=
  match named_errors with
  | [] => []
  | RetTuple k v :: rest => (k, v) :: clean_named_errors rest
  | RetList l :: rest => l ++ clean_named_errors rest
  | _ :: rest => clean_named_errors rest
  end.

(** [dict((k, v) for k, v in pairs)]: a later pair replaces an earlier one
    with the same key. *)
Definition dict (pairs : list (string * float)) : gmap string float :=
  foldl (fun d kv => <[kv.1 := kv.2]> d) ∅ pairs.

(** The loop of [feedback_callback] that fills [error_point] and
    [actual_point], from joint [i] on. *)
Fixpoint feedback_points (d : gmap string float)
    (desired_point : JointTrajectoryPoint) (i : nat) (names : list string)
  : Py.res (list float * list float) :=
  match names with
  | [] => Py.Ok ([], [])
  | commanded_joint_name :: rest =>
      match d !! commanded_joint_name with
      | None => Py.Raise (Py.KeyError commanded_joint_name)
      | Some err =>
          match positions desired_point !! i with
          | None => Py.Raise Py.IndexError
          | Some x =>
              let! tl := feedback_points d desired_point (S i) rest in
              Py.Ok (err :: tl.1, (x - err)%float :: tl.2)
          end
      end
  end.

Definition with_positions (l : list float) : JointTrajectoryPoint :=
  {| positions := l; velocities := []; accelerations := []; time_from_start := 0 |}.

(** A time as the code holds it: the [rclpy.time.Time] that
    [get_clock().now()] returns, or the [builtin_interfaces/Time] message
    that [Time.to_msg()] makes of it. *)
Inductive time_value : Type :=
| RclpyTime (nanoseconds : Z)
| TimeMsg (nanoseconds : Z).

(** [header.stamp = value]: the setter of a message field that holds a
    [builtin_interfaces/Time] asserts that it is given such a message. *)
Definition set_stamp (value : time_value) : Py.res Z :=
  match value with
  | TimeMsg nanoseconds => Py.Ok nanoseconds
  | RclpyTime _ => Py.Raise Py.AssertionError
  end.

(** [feedback_callback]: the stamp is assigned the value of
    [get_clock().now()] as it is, without [to_msg()]. *)
Definition feedback_callback (stamp_now : Z) (commanded_joint_names : list string)
    (desired_point : JointTrajectoryPoint) (named_errors : list named_error)
    (n : Node) : Py.res unit * Node :=
  let d := dict (clean_named_errors named_errors) in
  match feedback_points d desired_point 0 commanded_joint_names with
  | Py.Raise e => (Py.Raise e, n)
  | Py.Ok ea =>
      let n := N.emit (Log Debug SendingFeedback) n in
      match set_stamp (RclpyTime stamp_now) with
      | Py.Raise e => (Py.Raise e, n)
      | Py.Ok stamp_msg =>
          (Py.Ok tt,
           N.emit (PublishFeedback
                     {| stamp := stamp_msg;
                        fb_joint_names := commanded_joint_names;
                        desired := desired_point;
                        actual := with_positions ea.2;
                        error := with_positions ea.1 |}) n)
      end
  end.

(** *** Calls on the command groups *)

(** A command group calling back: every text it passes goes through the
    callback, in order. *)
Definition report (callback : text -> Node -> Node) (c : cg_id)
    (texts : list string) (n : Node) : Node :=
  foldl (fun n s => callback (FromCommandGroup c s) n) n texts.

(** [[c.update(...) for c in groups]]: every group is called, in order. *)
Fixpoint updates (w : World) (names : list string) (groups : list cg_id)
    (n : Node) : list bool * Node :=
  match groups with
  | [] => ([], n)
  | c :: rest =>
      let n := N.emit (CgUpdate c names (robot_mode n)) n in
      let '(ok, texts) := update w c names (robot_mode n) in
      let n := report invalid_joints_callback c texts n in
      let '(oks, n) := updates w names rest n in
      (ok :: oks, n)
  end.

(** [[c.set_goal(point, ...) for c in groups]]. *)
Fixpoint set_goals (w : World) (pointi : nat) (point : JointTrajectoryPoint)
    (groups : list cg_id) (n : Node) : list bool * Node :=
  match groups with
  | [] => ([], n)
  | c :: rest =>
      let n := N.emit (CgSetGoal c point) n in
      let '(ok, texts) := set_goal w pointi c point (fail_out_of_range_goal n) in
      let n := report invalid_goal_callback c texts n in
      let '(oks, n) := set_goals w pointi point rest n in
      (ok :: oks, n)
  end.

(** [[c.init_execution(robot, robot_status, ...) for c in groups]]. *)
Definition init_executions (groups : list cg_id) (n : Node) : Node :=
  foldl (fun n c => N.emit (CgInitExecution c) n) n groups.

(** [[c.update_execution(robot_status, success_callback=..., ...) for c in
    groups]]. *)
Fixpoint update_executions (w : World) (pointi k : nat) (groups : list cg_id)
    (n : Node) : list named_error * Node :=
  match groups with
  | [] => ([], n)
  | c :: rest =>
      let n := N.emit (CgUpdateExecution c) n in
      let '(ret, texts) := update_execution w pointi k c in
      let n := report success_callback c texts n in
      let '(rets, n) := update_executions w pointi k rest n in
      (ret :: rets, n)
  end.

(** [ret == True]. *)
Definition is_True (ret : named_error) : bool :=
  match ret with
  | RetTrue => true
  | _ => false
  end.

(** *** The poll loop of one point *)

(** What reaches the node between two polls from outside the loop. *)
Definition interleave (w : World) (pointi k : nat) (n : Node) : Node :=
  let n := if stop_requested w pointi k then Driver.stop_the_robot_callback n else n in
  if cancel_requested w pointi k then N.request_cancel n else n.

(** The public methods of an [rclpy.action.ActionServer], the class of
    [self.server]. *)
Definition ActionServer_attributes : list string :=
  ["destroy"; "register_handle_accepted_callback"; "register_goal_callback";
   "register_cancel_callback"; "register_execute_callback"; "notify_execute";
   "notify_goal_done"; "is_ready"; "take_data"; "execute";
   "get_num_entities"; "add_to_wait_set"].

(** [self.server.attr()]: looking up an attribute the class does not have
    raises [AttributeError]. *)
Definition call_on_server (attr : string) : Py.res unit :=
  if Py.list_in attr ActionServer_attributes then Py.Ok tt
  else Py.Raise (Py.AttributeError attr).

(** The branch taken on [stop_the_robot or is_cancel_requested], inside
    [with robot_stop_lock]; the [with] statement releases the stop lock
    when an exception leaves it. *)
Definition preempt (n : Node) : Py.res unit * Node :=
  match call_on_server "set_preempted" with
  | Py.Raise e => (Py.Raise e, N.emit StopLockRelease n)
  | Py.Ok _ =>
      let n := N.emit (Log Debug PreemptionRequested) n in
      let n := N.set_stop_the_robot false n in
      let n := N.release_read n in
      (Py.Ok tt, N.emit StopLockRelease n)
  end.

(** Body of [while not all(goals_reached)], iteration [k] of point
    [pointi]. *)
Definition poll (w : World) (names : list string) (pointi : nat)
    (point : JointTrajectoryPoint) (goal_start_time : Z) (k : nat)
    (n : Node) : loop_exit * Node :=
  if default_goal_timeout_duration <? now w pointi (S k) - goal_start_time then
    let n := goal_tolerance_violated_callback (TimeExceeded point) n in
    (Return, N.release_read n)
  else
    let n := interleave w pointi k n in
    let n := N.emit StopLockAcquire n in
    if stop_the_robot n || N.is_cancel_requested n then
      match preempt n with
      | (Py.Ok _, n) => (Return, n)
      | (Py.Raise e, n) => (Raises e, n)
      end
    else
      let n := N.emit StopLockRelease n in
      let n := N.emit GetStatus n in
      let '(named_errors, n) := update_executions w pointi k command_groups n in
      if existsb is_True named_errors then
        (Return, N.release_read n)
      else
        match feedback_callback (feedback_stamp w pointi k) names point named_errors n with
        | (Py.Raise e, n) => (Raises e, n)
        | (Py.Ok _, n) =>
            let goals_reached := map (goal_reached w pointi (S k)) command_groups in
            (Continue goals_reached, N.emit SpinOnce n)
        end.

(** The [while] loop, from iteration [k] on; [fuel] bounds the number of
    iterations followed. *)
Fixpoint poll_loop (fuel : nat) (w : World) (names : list string)
    (pointi : nat) (point : JointTrajectoryPoint) (goal_start_time : Z)
    (k : nat) (goals_reached : list bool) (n : Node) : loop_exit * Node :=
  if all goals_reached then (Continue goals_reached, n)
  else
    match fuel with
    | O => (OutOfFuel, n)
    | S fuel' =>
        match poll w names pointi point goal_start_time k n with
        | (Continue goals_reached', n') =>
            poll_loop fuel' w names pointi point goal_start_time (S k) goals_reached' n'
        | other => other
        end
    end.

(** The part of the [for] body before the poll loop, once the goals of
    the point are accepted. *)
Definition start_point (n : Node) : Node :=
  let n := N.emit GetStatus n in
  let n := init_executions command_groups n in
  N.emit PushCommand n.

(** [for pointi, point in enumerate(goal.trajectory.points)] from point
    [pointi] on, and the code after the loop. *)
Fixpoint execute_points (fuel : nat) (w : World) (names : list string)
    (pointi : nat) (pts : list JointTrajectoryPoint) (n : Node)
  : outcome * Node :=
  match pts with
  | [] =>
      let n := success_callback AchievedAllTargetPoints n in
      let n := N.release_read n in
      (Returned (result n), n)
  | point :: rest =>
      let n := N.emit (Log Debug (TargetPoint pointi point)) n in
      let '(valid_goals, n) := set_goals w pointi point command_groups n in
      if negb (all valid_goals) then
        let n := N.release_read n in
        (Returned (result n), n)
      else
        let n := start_point n in
        let goals_reached := map (goal_reached w pointi 0) command_groups in
        let goal_start_time := now w pointi 0 in
        match poll_loop fuel w names pointi point goal_start_time 0 goals_reached n with
        | (Continue _, n) =>
            let n := N.emit (Log Debug AchievedTargetPoint) n in
            execute_points fuel w names (S pointi) rest n
        | (Return, n) => (Returned (result n), n)
        | (Raises e, n) => (Raised e, n)
        | (OutOfFuel, n) => (StillPolling, n)
        end
  end.

(** The sum of [get_num_valid_commands()] over the groups. *)
Definition num_valid_points (w : World) : Z :=
  foldl Z.add 0 (map (get_num_valid_commands w) command_groups).

(** [execute_cb] when [robot_mode != 'manipulation']. *)
Definition execute_cb_position (fuel : nat) (w : World)
    (trajectory : JointTrajectory) (n : Node) : outcome * Node :=
  let n := N.emit StopLockAcquire n in
  let n := N.set_stop_the_robot false n in
  let n := N.emit StopLockRelease n in
  let n := N.acquire_read n in
  let commanded_joint_names := joint_names trajectory in
  let n := N.emit (Log Info (NewTrajectory commanded_joint_names)) n in
  let '(upds, n) := updates w commanded_joint_names command_groups n in
  if negb (all upds) then
    let n := N.release_read n in
    (Returned (result n), n)
  else
    let num_valid := num_valid_points w in
    if num_valid <=? 0 then
      let n := invalid_joints_callback (NoValidJointNames commanded_joint_names) n in
      let n := N.release_read n in
      (Returned (result n), n)
    else if negb (num_valid =? Z.of_nat (length commanded_joint_names)) then
      let n := invalid_joints_callback
                 (OnlySomeValid num_valid (length commanded_joint_names)
                    commanded_joint_names) n in
      let n := N.release_read n in
      (Returned (result n), n)
    else
      execute_points fuel w commanded_joint_names 0 (points trajectory) n.

End Server.

(** ** [trajectory_components.py] *)

Module Components.

(** The seven subclasses of [TrajectoryComponent]. *)
Inductive component : Type :=
| HeadPanComponent | HeadTiltComponent | WristYawComponent
| GripperComponent | ArmComponent | LiftComponent | BaseComponent.

(** [component.name], the first argument of [TrajectoryComponent.__init__]. *)
Definition name (c : component) : string :=
  match c with
  | HeadPanComponent => "joint_head_pan"
  | HeadTiltComponent => "joint_head_tilt"
  | WristYawComponent => "joint_wrist_yaw"
  | GripperComponent => "stretch_gripper"
  | ArmComponent => "wrist_extension"
  | LiftComponent => "joint_lift"
  | BaseComponent => "position"
  end.

(** [get_trajectory_components]: the dictionary comprehension
    [{component.name: component for component in [...]}]. *)
Definition get_trajectory_components : gmap string component :=
  foldl (fun d c => <[name c := c]> d) ∅
    [HeadPanComponent; HeadTiltComponent; WristYawComponent;
     GripperComponent; ArmComponent; LiftComponent; BaseComponent].

(** Attribute tables.  The methods the body of [TrajectoryComponent]
    defines, the methods a subclass defines itself, and the attributes
    [__init__] sets on the instance. *)
Definition TrajectoryComponent_methods : list string :=
  ["__init__"; "get_position"; "get_velocity"; "get_desired_position";
   "add_waypoints"; "add_waypoint"].

Definition subclass_methods (c : component) : list string :=
  match c with
  | GripperComponent => ["__init__"; "get_position"; "get_desired_position"]
  | BaseComponent => ["__init__"; "get_position"; "add_waypoints"; "add_waypoint"]
  | _ => ["__init__"]
  end.

Definition instance_attributes (c : component) : list string :=
  match c with
  | GripperComponent => ["name"; "trajectory_manager"; "gripper_conversion"]
  | _ => ["name"; "trajectory_manager"]
  end.

(** Attribute lookup on a component: instance, then class, then base class. *)
Definition hasattr (c : component) (attr : string) : bool :=
  Py.list_in attr
    (instance_attributes c ++ subclass_methods c ++ TrajectoryComponent_methods).

(** The hardware side of the components during one run of
    [execute_trajectory].  Unit conversions done by helpers outside these
    sources ([robotis_to_finger], [to_transform], [to_sec]) are part of the
    values delivered here; times stay in nanoseconds. *)
Record Playback : Type := {
  (** value of [t_comp.get_position()]: reading [0] is taken while the
      waypoints are set up, reading [S k] in poll iteration [k] *)
  position_reading : nat -> component -> float;
  (** value of [t_comp.get_velocity()] while the waypoints are set up *)
  velocity_reading : component -> float;
  (** [trajectory_manager.trajectory.evaluate_at(dt).position] *)
  evaluate_at : component -> Z -> float;
  (** number of tests of [rclpy.ok() and robot.is_trajectory_executing()]
      that hold before playback reports completion *)
  executing_polls : nat;
  (** [node.get_clock().now()]: reading [0] is [start_time], reading [S k]
      is taken in poll iteration [k] *)
  clock : nat -> Z
}.

Definition get_position (hw : Playback) (reading : nat) (c : component) : float :=
  position_reading hw reading c.

Definition get_velocity (hw : Playback) (c : component) : float :=
  velocity_reading hw c.

Definition get_desired_position (hw : Playback) (c : component) (dt : Z) : float :=
  evaluate_at hw c dt.

(** [getattr(t_comp, attr)(dt)]: calling, with the one argument [dt], the
    attribute [attr] of a component.  An attribute no table lists raises
    [AttributeError]; of the listed ones only [get_desired_position] takes
    exactly that argument. *)
Definition call_with_dt (hw : Playback) (c : component) (attr : string)
    (dt : Z) : Py.res float :=
  if negb (hasattr c attr) then Py.Raise (Py.AttributeError attr)
  else if String.eqb attr "get_desired_position" then
    Py.Ok (get_desired_position hw c dt)
  else Py.Raise Py.TypeError.

(** [add_waypoint(t, x, v, a)]: [BaseComponent] overrides it and derives
    the pose from [t]. *)
Definition add_waypoint (c : component) (t : Z) (x : float)
    (v a : option float) : event :=
  match c with
  | BaseComponent => AddBaseWaypoint t v a
  | _ => AddWaypoint (name c) t x v a
  end.

(** The loop of [TrajectoryComponent.add_waypoints]. *)
Fixpoint add_each_waypoint (c : component) (waypoints : list JointTrajectoryPoint)
    (index : nat) (n : Node) : Py.res unit * Node :=
  match waypoints with
  | [] => (Py.Ok tt, n)
  | waypoint :: rest =>
      match positions waypoint !! index with
      | None => (Py.Raise Py.IndexError, n)
      | Some x =>
          let v := velocities waypoint !! index in
          let a := accelerations waypoint !! index in
          let n := N.emit (add_waypoint c (time_from_start waypoint) x v a) n in
          add_each_waypoint c rest index n
      end
  end.

(** [t_comp.add_waypoints(waypoints, index)]; [BaseComponent] completes the
    trajectory afterwards. *)
Definition add_waypoints (c : component) (waypoints : list JointTrajectoryPoint)
    (index : nat) (n : Node) : Py.res unit * Node :=
  let n := N.emit (ClearWaypoints (name c)) n in
  match add_each_waypoint c waypoints index n with
  | (Py.Ok _, n) =>
      match c with
      | BaseComponent => (Py.Ok tt, N.emit CompleteTrajectory n)
      | _ => (Py.Ok tt, n)
      end
  | (Py.Raise e, n) => (Py.Raise e, n)
  end.

End Components.

(** ** [JointTrajectoryAction]: the Manipulation path *)

(** [FollowJointTrajectory.Goal] ([control_msgs]): the joint names and the
    points are inside its field [trajectory]. *)
Record Goal : Type := {
  trajectory : JointTrajectory
}.

(** The configuration of the action server fixed at construction. *)
Record Config : Type := {
  ignore_trajectory_velocities : bool;
  ignore_trajectory_accelerations : bool
}.

Module Manipulation.

Import Components.

(** The fields a [FollowJointTrajectory.Goal] message declares. *)
Definition Goal_fields : list string :=
  ["trajectory"; "multi_dof_trajectory"; "path_tolerance";
   "component_path_tolerance"; "goal_tolerance"; "component_goal_tolerance";
   "goal_time_tolerance"].

(** [len(getattr(goal, attr))] for an attribute expected to hold the joint
    names: a message has no attributes beyond its fields, and the joint
    names are under [trajectory]. *)
Definition len_of_goal_attr (goal : Goal) (attr : string) : Py.res nat :=
  if negb (Py.list_in attr Goal_fields) then Py.Raise (Py.AttributeError attr)
  else Py.Raise Py.TypeError.

(** "Check for valid positions": the first point whose number of positions
    differs from the number of joint names ends the loop.  The argument of
    [InvalidGoalException] is an f-string that reads
    [len(goal.joint_names)]; it is evaluated before the exception is
    constructed. *)
Fixpoint check_positions (goal : Goal) (pts : list JointTrajectoryPoint)
  : Py.res unit :=
  match pts with
  | [] => Py.Ok tt
  | pt :: rest =>
      if negb (length (positions pt) =? length (joint_names (trajectory goal)))%nat then
        let! _ := len_of_goal_attr goal "joint_names" in
        Py.Raise Py.InvalidGoalException
      else check_positions goal rest
  end.

(** "Check for invalid names". *)
Fixpoint check_names (names : list string) : Py.res unit :=
  match names with
  | [] => Py.Ok tt
  | name :: rest =>
      match get_trajectory_components !! name with
      | None => Py.Raise Py.InvalidJointException
      | Some _ => check_names rest
      end
  end.

(** Dropping velocities and accelerations when configured to. *)
Definition ignore_fields (cfg : Config) (pt : JointTrajectoryPoint)
  : JointTrajectoryPoint :=
  {| positions := positions pt;
     velocities := if ignore_trajectory_velocities cfg then [] else velocities pt;
     accelerations := if ignore_trajectory_accelerations cfg then [] else accelerations pt;
     time_from_start := time_from_start pt |}.

(** [l[index] = x]: [IndexError] out of range. *)
Definition setitem (l : list float) (index : nat) (x : float) : Py.res (list float) :=
  if (index <? length l)%nat then Py.Ok (<[index := x]> l)
  else Py.Raise Py.IndexError.

(** "Set Initial waypoint": the body of the loop over the joints, for one
    joint; the points are updated in place and handed to the component. *)
Definition set_waypoints (hw : Playback) (index : nat) (name : string)
    (pts : list JointTrajectoryPoint) (n : Node)
  : Py.res (list JointTrajectoryPoint) * Node :=
  match get_trajectory_components !! name with
  | None => (Py.Raise (Py.KeyError name), n)
  | Some t_comp =>
      match pts with
      | [] => (Py.Raise Py.IndexError, n)
      | first :: others =>
          match setitem (positions first) index (get_position hw 0 t_comp) with
          | Py.Raise e => (Py.Raise e, n)
          | Py.Ok ps =>
              let vs := if (index <? length (velocities first))%nat
                        then <[index := get_velocity hw t_comp]> (velocities first)
                        else velocities first in
              let first := {| positions := ps; velocities := vs;
                              accelerations := accelerations first;
                              time_from_start := time_from_start first |} in
              let pts := first :: others in
              match add_waypoints t_comp pts index n with
              | (Py.Ok _, n) => (Py.Ok pts, n)
              | (Py.Raise e, n) => (Py.Raise e, n)
              end
          end
      end
  end.

(** [for index, name in enumerate(goal.trajectory.joint_names)]. *)
Fixpoint set_all_waypoints (hw : Playback) (index : nat) (names : list string)
    (pts : list JointTrajectoryPoint) (n : Node) : Py.res unit * Node :=
  match names with
  | [] => (Py.Ok tt, n)
  | name :: rest =>
      match set_waypoints hw index name pts n with
      | (Py.Ok pts, n) => set_all_waypoints hw (S index) rest pts n
      | (Py.Raise e, n) => (Py.Raise e, n)
      end
  end.

(** [for joint_name in feedback.joint_names] inside the poll loop:
    the actual, desired and error positions, joint by joint. *)
Fixpoint feedback_positions (hw : Playback) (k : nat) (dt : Z)
    (names : list string) : Py.res (list float * list float * list float) :=
  match names with
  | [] => Py.Ok ([], [], [])
  | joint_name :: rest =>
      match get_trajectory_components !! joint_name with
      | None => Py.Raise (Py.KeyError joint_name)
      | Some t_comp =>
          let actual_pos := get_position hw (S k) t_comp in
          let! desired_pos := call_with_dt hw t_comp "get_desired_position_at" dt in
          let! tl := feedback_positions hw k dt rest in
          Py.Ok (actual_pos :: tl.1.1, desired_pos :: tl.1.2,
                 (actual_pos - desired_pos)%float :: tl.2)
      end
  end.

Definition point_at (dt : Z) (l : list float) : JointTrajectoryPoint :=
  {| positions := l; velocities := []; accelerations := []; time_from_start := dt |}.

(** [while rclpy.ok() and robot.is_trajectory_executing()], from iteration
    [k] on, with [remaining] tests still to hold. *)
Fixpoint feedback_loop (hw : Playback) (names : list string) (start_time : Z)
    (k remaining : nat) (n : Node) : Py.res unit * Node :=
  let n := N.emit IsTrajectoryExecuting n in
  match remaining with
  | O => (Py.Ok tt, n)
  | S remaining' =>
      let now := clock hw (S k) in
      let dt := now - start_time in
      match feedback_positions hw k dt names with
      | Py.Raise e => (Py.Raise e, n)
      | Py.Ok (actual_ps, desired_ps, error_ps) =>
          let n := N.emit (PublishFeedback
                             {| stamp := now;
                                fb_joint_names := names;
                                desired := point_at dt desired_ps;
                                actual := point_at dt actual_ps;
                                error := point_at dt error_ps |}) n in
          let n := N.emit RateSleep n in
          feedback_loop hw names start_time (S k) remaining' n
      end
  end.

(** The body of the [try] block after the lock is taken. *)
Definition try_body (cfg : Config) (hw : Playback) (goal : Goal) (n : Node)
  : Py.res Result * Node :=
  match (let! _ := check_positions goal (points (trajectory goal)) in
         let! merged := Merge.merge_arm_joints (trajectory goal) in
         let! _ := check_names (joint_names merged) in
         Py.Ok merged) with
  | Py.Raise e => (Py.Raise e, n)
  | Py.Ok merged =>
      let names := joint_names merged in
      let pts := map (ignore_fields cfg) (points merged) in
      let n := N.emit (Log Info (NewGoal (length pts) (length names))) n in
      match set_all_waypoints hw 0 names pts n with
      | (Py.Raise e, n) => (Py.Raise e, n)
      | (Py.Ok _, n) =>
          let start_time := clock hw 0 in
          let n := N.emit StartTrajectory n in
          match feedback_loop hw names start_time 0 (executing_polls hw) n with
          | (Py.Raise e, n) => (Py.Raise e, n)
          | (Py.Ok _, n) =>
              let n := N.emit StopTrajectory n in
              let n := N.succeed n in
              (Py.Ok {| error_code := SUCCESSFUL;
                        error_string := AchievedAllTargetPoints |}, n)
          end
      end
  end.

(** [e.CODE]. *)
Definition CODE (e : Py.exn) : Z :=
  match e with
  | Py.InvalidGoalException => INVALID_GOAL
  | _ => INVALID_JOINTS
  end.

(** [execute_trajectory]: [try], the two [except] clauses and [finally]. *)
Definition execute_trajectory (cfg : Config) (hw : Playback) (goal : Goal)
    (n : Node) : outcome * Node :=
  let n := N.emit StopLockAcquire n in
  let n := N.set_stop_the_robot false n in
  let n := N.acquire_read n in
  let n := N.emit StopLockRelease n in
  let '(r, n) :=
    match try_body cfg hw goal n with
    | (Py.Ok r, n) => (r, n)
    | (Py.Raise e, n) =>
        if Py.is_FollowJointTrajectoryException e then
          let n := N.emit (Log Error (OfException e)) n in
          let n := N.abort n in
          ({| error_code := CODE e; error_string := OfException e |}, n)
        else
          let n := N.emit StopTrajectory n in
          let n := N.emit (Log Error (OfException e)) n in
          let n := N.abort n in
          ({| error_code := UNKNOWN_ERROR; error_string := OfException e |}, n)
    end in
  (Returned r, N.release_read n).

End Manipulation.

(** [JointTrajectoryAction.execute_cb]. *)
Definition execute_cb (cfg : Config) (fuel : nat) (w : World)
    (hw : Components.Playback) (goal : Goal) (n : Node) : outcome * Node :=
  if decide (robot_mode n = Some Manipulation) then
    Manipulation.execute_trajectory cfg hw goal n
  else
    Server.execute_cb_position fuel w (trajectory goal) n.

(** * Specification vocabulary *)

(** ** Arm-joint consolidation *)

Module MergeSpec.

Import Merge.

(** The number of joint names the consolidation treats as arm segments. *)
Definition segments_present (names : list string) : nat :=
  length (List.filter is_arm_joint names).

(** The entries of [l] found at the indexes of the names that satisfy
    [keep], in order; [index] is the index of the first name. *)
Fixpoint values_of (keep : string -> bool) (index : nat) (names : list string)
    (l : list float) : list float :=
  match names with
  | [] => []
  | name :: rest =>
      (if keep name then option_list (l !! index) else [])
        ++ values_of keep (S index) rest l
  end.

Definition not_arm_joint (name : string) : bool := negb (is_arm_joint name).

(** The arithmetic mean of the supplied values, omitted if none was. *)
Definition mean_if_any (l : list float) : list float :=
  match l with
  | [] => []
  | _ :: _ => [(Py.sum l / Py.float_of_len l)%float]
  end.

(** The merged point as the specification words it: the other joints pass
    through in order, followed by the sum of the segment positions and the
    means of the supplied segment velocities and accelerations. *)
Definition merged_point (names : list string) (pt : JointTrajectoryPoint)
  : JointTrajectoryPoint :=
  {| positions := values_of not_arm_joint 0 names (positions pt)
                    ++ [Py.sum (values_of is_arm_joint 0 names (positions pt))];
     velocities := values_of not_arm_joint 0 names (velocities pt)
                     ++ mean_if_any (values_of is_arm_joint 0 names (velocities pt));
     accelerations := values_of not_arm_joint 0 names (accelerations pt)
                        ++ mean_if_any (values_of is_arm_joint 0 names (accelerations pt));
     time_from_start := time_from_start pt |}.

Definition merged_trajectory (t : JointTrajectory) : JointTrajectory :=
  {| joint_names := List.filter not_arm_joint (joint_names t) ++ [wrist_extension];
     points := map (merged_point (joint_names t)) (points t) |}.

(** The data-model invariant of a goal: every point has one position per
    joint name. *)
Definition well_formed (t : JointTrajectory) : Prop :=
  Forall (fun pt => length (positions pt) = length (joint_names t)) (points t).

(** The 0.1 and 0.4 of Python, as the binary64 values they denote. *)
Definition f0_1 : float := 0x1.999999999999ap-4.
Definition f0_4 : float := 0x1.999999999999ap-2.

Definition scenario1 : JointTrajectory :=
  {| joint_names := ["joint_arm_l0"; "joint_arm_l1"; "joint_arm_l2"; "joint_arm_l3"];
     points := [ {| positions := [f0_1; f0_1; f0_1; f0_1]; velocities := [];
                    accelerations := []; time_from_start := 0 |} ] |}.

(** A mixed goal: the lift between the segments, velocities supplied for
    the first three joints only. *)
Definition scenario_mixed : JointTrajectory :=
  {| joint_names := ["joint_arm_l0"; "joint_lift"; "joint_arm_l1";
                     "joint_arm_l2"; "joint_arm_l3"];
     points := [ {| positions := [1; 5; 2; 3; 4]%float;
                    velocities := [1; 7; 3]%float;
                    accelerations := []; time_from_start := 3 |} ] |}.

(** The values kept for one point once the joints [names], the first of
    them at [index], have been walked. *)
Definition gathered (index : nat) (names : list string)
    (pt : JointTrajectoryPoint) (vals : arm_values) : arm_values :=
  {| new_point :=
       {| positions := positions (new_point vals)
                         ++ values_of not_arm_joint index names (positions pt);
          velocities := velocities (new_point vals)
                          ++ values_of not_arm_joint index names (velocities pt);
          accelerations := accelerations (new_point vals)
                             ++ values_of not_arm_joint index names (accelerations pt);
          time_from_start := time_from_start (new_point vals) |};
     total_extension :=
       foldl PrimFloat.add (total_extension vals)
         (values_of is_arm_joint index names (positions pt));
     arm_velocities :=
       arm_velocities vals ++ values_of is_arm_joint index names (velocities pt);
     arm_accelerations :=
       arm_accelerations vals ++ values_of is_arm_joint index names (accelerations pt) |}.

End MergeSpec.

(** ** Goal execution *)

(** An event other than a hand-off of goal data to a command group. *)
Definition not_handoff (e : event) : Prop :=
  match e with
  | CgUpdate _ _ _ | CgSetGoal _ _ => False
  | _ => True
  end.

Module ServerSpec.

Import Server.

(** The node at the head of the first poll iteration of the point [point],
    numbered [pointi], when the [for] body is entered in [n]: the goals of
    the point were accepted and the setpoints pushed. *)
Definition at_first_poll (w : World) (pointi : nat)
    (point : JointTrajectoryPoint) (n : Node) : option Node :=
  let n := N.emit (Log Debug (TargetPoint pointi point)) n in
  let '(valid_goals, n) := set_goals w pointi point command_groups n in
  if negb (all valid_goals) then None else Some (start_point n).

(** Some command group has not reached its goal when the setpoints of the
    point have been pushed. *)
Definition not_reached (w : World) (pointi : nat) : Prop :=
  all (map (goal_reached w pointi 0) command_groups) = false.

(** The first poll iteration of the point begins within the timeout. *)
Definition in_time (w : World) (pointi : nat) : Prop :=
  now w pointi 1 - now w pointi 0 <= default_goal_timeout_duration.

(** No command group returns [True] from [update_execution] in iteration
    [k] of point [pointi]. *)
Definition no_fault (w : World) (pointi k : nat) : Prop :=
  existsb is_True (map (fun c => (update_execution w pointi k c).1) command_groups)
  = false.

(** Events by kind. *)
Definition is_abort (e : event) : bool :=
  match e with
  | Abort => true
  | _ => false
  end.

Definition is_feedback (e : event) : bool :=
  match e with
  | PublishFeedback _ => true
  | _ => false
  end.

(** An event that is neither the abort of the goal, nor a feedback
    message, nor a [set_goal] call. *)
Definition no_abort_no_feedback (e : event) : Prop :=
  is_abort e = false /\ is_feedback e = false /\ is_set_goal e = false.


(** No stop request and no cancel request arrives during the run. *)
Definition undisturbed (w : World) : Prop :=
  forall pointi k,
    stop_requested w pointi k = false /\ cancel_requested w pointi k = false.

(** An event that hands a command group the goal as submitted: the joint
    names of [t] to [update], a point of [t] to [set_goal]. *)
Definition as_submitted (t : JointTrajectory) (e : event) : Prop :=
  match e with
  | CgUpdate _ names _ => names = joint_names t
  | CgSetGoal _ point => point ∈ points t
  | _ => True
  end.

(** The reading of the specification's first protocol step: whatever
    [update] receives is the joint-name list of the merged trajectory. *)
Definition consolidated_before_update (cfg : Config) (fuel : nat) (w : World)
    (hw : Components.Playback) (goal : Goal) (n : Node) : Prop :=
  forall merged c names m,
    Merge.merge_arm_joints (trajectory goal) = Py.Ok merged ->
    CgUpdate c names m ∈ trace (execute_cb cfg fuel w hw goal n).2 ->
    names = joint_names merged.

(** *** Relations between the node before and after a step *)

(** The node once the stop flag is reset, the read lock taken and the
    arrival of the goal logged. *)
Definition accepted (t : JointTrajectory) (n : Node) : Node :=
  N.emit (Log Info (NewTrajectory (joint_names t)))
    (N.acquire_read
       (N.emit StopLockRelease
          (N.set_stop_the_robot false (N.emit StopLockAcquire n)))).

(** The node once [execute_trajectory] has reset the stop flag and taken the
    read lock. *)
Definition started (n : Node) : Node :=
  N.emit StopLockRelease
    (N.acquire_read (N.set_stop_the_robot false (N.emit StopLockAcquire n))).

(** [n'] has the trace of [n] followed by events that all satisfy [P]. *)
Definition grows (P : event -> Prop) (n n' : Node) : Prop :=
  exists evs, trace n' = trace n ++ evs /\ Forall P evs.

(** The stop flag is down and the goal is not being cancelled. *)
Definition settled (n : Node) : Prop :=
  stop_the_robot n = false /\ status n <> Canceling.

Definition keeps_settled (n n' : Node) : Prop := settled n -> settled n'.




(** *** Concrete runs *)

(** A node with no lock held, a fresh result and an executing goal. *)
Definition idle_node (m : option mode) (stop : bool) : Node :=
  {| robot_mode := m; stop_the_robot := stop;
     read_holds := 0; write_held := false;
     linear_velocity_mps := 0; angular_velocity_radps := 0;
     last_twist_time := 0;
     mobile_base_manipulation_origin := None;
     fail_out_of_range_goal := true;
     result := {| error_code := SUCCESSFUL; error_string := NoText |};
     status := Executing; trace := [] |}.

Definition one_second : Z := 1000000000.

(** A world in which the lift group claims the one commanded joint and
    never reaches its goal, the clock advances four seconds per poll, and a
    stop request arrives before poll [stop_at] of point 0 (never, for
    [None]). *)
Definition lift_world (stop_at : option nat) : World :=
  {| update := fun _ _ _ => (true, []);
     get_num_valid_commands :=
       fun c => match c with lift_cg => 1 | _ => 0 end;
     set_goal := fun _ _ _ _ => (true, []);
     goal_reached := fun _ _ c => match c with lift_cg => false | _ => true end;
     update_execution :=
       fun _ _ c => match c with
                    | lift_cg => (RetTuple "joint_lift" 0, [])
                    | _ => (RetOther, [])
                    end;
     now := fun _ k => Z.of_nat k * (4 * one_second);
     feedback_stamp := fun _ k => Z.of_nat k * (4 * one_second);
     stop_requested :=
       fun pointi k => match stop_at with
                       | Some s => (pointi =? 0)%nat && (k =? s)%nat
                       | None => false
                       end;
     cancel_requested := fun _ _ => false |}.

Definition lift_point (x : float) : JointTrajectoryPoint :=
  {| positions := [x]; velocities := []; accelerations := []; time_from_start := 0 |}.

Definition lift_goal : Goal :=
  {| trajectory := {| joint_names := ["joint_lift"];
                      points := [lift_point 1; lift_point 2] |} |}.

(** A world in which the telescoping group claims the four segment joints
    and reaches every point at once. *)
Definition arm_world : World :=
  {| update := fun _ _ _ => (true, []);
     get_num_valid_commands :=
       fun c => match c with telescoping_cg => 4 | _ => 0 end;
     set_goal := fun _ _ _ _ => (true, []);
     goal_reached := fun _ _ _ => true;
     update_execution := fun _ _ _ => (RetOther, []);
     now := fun _ _ => 0;
     feedback_stamp := fun _ _ => 0;
     stop_requested := fun _ _ => false;
     cancel_requested := fun _ _ => false |}.

Definition arm_goal : Goal := {| trajectory := MergeSpec.scenario1 |}.

Definition keep_all : Config :=
  {| ignore_trajectory_velocities := false;
     ignore_trajectory_accelerations := false |}.

(** Playback that holds for [polls] tests, every reading zero. *)
Definition still_playback (polls : nat) : Components.Playback :=
  {| Components.position_reading := fun _ _ => 0%float;
     Components.velocity_reading := fun _ => 0%float;
     Components.evaluate_at := fun _ _ => 0%float;
     Components.executing_polls := polls;
     Components.clock := fun k => Z.of_nat k * one_second |}.

End ServerSpec.

(** ** Further vocabulary *)

Module CoverageSpec.

Import Merge MergeSpec Server ServerSpec Components Manipulation.

(** Every point has at least one position per joint name: what the third
    loop of [merge_arm_joints] needs in order to index every point. *)
Definition enough_positions (t : JointTrajectory) : Prop :=
  Forall (fun pt => (length (joint_names t) <= length (positions pt))%nat) (points t).

(** Some point has fewer positions than there are joint names. *)
Definition short_point (t : JointTrajectory) : Prop :=
  Exists (fun pt => (length (positions pt) < length (joint_names t))%nat) (points t).

(** A mixed goal that supplies a velocity for every joint. *)
Definition scenario_full : JointTrajectory :=
  {| joint_names := ["joint_arm_l0"; "joint_lift"; "joint_arm_l1";
                     "joint_arm_l2"; "joint_arm_l3"];
     points := [ {| positions := [1; 5; 2; 3; 4]%float;
                    velocities := [1; 7; 3; 2; 2]%float;
                    accelerations := []; time_from_start := 3 |} ] |}.

(** The pattern the three error callbacks of [JointTrajectoryAction] share:
    guarded by the goal handle, log, set the result, abort. *)
Definition error_callback (code : Z) (err_str : text) (n : Node) : Node :=
  if N.is_active n || N.is_cancel_requested n then
    let n := N.emit (Log Error err_str) n in
    let n := N.set_result {| error_code := code; error_string := err_str |} n in
    N.abort n
  else n.

Definition error_callbacks : list (text -> Node -> Node) :=
  [invalid_joints_callback; invalid_goal_callback; goal_tolerance_violated_callback].

(** The first text a command group passed to its callback, with the group,
    among the answers of the groups in call order. *)
Fixpoint first_text (answers : list (cg_id * (bool * list string)))
  : option (cg_id * string) :=
  match answers with
  | [] => None
  | (c, (_, s :: _)) :: _ => Some (c, s)
  | (_, (_, [])) :: rest => first_text rest
  end.

(** The answers of the groups to [update] and to [set_goal]. *)
Definition update_answers (w : World) (names : list string) (m : option mode)
  : list (cg_id * (bool * list string)) :=
  map (fun c => (c, update w c names m)) command_groups.

Definition set_goal_answers (w : World) (pointi : nat)
    (point : JointTrajectoryPoint) (fail_out_of_range : bool)
  : list (cg_id * (bool * list string)) :=
  map (fun c => (c, set_goal w pointi c point fail_out_of_range)) command_groups.

Definition accepted_by_all (answers : list (cg_id * (bool * list string))) : bool :=
  all (map (fun a => a.2.1) answers).

(** The joint names pass the validation of [execute_cb]: every group
    accepts them and the groups together claim every name. *)
Definition validated (w : World) (t : JointTrajectory) (m : option mode) : bool :=
  accepted_by_all (update_answers w (joint_names t) m)
  && (0 <? num_valid_points w)
  && (num_valid_points w =? Z.of_nat (length (joint_names t))).

(** Events by kind. *)
Definition is_push_command (e : event) : bool :=
  match e with
  | PushCommand => true
  | _ => false
  end.

Definition is_poll_event (e : event) : bool :=
  match e with
  | CgUpdateExecution _ | PublishFeedback _ | SpinOnce => true
  | _ => false
  end.

(** Neither a hardware call nor a [set_goal]. *)
Definition before_motion (e : event) : Prop :=
  is_hardware_call e = false /\ is_set_goal e = false.


(** Every point of the trajectory is accepted by all groups without a
    report, and already reached when its commands have been pushed. *)
Definition reached_at_once (w : World) (fail_out_of_range : bool)
    (first : nat) (pts : list JointTrajectoryPoint) : Prop :=
  forall i point,
    pts !! i = Some point ->
    let answers := set_goal_answers w (first + i) point fail_out_of_range in
    accepted_by_all answers = true
    /\ first_text answers = None
    /\ all (map (goal_reached w (first + i) 0) command_groups) = true.

(** A goal for the lift and a joint no group claims. *)
Definition lift_and_unknown : JointTrajectory :=
  {| joint_names := ["joint_lift"; "joint_elbow"];
     points := [{| positions := [1%float; 2%float]; velocities := []; accelerations := [];
                   time_from_start := 0 |}] |}.

(** [lift_world] with a lift that refuses every point, reporting it. *)
Definition refusing_world : World :=
  {| update := update (lift_world None);
     get_num_valid_commands := get_num_valid_commands (lift_world None);
     set_goal := fun _ c _ _ =>
                   match c with
                   | lift_cg => (false, ["out of range"])
                   | _ => (true, [])
                   end;
     goal_reached := goal_reached (lift_world None);
     update_execution := update_execution (lift_world None);
     now := now (lift_world None);
     feedback_stamp := feedback_stamp (lift_world None);
     stop_requested := stop_requested (lift_world None);
     cancel_requested := cancel_requested (lift_world None) |}.





(** The validation at the head of [execute_trajectory]: the position
    check, the merge of the arm joints, the name check. *)
Definition validate (goal : Goal) : Py.res JointTrajectory :=
  let! _ := check_positions goal (points (trajectory goal)) in
  let! merged := merge_arm_joints (trajectory goal) in
  let! _ := check_names (joint_names merged) in
  Py.Ok merged.

(** A joint name one of the trajectory components answers to. *)
Definition known_joint (name : string) : Prop :=
  is_Some (get_trajectory_components !! name).

(** The joint names the manipulation path turns down: arm segments that do
    not make up the whole arm or come with [wrist_extension], or a name
    that is neither a segment nor a component. *)
Definition rejected_joints (t : JointTrajectory) : Prop :=
  (segments_present (joint_names t) <> 0%nat
   /\ (wrist_extension ∈ joint_names t
       \/ segments_present (joint_names t) <> 4%nat))
  \/ Exists (fun name => is_arm_joint name = false /\ ~ known_joint name)
       (joint_names t).

(** A goal for the lift and a joint that is no component. *)
Definition unknown_joint_goal : Goal := {| trajectory := lift_and_unknown |}.


Global Instance known_joint_dec (name : string) : Decision (known_joint name).
Proof. unfold known_joint. apply _. Defined.

(** The goal handle, the stored result and the read holds are left alone. *)
Definition same_goal (n n' : Node) : Prop :=
  status n' = status n /\ result n' = result n /\ read_holds n' = read_holds n.

(** What lets a validated goal of the manipulation path succeed: it names
    no joint, or it has a point and playback is over at the first test. *)
Definition plays_out (hw : Playback) (t : JointTrajectory) : Prop :=
  joint_names t = [] \/ (points t <> [] /\ executing_polls hw = 0%nat).

(** The events of [execute_trajectory] before the [try] body. *)
Definition prologue : list event :=
  [StopLockAcquire; StopFlagSet false; AcquireRead; StopLockRelease].


(** The velocity a twist asks for, and standstill. *)
Definition base_velocity_of (twist : Twist) : event :=
  BaseSetVelocity (linear_x twist) (angular_z twist).

Definition standstill : event := BaseSetVelocity 0 0.

Definition is_base_velocity (e : event) : bool :=
  match e with
  | BaseSetVelocity _ _ => true
  | _ => false
  end.

(** The events of one run of the periodic task that commands [cmd] (or
    nothing, outside navigation mode) and publishes the state. *)
Definition tick_events (broadcast_odom_tf : bool) (cmd : option event)
  : list event :=
  [AcquireRead]
  ++ match cmd with
     | Some e => [e; PushCommand]
     | None => []
     end
  ++ [GetStatus]
  ++ map Publish (Driver.state_topics broadcast_odom_tf)
  ++ [ReleaseRead].

(** The four functions that switch the mode; [base_pose] is the pose the
    robot reports when manipulation mode is entered. *)
Definition mode_functions (base_pose : float * float * float)
  : list (Node -> option Node) :=
  [Driver.turn_on_navigation_mode; Driver.turn_on_manipulation_mode base_pose;
   Driver.turn_on_position_mode; Driver.calibrate].

(** In manipulation mode the origin of the base is known. *)
Definition origin_known (n : Node) : Prop :=
  robot_mode n = Some Manipulation -> is_Some (mobile_base_manipulation_origin n).

Definition a_twist : Twist :=
  {| linear_x := 0x1.999999999999ap-4; angular_z := 0 |}.

End CoverageSpec.

(** * Properties *)

(** ** Arm-joint consolidation *)

Module MergeFacts.

Import Merge MergeSpec.

(** *** The first loop *)

Lemma split_names_fst_length (j : nat) (names : list string) :
  length (split_names j names).1 = segments_present names.
Proof.
  revert j. induction names as [|name rest IH]; intros j; [reflexivity|].
  unfold segments_present in *. simpl.
  specialize (IH (S j)). destruct (split_names (S j) rest) as [arm other].
  destruct (is_arm_joint name); simpl in *; lia.
Qed.

Lemma split_names_snd (j : nat) (names : list string) :
  (split_names j names).2 = List.filter not_arm_joint names.
Proof.
  revert j. induction names as [|name rest IH]; intros j; [reflexivity|].
  simpl. specialize (IH (S j)). unfold not_arm_joint in *.
  destruct (split_names (S j) rest) as [arm other].
  destruct (is_arm_joint name); simpl in *; congruence.
Qed.

Lemma split_names_fst_ge (j : nat) (names : list string) (i : nat) :
  i ∈ (split_names j names).1 -> (j <= i)%nat.
Proof.
  revert j. induction names as [|name rest IH]; intros j; simpl.
  - intros H. inversion H.
  - specialize (IH (S j)). destruct (split_names (S j) rest) as [arm other].
    destruct (is_arm_joint name); simpl in *.
    + intros [->|H]%elem_of_cons; [lia|]. apply IH in H. lia.
    + intros H. apply IH in H. lia.
Qed.

(** Membership in [arm_indexes] agrees with the substring test on the
    name at that index. *)
Lemma split_names_fst_elem (j : nat) (names : list string) (k : nat)
    (name : string) :
  names !! k = Some name ->
  bool_decide ((j + k)%nat ∈ (split_names j names).1) = is_arm_joint name.
Proof.
  revert j k. induction names as [|name0 rest IH]; intros j k Hk; [done|].
  simpl. pose proof (split_names_fst_ge (S j) rest) as Hge.
  pose proof (IH (S j)) as IH'.
  destruct (split_names (S j) rest) as [arm other]. simpl in *.
  destruct k as [|k]; simpl in Hk.
  - injection Hk as ->. rewrite Nat.add_0_r.
    destruct (is_arm_joint name) eqn:E; simpl.
    + apply bool_decide_eq_true. left.
    + apply bool_decide_eq_false. intros H. apply Hge in H. lia.
  - specialize (IH' k Hk). replace (j + S k)%nat with (S j + k)%nat by lia.
    destruct (is_arm_joint name0); simpl; [|exact IH'].
    rewrite <- IH'. apply bool_decide_ext. rewrite elem_of_cons.
    split; [intros [?|?]; [lia|done] | by right].
Qed.

Lemma arm_indexes_nil (names : list string) :
  arm_indexes names = [] <-> Forall (fun name => is_arm_joint name = false) names.
Proof.
  unfold arm_indexes. generalize 0%nat.
  induction names as [|name rest IH]; intros j; simpl.
  - split; [constructor|reflexivity].
  - specialize (IH (S j)). destruct (split_names (S j) rest) as [arm other].
    simpl in *. destruct (is_arm_joint name) eqn:E; simpl.
    + split; [discriminate|]. intros H. inversion H; congruence.
    + rewrite IH. split; [by constructor|]. intros H. by inversion H.
Qed.

(** *** The third loop *)

Lemma append_if_not_None_option_list (l : list float) (v : option float) :
  Py.append_if_not_None l v = l ++ option_list v.
Proof. destruct v; simpl; [reflexivity|by rewrite app_nil_r]. Qed.

Lemma mapM_ok {A B} (f : A -> Py.res B) (g : A -> B) (l : list A) :
  Forall (fun x => f x = Py.Ok (g x)) l ->
  Py.mapM f l = Py.Ok (map g l).
Proof.
  induction 1 as [|x l Hx _ IH]; simpl; [reflexivity|].
  by rewrite Hx, IH.
Qed.

Lemma gather_one (arm : list nat) (index : nat) (name : string)
    (pt : JointTrajectoryPoint) (vals : arm_values) :
  bool_decide (index ∈ arm) = is_arm_joint name ->
  (index < length (positions pt))%nat ->
  gather arm index (pt, vals) = Py.Ok (pt, gathered index [name] pt vals).
Proof.
  intros Harm Hlen. unfold gather, gathered.
  destruct (lookup_lt_is_Some_2 _ _ Hlen) as [x Hx]. rewrite Hx, Harm.
  rewrite !append_if_not_None_option_list. unfold not_arm_joint. simpl.
  destruct (is_arm_joint name); simpl; rewrite ?Hx, ?app_nil_r; simpl;
    try reflexivity.
  by destruct vals as [[] ? ? ?].
Qed.

Lemma gathered_cons (index : nat) (name : string) (rest : list string)
    (pt : JointTrajectoryPoint) (vals : arm_values) :
  gathered (S index) rest pt (gathered index [name] pt vals)
  = gathered index (name :: rest) pt vals.
Proof.
  unfold gathered. simpl. rewrite !app_nil_r, <- !app_assoc, foldl_app.
  reflexivity.
Qed.

Lemma gather_all_ok (arm : list nat) (names : list string) :
  forall (index : nat) (st : list (JointTrajectoryPoint * arm_values)),
  (forall k name, names !! k = Some name ->
      bool_decide ((index + k)%nat ∈ arm) = is_arm_joint name) ->
  Forall (fun pv => (index + length names <= length (positions pv.1))%nat) st ->
  gather_all arm index names st
  = Py.Ok (map (fun pv => (pv.1, gathered index names pv.1 pv.2)) st).
Proof.
  induction names as [|name rest IH]; intros index st Harm Hlen.
  - simpl. f_equal. rewrite <- (map_id st) at 1. apply map_ext.
    intros [pt [[] ? ? ?]]. unfold gathered. simpl. by rewrite !app_nil_r.
  - simpl.
    rewrite (mapM_ok _ (fun pv => (pv.1, gathered index [name] pv.1 pv.2))).
    + simpl. rewrite IH.
      * rewrite map_map. f_equal. apply map_ext. intros [pt vals]. simpl.
        by rewrite gathered_cons.
      * intros k name' Hk. replace (S index + k)%nat with (index + S k)%nat by lia.
        by apply Harm.
      * rewrite Forall_map. eapply Forall_impl; [exact Hlen|].
        intros [pt vals]. simpl. lia.
    + eapply Forall_impl; [exact Hlen|]. intros [pt vals] Hpt. simpl in *.
      apply gather_one; [|lia].
      specialize (Harm 0%nat name eq_refl). by rewrite Nat.add_0_r in Harm.
Qed.

Lemma add_arm_values_gathered (names : list string) (pt : JointTrajectoryPoint) :
  add_arm_values (gathered 0 names pt (init_values pt)) = merged_point names pt.
Proof.
  unfold add_arm_values, gathered, merged_point, init_values, append_mean,
    mean_if_any, mean. simpl.
  f_equal.
  - destruct (values_of is_arm_joint 0 names (velocities pt));
      [by rewrite app_nil_r|reflexivity].
  - destruct (values_of is_arm_joint 0 names (accelerations pt));
      [by rewrite app_nil_r|reflexivity].
Qed.

(** Where every position is present, as many values are selected as names
    are kept. *)
Lemma values_of_length (keep : string -> bool) (names : list string)
    (l : list float) (index : nat) :
  (index + length names <= length l)%nat ->
  length (values_of keep index names l) = length (List.filter keep names).
Proof.
  revert index. induction names as [|name rest IH]; intros index H; [reflexivity|].
  simpl in *. rewrite length_app, IH by lia.
  destruct (keep name); simpl; [|reflexivity].
  destruct (lookup_lt_is_Some_2 l index) as [x ->]; [lia|reflexivity].
Qed.

(** *** The whole function on a goal with four segments *)


End MergeFacts.

Section MergeClaims.

Import Merge MergeSpec MergeFacts.



(** C8.  A trajectory that names [wrist_extension] together with any
    segment joint, or that names one, two or three segment joints, is
    rejected with [InvalidJointException], whose code is INVALID_JOINTS. *)
Theorem merge_rejects_mixed_or_partial (t : JointTrajectory) :
  (wrist_extension ∈ joint_names t
     /\ Exists (fun name => is_arm_joint name = true) (joint_names t))
  \/ (1 <= segments_present (joint_names t) <= 3)%nat ->
  merge_arm_joints t = Py.Raise Py.InvalidJointException
  /\ Manipulation.CODE Py.InvalidJointException = INVALID_JOINTS.
Proof.
  intros H. split; [|reflexivity]. unfold merge_arm_joints.
  pose proof (split_names_fst_length 0 (joint_names t)) as Hlen.
  pose proof (arm_indexes_nil (joint_names t)) as Hnil. unfold arm_indexes in Hnil.
  destruct (split_names 0 (joint_names t)) as [arm new_names]. simpl in *.
  destruct arm as [|i0 arm'].
  - exfalso. destruct H as [[_ Hex]|Hcount].
    + apply Exists_exists in Hex as (name & Hin & Harm).
      pose proof (proj1 Hnil eq_refl) as Hall. rewrite Forall_forall in Hall.
      specialize (Hall name Hin). congruence.
    + simpl in Hlen. lia.
  - unfold Py.list_in. case_bool_decide as Hw; [reflexivity|].
    destruct H as [[Hin _]|Hcount]; [contradiction|].
    rewrite Hlen.
    destruct (Nat.eqb_spec (segments_present (joint_names t)) 4); [lia|reflexivity].
Qed.

Lemma merge_rejects_mixed_or_partial_witness :
  merge_arm_joints {| joint_names := ["wrist_extension"; "joint_arm_l0"];
                      points := [] |}
  = Py.Raise Py.InvalidJointException
  /\ merge_arm_joints {| joint_names := ["joint_arm_l0"; "joint_lift"; "joint_arm_l1"];
                         points := [] |}
     = Py.Raise Py.InvalidJointException.
Proof.
  split.
  - refine (proj1 (merge_rejects_mixed_or_partial _ _)). left. split.
    + apply (bool_decide_unpack _). vm_compute. exact I.
    + apply Exists_cons_tl, Exists_cons_hd. reflexivity.
  - refine (proj1 (merge_rejects_mixed_or_partial _ _)). right.
    vm_compute. split; repeat constructor.
Defined.

(** C9.  [merge_arm_joints] returns its argument unchanged, and does not
    raise, exactly when no joint name of the trajectory is a segment
    name. *)
Theorem merge_noop_iff_no_segment (t : JointTrajectory) :
  merge_arm_joints t = Py.Ok t
  <-> Forall (fun name => is_arm_joint name = false) (joint_names t).
Proof.
  rewrite <- arm_indexes_nil. unfold merge_arm_joints, arm_indexes.
  destruct (split_names 0 (joint_names t)) as [arm new_names]. simpl.
  destruct arm as [|i0 arm']; [done|].
  split; [|discriminate]. unfold Py.list_in.
  case_bool_decide as Hw; [discriminate|].
  destruct (negb _); [discriminate|].
  destruct (gather_all _ _ _ _) as [st'|e]; simpl; [|discriminate].
  intros Heq. exfalso. apply Hw. injection Heq as Heq. rewrite <- Heq.
  simpl. apply elem_of_app. right. left.
Qed.

End MergeClaims.

Module ServerFacts.

Import Server ServerSpec.

(** *** Unrolling the point loop *)

Lemma execute_points_cons (fuel : nat) (w : World) (names : list string)
    (pointi : nat) (point : JointTrajectoryPoint)
    (rest : list JointTrajectoryPoint) (n : Node) :
  execute_points fuel w names pointi (point :: rest) n
  = let '(valid_goals, n2) :=
      set_goals w pointi point command_groups
        (N.emit (Log Debug (TargetPoint pointi point)) n) in
    if negb (all valid_goals) then
      (Returned (result (N.release_read n2)), N.release_read n2)
    else
      match poll_loop fuel w names pointi point (now w pointi 0) 0
              (map (goal_reached w pointi 0) command_groups) (start_point n2) with
      | (Continue _, n3) =>
          execute_points fuel w names (S pointi) rest
            (N.emit (Log Debug AchievedTargetPoint) n3)
      | (Return, n3) => (Returned (result n3), n3)
      | (Raises e, n3) => (Raised e, n3)
      | (OutOfFuel, n3) => (StillPolling, n3)
      end.
Proof. reflexivity. Qed.

(** *** The branches of a poll iteration *)

(** [rclpy.action.ActionServer] has no [set_preempted]. *)
Lemma preempt_raises (n : Node) :
  preempt n
  = (Py.Raise (Py.AttributeError "set_preempted"), N.emit StopLockRelease n).
Proof. reflexivity. Qed.

(** The stamp is never accepted. *)
Lemma feedback_callback_raises (stamp_now : Z) (names : list string)
    (point : JointTrajectoryPoint) (rets : list named_error) (n : Node) :
  exists e n', feedback_callback stamp_now names point rets n = (Py.Raise e, n').
Proof.
  unfold feedback_callback.
  destruct (feedback_points _ _ _ _) as [ea|e]; cbn [set_stamp]; by eexists _, _.
Qed.

Lemma poll_timeout (w : World) (names : list string) (pointi : nat)
    (point : JointTrajectoryPoint) (t0 : Z) (k : nat) (n : Node) :
  default_goal_timeout_duration < now w pointi (S k) - t0 ->
  poll w names pointi point t0 k n
  = (Return, N.release_read (goal_tolerance_violated_callback (TimeExceeded point) n)).
Proof.
  intros H. unfold poll. by rewrite (proj2 (Z.ltb_lt _ _) H).
Qed.

Lemma poll_preempt (w : World) (names : list string) (pointi : nat)
    (point : JointTrajectoryPoint) (t0 : Z) (k : nat) (n : Node) :
  now w pointi (S k) - t0 <= default_goal_timeout_duration ->
  stop_the_robot (interleave w pointi k n)
    || N.is_cancel_requested (interleave w pointi k n) = true ->
  poll w names pointi point t0 k n
  = (Raises (Py.AttributeError "set_preempted"),
     N.emit StopLockRelease (N.emit StopLockAcquire (interleave w pointi k n))).
Proof.
  intros Ht Hstop. unfold poll.
  rewrite (proj2 (Z.ltb_ge _ _) Ht).
  change (stop_the_robot (N.emit StopLockAcquire (interleave w pointi k n)))
    with (stop_the_robot (interleave w pointi k n)).
  change (N.is_cancel_requested (N.emit StopLockAcquire (interleave w pointi k n)))
    with (N.is_cancel_requested (interleave w pointi k n)).
  by rewrite Hstop.
Qed.

(** No poll iteration is followed by another one. *)
Lemma poll_never_continues (w : World) (names : list string) (pointi : nat)
    (point : JointTrajectoryPoint) (t0 : Z) (k : nat) (n : Node)
    (gr : list bool) :
  (poll w names pointi point t0 k n).1 <> Continue gr.
Proof.
  unfold poll. destruct (_ <? _); [done|].
  destruct (_ || _); [by rewrite preempt_raises|].
  destruct (update_executions _ _ _ _ _) as [rets n2].
  destruct (existsb is_True rets); [done|].
  by destruct (feedback_callback_raises (feedback_stamp w pointi k) names point
                 rets n2) as (e & n' & ->).
Qed.

Lemma poll_loop_one (fuel : nat) (w : World) (names : list string)
    (pointi : nat) (point : JointTrajectoryPoint) (t0 : Z) (k : nat)
    (gr : list bool) (n : Node) :
  all gr = false ->
  poll_loop (S fuel) w names pointi point t0 k gr n
  = poll w names pointi point t0 k n.
Proof.
  intros Hgr. cbn [poll_loop]. rewrite Hgr.
  pose proof (poll_never_continues w names pointi point t0 k n) as Hno.
  destruct (poll w names pointi point t0 k n) as [[gr1| | |] n1]; try reflexivity.
  exfalso. by apply (Hno gr1).
Qed.

(** A point that is not reached at once ends the call in its first poll
    iteration. *)
Lemma execute_points_first_poll (fuel : nat) (w : World) (names : list string)
    (pointi : nat) (point : JointTrajectoryPoint)
    (rest : list JointTrajectoryPoint) (n n' : Node) :
  at_first_poll w pointi point n = Some n' ->
  not_reached w pointi ->
  execute_points (S fuel) w names pointi (point :: rest) n
  = match poll w names pointi point (now w pointi 0) 0 n' with
    | (Return, n3) => (Returned (result n3), n3)
    | (Raises e, n3) => (Raised e, n3)
    | (_, n3) => (StillPolling, n3)
    end.
Proof.
  unfold at_first_poll, not_reached. intros Hat Hgr. rewrite execute_points_cons.
  destruct (set_goals w pointi point command_groups _) as [valid n2].
  destruct (negb (all valid)); [discriminate|]. injection Hat as <-.
  rewrite (poll_loop_one _ _ _ _ _ _ _ _ _ Hgr).
  pose proof (poll_never_continues w names pointi point (now w pointi 0) 0
                (start_point n2)) as Hno.
  destruct (poll w names pointi point (now w pointi 0) 0 (start_point n2))
    as [[gr1| | |] n1]; try reflexivity.
  exfalso. by apply (Hno gr1).
Qed.

End ServerFacts.

(** ** What every step of the Position/Navigation path preserves *)

Module Frame.

Import Server ServerSpec.

Section Basic.

(** A relation between the node before and after a step that composes and
    that the elementary steps of the callbacks satisfy; [okE] says which
    events the relation tolerates in the trace. *)
Variable R : Node -> Node -> Prop.
Variable okE : event -> Prop.
Hypothesis R_refl : forall n, R n n.
Hypothesis R_trans : forall a b c, R a b -> R b c -> R a c.
Hypothesis R_emit : forall e n, okE e -> R n (N.emit e n).
Hypothesis R_set_result : forall r n, R n (N.set_result r n).
Hypothesis R_set_status_done :
  forall s n, s = Aborted \/ s = Succeeded -> R n (N.set_status s n).
Hypothesis okE_other : forall e, not_handoff e -> okE e.

(** [last_by tac]: split off the last step of the chain and close it with
    [tac]; what remains is the chain before it. *)
Ltac last_by tac := eapply R_trans; [|tac].
Ltac emits := apply R_emit, okE_other; exact I.

Lemma R_abort (n : Node) : R n (N.abort n).
Proof.
  unfold N.abort. last_by emits. apply R_set_status_done. by left.
Qed.

Lemma R_succeed (n : Node) : R n (N.succeed n).
Proof.
  unfold N.succeed. last_by emits. apply R_set_status_done. by right.
Qed.

Lemma R_log_result (l : level) (t : text) (r : Result) (n : Node) :
  R n (N.set_result r (N.emit (Log l t) n)).
Proof. last_by ltac:(apply R_set_result). emits. Qed.

Lemma R_invalid_joints_callback (t : text) (n : Node) :
  R n (invalid_joints_callback t n).
Proof.
  unfold invalid_joints_callback. destruct (_ || _); [|apply R_refl].
  last_by ltac:(apply R_abort). apply R_log_result.
Qed.

Lemma R_invalid_goal_callback (t : text) (n : Node) :
  R n (invalid_goal_callback t n).
Proof.
  unfold invalid_goal_callback. destruct (_ || _); [|apply R_refl].
  last_by ltac:(apply R_abort). apply R_log_result.
Qed.

Lemma R_goal_tolerance_violated_callback (t : text) (n : Node) :
  R n (goal_tolerance_violated_callback t n).
Proof.
  unfold goal_tolerance_violated_callback. destruct (_ || _); [|apply R_refl].
  last_by ltac:(apply R_abort). apply R_log_result.
Qed.

Lemma R_success_callback (t : text) (n : Node) : R n (success_callback t n).
Proof.
  unfold success_callback. last_by ltac:(apply R_succeed). apply R_log_result.
Qed.

Lemma R_report (callback : text -> Node -> Node) (c : cg_id)
    (texts : list string) :
  (forall t n, R n (callback t n)) ->
  forall n, R n (report callback c texts n).
Proof.
  intros Hcb. unfold report.
  induction texts as [|s texts IH]; intros n; simpl; [apply R_refl|].
  eapply R_trans; [apply Hcb|apply IH].
Qed.

Lemma R_updates (w : World) (names : list string) (groups : list cg_id) :
  (forall c m, okE (CgUpdate c names m)) ->
  forall n, R n (updates w names groups n).2.
Proof.
  intros Hok. induction groups as [|c rest IH]; intros n; simpl; [apply R_refl|].
  change (robot_mode (N.emit (CgUpdate c names (robot_mode n)) n))
    with (robot_mode n).
  destruct (update w c names (robot_mode n)) as [ok texts].
  set (n1 := report invalid_joints_callback c texts _).
  specialize (IH n1). destruct (updates w names rest n1) as [oks n2]. simpl in *.
  last_by ltac:(exact IH). subst n1.
  last_by ltac:(apply R_report, R_invalid_joints_callback). apply R_emit, Hok.
Qed.

Lemma R_set_goals (w : World) (pointi : nat) (point : JointTrajectoryPoint)
    (groups : list cg_id) :
  (forall c, okE (CgSetGoal c point)) ->
  forall n, R n (set_goals w pointi point groups n).2.
Proof.
  intros Hok. induction groups as [|c rest IH]; intros n; simpl; [apply R_refl|].
  destruct (set_goal w pointi c point _) as [ok texts].
  set (n1 := report invalid_goal_callback c texts _).
  specialize (IH n1). destruct (set_goals w pointi point rest n1) as [oks n2].
  simpl in *.
  last_by ltac:(exact IH). subst n1.
  last_by ltac:(apply R_report, R_invalid_goal_callback). apply R_emit, Hok.
Qed.

Lemma R_init_executions (groups : list cg_id) :
  forall n, R n (init_executions groups n).
Proof.
  unfold init_executions.
  induction groups as [|c rest IH]; intros n; simpl; [apply R_refl|].
  last_by ltac:(apply IH). emits.
Qed.

Lemma R_start_point (n : Node) : R n (start_point n).
Proof.
  unfold start_point. last_by emits.
  last_by ltac:(apply R_init_executions). emits.
Qed.

Lemma R_update_executions (w : World) (pointi k : nat) (groups : list cg_id) :
  forall n, R n (update_executions w pointi k groups n).2.
Proof.
  induction groups as [|c rest IH]; intros n; simpl; [apply R_refl|].
  destruct (update_execution w pointi k c) as [ret texts].
  set (n1 := report success_callback c texts _).
  specialize (IH n1). destruct (update_executions w pointi k rest n1) as [rets n2].
  simpl in *.
  last_by ltac:(exact IH). subst n1.
  last_by ltac:(apply R_report, R_success_callback). emits.
Qed.

Lemma R_feedback_callback (stamp_now : Z) (names : list string)
    (point : JointTrajectoryPoint) (rets : list named_error) (n : Node) :
  R n (feedback_callback stamp_now names point rets n).2.
Proof.
  unfold feedback_callback.
  destruct (feedback_points _ _ _ _) as [ea|e]; cbn [snd set_stamp];
    [|apply R_refl].
  emits.
Qed.

(** The part of a poll iteration after the preemption check, up to the
    answers of [update_execution]. *)
Lemma R_poll_tail (w : World) (pointi k : nat) (n : Node)
    (rets : list named_error) (n1 : Node) :
  update_executions w pointi k command_groups
    (N.emit GetStatus (N.emit StopLockRelease n)) = (rets, n1) ->
  R n n1.
Proof.
  intros H.
  pose proof (R_update_executions w pointi k command_groups
                (N.emit GetStatus (N.emit StopLockRelease n))) as HR.
  rewrite H in HR. last_by ltac:(exact HR). last_by emits. emits.
Qed.

(** *** The poll loop, the point loop and [execute_cb]

    For a relation that, in the world [w], also holds across the release of
    the read lock, across what arrives between two polls, and across the
    preemption branch whenever that branch can be taken. *)

Section Full.

Variable w : World.
Hypothesis R_release_read : forall n, R n (N.release_read n).
Hypothesis R_interleave : forall pointi k n, R n (interleave w pointi k n).
Hypothesis R_preempt :
  forall n,
    stop_the_robot n || N.is_cancel_requested n = true -> R n (preempt n).2.

Lemma R_poll (names : list string) (pointi : nat)
    (point : JointTrajectoryPoint) (t0 : Z) (k : nat) (n : Node) :
  R n (poll w names pointi point t0 k n).2.
Proof.
  unfold poll. destruct (_ <? _); cbn [snd].
  { last_by ltac:(apply R_release_read). apply R_goal_tolerance_violated_callback. }
  set (n1 := N.emit StopLockAcquire (interleave w pointi k n)).
  assert (R n n1) as Hn1.
  { subst n1. last_by emits. apply R_interleave. }
  destruct (_ || _) eqn:Hstop; cbn [snd].
  { pose proof (R_preempt n1 Hstop) as Hpre.
    destruct (preempt n1) as [[[]|e] n2]; cbn [snd] in *; by eapply R_trans. }
  destruct (update_executions _ _ _ _ _) as [rets n2] eqn:Hupd.
  pose proof (R_poll_tail _ _ _ _ _ _ Hupd) as Hn2.
  assert (R n n2) as Hnn2 by (by eapply R_trans).
  destruct (existsb is_True rets); cbn [snd].
  { last_by ltac:(apply R_release_read). exact Hnn2. }
  pose proof (R_feedback_callback (feedback_stamp w pointi k) names point rets n2)
    as Hfb.
  destruct (feedback_callback _ _ _ _ _) as [[[]|e] n3]; cbn [snd] in *.
  - last_by emits. by eapply R_trans.
  - by eapply R_trans.
Qed.

Lemma R_poll_loop (fuel : nat) (names : list string)
    (pointi : nat) (point : JointTrajectoryPoint) (t0 : Z) :
  forall k gr n, R n (poll_loop fuel w names pointi point t0 k gr n).2.
Proof.
  induction fuel as [|fuel IH]; intros k gr n; cbn [poll_loop];
    destruct (all gr); cbn [snd]; try apply R_refl.
  pose proof (R_poll names pointi point t0 k n) as Hpoll.
  destruct (poll w names pointi point t0 k n) as [[gr1| | |] n1]; cbn [snd] in *;
    try exact Hpoll.
  last_by ltac:(apply IH). exact Hpoll.
Qed.

Lemma R_execute_points (fuel : nat) (names : list string)
    (pts : list JointTrajectoryPoint) :
  (forall c point, point ∈ pts -> okE (CgSetGoal c point)) ->
  forall pointi n, R n (execute_points fuel w names pointi pts n).2.
Proof.
  induction pts as [|point rest IH]; intros Hok pointi n.
  - cbn [execute_points snd]. last_by ltac:(apply R_release_read).
    apply R_success_callback.
  - rewrite ServerFacts.execute_points_cons.
    pose proof (R_set_goals w pointi point command_groups
                  (fun c => Hok c point (list_elem_of_here _ _))
                  (N.emit (Log Debug (TargetPoint pointi point)) n)) as Hset.
    destruct (set_goals _ _ _ _ _) as [valid n2]. cbn [snd] in Hset.
    assert (R n n2) as Hn2 by (last_by ltac:(exact Hset); emits).
    destruct (negb (all valid)); cbn [snd].
    { last_by ltac:(apply R_release_read). exact Hn2. }
    pose proof (R_poll_loop fuel names pointi point (now w pointi 0) 0
                  (map (goal_reached w pointi 0) command_groups) (start_point n2))
      as Hloop.
    assert (forall n3, R (start_point n2) n3 -> R n n3) as Hn3.
    { intros n3 H. last_by ltac:(exact H). last_by ltac:(apply R_start_point).
      exact Hn2. }
    destruct (poll_loop _ _ _ _ _ _ _ _ _) as [[gr| | |] n3]; cbn [snd] in *;
      try by apply Hn3.
    last_by ltac:(apply IH; intros c p Hp; apply Hok; by right).
    last_by emits. by apply Hn3.
Qed.

Lemma updates_cons (names : list string) (c : cg_id)
    (rest : list cg_id) (n : Node) :
  updates w names (c :: rest) n
  = let '(ok, texts) := update w c names (robot_mode n) in
    let '(oks, n2) :=
      updates w names rest
        (report invalid_joints_callback c texts
           (N.emit (CgUpdate c names (robot_mode n)) n)) in
    (ok :: oks, n2).
Proof. reflexivity. Qed.

(** From the first [update] call to the return of [execute_cb]. *)
Lemma R_execute_cb_position (fuel : nat) (t : JointTrajectory) (n : Node) :
  (forall c m, okE (CgUpdate c (joint_names t) m)) ->
  (forall c point, point ∈ points t -> okE (CgSetGoal c point)) ->
  R (N.emit (CgUpdate telescoping_cg (joint_names t) (robot_mode n)) (accepted t n))
    (execute_cb_position fuel w t n).2.
Proof.
  intros Hupd Hset. unfold execute_cb_position. fold (accepted t n).
  unfold command_groups at 1. rewrite updates_cons.
  change (robot_mode (accepted t n)) with (robot_mode n).
  set (n0 := N.emit (CgUpdate telescoping_cg (joint_names t) (robot_mode n))
               (accepted t n)).
  destruct (update w telescoping_cg (joint_names t) (robot_mode n)) as [ok texts].
  set (n1 := report invalid_joints_callback telescoping_cg texts n0).
  assert (R n0 n1) as Hn1 by apply R_report, R_invalid_joints_callback.
  pose proof (R_updates w (joint_names t)
                [lift_cg; mobile_base_cg; head_pan_cg; head_tilt_cg;
                 wrist_yaw_cg; gripper_cg] Hupd n1) as Hrest.
  destruct (updates _ _ _ n1) as [oks n2]. cbn [snd] in Hrest.
  assert (R n0 n2) as Hn2 by (by eapply R_trans).
  destruct (negb (all (ok :: oks))); cbn [snd].
  { last_by ltac:(apply R_release_read). exact Hn2. }
  destruct (_ <=? _); cbn [snd].
  { last_by ltac:(apply R_release_read).
    last_by ltac:(apply R_invalid_joints_callback). exact Hn2. }
  destruct (negb _); cbn [snd].
  { last_by ltac:(apply R_release_read).
    last_by ltac:(apply R_invalid_joints_callback). exact Hn2. }
  last_by ltac:(by apply R_execute_points). exact Hn2.
Qed.

End Full.

End Basic.

End Frame.

(** ** Traces only grow *)

Module Traces.

Import Server ServerSpec.

Section Grows.

Variable P : event -> Prop.

Lemma grows_refl (n : Node) : grows P n n.
Proof. exists []. split; [by rewrite app_nil_r|constructor]. Qed.

Lemma grows_trans (a b c : Node) : grows P a b -> grows P b c -> grows P a c.
Proof.
  intros (e1 & H1 & F1) (e2 & H2 & F2). exists (e1 ++ e2). split.
  - by rewrite H2, H1, app_assoc.
  - by apply Forall_app.
Qed.

Lemma grows_emit (e : event) (n : Node) : P e -> grows P n (N.emit e n).
Proof. intros He. exists [e]. split; [reflexivity|by constructor]. Qed.

Lemma grows_same_trace (n n' : Node) : trace n' = trace n -> grows P n n'.
Proof. intros H. exists []. split; [by rewrite app_nil_r|constructor]. Qed.

End Grows.

Lemma as_submitted_other (t : JointTrajectory) (e : event) :
  not_handoff e -> as_submitted t e.
Proof. by destruct e. Qed.

(** Every event from the first [update] call on hands over the goal as it
    was submitted. *)
Lemma grows_release_read (P : event -> Prop) (n : Node) :
  P ReleaseRead -> grows P n (N.release_read n).
Proof. intros HP. exists [ReleaseRead]. split; [reflexivity|by constructor]. Qed.

Lemma grows_interleave (P : event -> Prop) (w : World) (pointi k : nat)
    (n : Node) :
  (forall e, not_handoff e -> P e) -> grows P n (interleave w pointi k n).
Proof.
  intros HP. unfold interleave.
  assert (grows P n (if stop_requested w pointi k
                     then Driver.stop_the_robot_callback n else n)) as Hstop.
  { destruct (stop_requested w pointi k); [|apply grows_refl].
    eexists. split; [simpl; rewrite <- !app_assoc; reflexivity|].
    repeat constructor; by apply HP. }
  eapply grows_trans; [exact Hstop|].
  destruct (cancel_requested w pointi k); [|apply grows_refl].
  unfold N.request_cancel. destruct (status _); try apply grows_refl.
  by apply grows_same_trace.
Qed.

Lemma grows_preempt (P : event -> Prop) (n : Node) :
  (forall e, not_handoff e -> P e) -> grows P n (preempt n).2.
Proof.
  intros HP. exists [StopLockRelease]. split; [reflexivity|].
  repeat constructor; by apply HP.
Qed.

(** Every event from the first [update] call on hands over the goal as it
    was submitted. *)
Lemma execute_cb_position_as_submitted (fuel : nat) (w : World)
    (t : JointTrajectory) (n : Node) :
  grows (as_submitted t)
    (N.emit (CgUpdate telescoping_cg (joint_names t) (robot_mode n))
       (accepted t n))
    (execute_cb_position fuel w t n).2.
Proof.
  apply (Frame.R_execute_cb_position (grows (as_submitted t)) (as_submitted t)).
  - apply grows_refl.
  - apply grows_trans.
  - apply grows_emit.
  - intros r m. by apply grows_same_trace.
  - intros s m _. by apply grows_same_trace.
  - apply as_submitted_other.
  - intros m. by apply grows_release_read.
  - intros pointi k m. apply grows_interleave, as_submitted_other.
  - intros m _. apply grows_preempt, as_submitted_other.
  - reflexivity.
  - intros c point Hin. exact Hin.
Qed.

End Traces.

Section MergeOnPositionPath.

Import Server ServerSpec.

(** C2, as amended.  On the Position/Navigation path no arm-joint merge is
    run.  After the stop flag is reset, the read lock taken and the goal
    logged, the first protocol step is command-group validation on the joint
    names as submitted; every later [update] call receives those same names
    and every [set_goal] call a point of the submitted trajectory, so a goal
    naming the four segment joints reaches the command groups
    unconsolidated. *)
Theorem position_path_hands_goal_as_submitted (cfg : Config) (fuel : nat)
    (w : World) (hw : Components.Playback) (goal : Goal) (n : Node) :
  robot_mode n <> Some Manipulation ->
  exists rest,
    trace (execute_cb cfg fuel w hw goal n).2
    = trace n
        ++ [StopLockAcquire; StopFlagSet false; StopLockRelease; AcquireRead;
            Log Info (NewTrajectory (joint_names (trajectory goal)));
            CgUpdate telescoping_cg (joint_names (trajectory goal)) (robot_mode n)]
        ++ rest
    /\ Forall (as_submitted (trajectory goal)) rest.
Proof.
  intros Hmode. unfold execute_cb. destruct (decide _) as [|_]; [contradiction|].
  destruct (Traces.execute_cb_position_as_submitted fuel w (trajectory goal) n)
    as (rest & Htrace & Hrest).
  exists rest. split; [|exact Hrest]. rewrite Htrace. simpl.
  by rewrite <- !app_assoc.
Qed.

Lemma position_path_hands_goal_as_submitted_witness :
  exists rest,
    trace (execute_cb keep_all 3 arm_world (still_playback 0) arm_goal
             (idle_node (Some Position) true)).2
    = [StopLockAcquire; StopFlagSet false; StopLockRelease; AcquireRead;
       Log Info (NewTrajectory ["joint_arm_l0"; "joint_arm_l1"; "joint_arm_l2";
                                "joint_arm_l3"]);
       CgUpdate telescoping_cg ["joint_arm_l0"; "joint_arm_l1"; "joint_arm_l2";
                                "joint_arm_l3"] (Some Position)]
      ++ rest
    /\ Forall (as_submitted MergeSpec.scenario1) rest.
Proof.
  apply (position_path_hands_goal_as_submitted keep_all 3 arm_world
           (still_playback 0) arm_goal (idle_node (Some Position) true)).
  discriminate.
Defined.

(** C2 as stated fails: for the goal of Scenario 1 in position mode the
    telescoping group's [update] receives the four segment names, although
    [merge_arm_joints] would turn them into [wrist_extension]. *)
Lemma position_path_does_not_merge :
  ~ consolidated_before_update keep_all 3 arm_world (still_playback 0) arm_goal
      (idle_node (Some Position) false).
Proof.
  intros H.
  specialize (H {| joint_names := ["wrist_extension"];
                   points := [ {| positions := [MergeSpec.f0_4]; velocities := [];
                                  accelerations := []; time_from_start := 0 |} ] |}
                telescoping_cg
                ["joint_arm_l0"; "joint_arm_l1"; "joint_arm_l2"; "joint_arm_l3"]
                (Some Position)).
  assert (["joint_arm_l0"; "joint_arm_l1"; "joint_arm_l2"; "joint_arm_l3"]
          = ["wrist_extension"]) as Habs; [|discriminate Habs].
  apply H.
  - reflexivity.
  - apply (list_elem_of_lookup_2 _ 5). reflexivity.
Qed.

End MergeOnPositionPath.

(** ** The first poll iteration of a point *)

Module PollFacts.

Import Server ServerSpec ServerFacts Traces.

Lemma interleave_result (w : World) (pointi k : nat) (n : Node) :
  result (interleave w pointi k n) = result n.
Proof.
  unfold interleave, N.request_cancel.
  destruct (stop_requested w pointi k), (cancel_requested w pointi k);
    try reflexivity.
  - by destruct (status (Driver.stop_the_robot_callback n)).
  - by destruct (status n).
Qed.

Lemma interleave_read_holds (w : World) (pointi k : nat) (n : Node) :
  read_holds (interleave w pointi k n) = read_holds n.
Proof.
  unfold interleave, N.request_cancel.
  destruct (stop_requested w pointi k), (cancel_requested w pointi k);
    try reflexivity.
  - by destruct (status (Driver.stop_the_robot_callback n)).
  - by destruct (status n).
Qed.

(** Without a stop request, what arrives between two polls leaves no
    trace. *)
Lemma interleave_quiet (w : World) (pointi k : nat) (n : Node) :
  stop_the_robot (interleave w pointi k n) = false ->
  trace (interleave w pointi k n) = trace n.
Proof.
  unfold interleave, N.request_cancel.
  destruct (stop_requested w pointi k), (cancel_requested w pointi k);
    try reflexivity.
  - by destruct (status (Driver.stop_the_robot_callback n)).
  - discriminate.
  - by destruct (status n).
Qed.

Lemma report_success (P : event -> Prop) (c : cg_id) (texts : list string) :
  (forall l t, P (Log l t)) -> P Succeed ->
  forall n,
    grows P n (report success_callback c texts n)
    /\ read_holds (report success_callback c texts n) = read_holds n.
Proof.
  intros HL HS. unfold report.
  induction texts as [|s texts IH]; intros n; cbn [foldl].
  { split; [apply grows_refl|reflexivity]. }
  destruct (IH (success_callback (FromCommandGroup c s) n)) as [Hg Hr].
  split; [|by rewrite Hr].
  eapply grows_trans; [|exact Hg].
  exists [Log Info (FromCommandGroup c s); Succeed].
  split; [simpl; by rewrite <- !app_assoc|by repeat constructor].
Qed.

(** What the list comprehension over [update_execution] leaves behind. *)
Lemma update_executions_spec (P : event -> Prop) (w : World) (pointi k : nat)
    (groups : list cg_id) :
  (forall c, P (CgUpdateExecution c)) ->
  (forall l t, P (Log l t)) -> P Succeed ->
  forall n,
    (update_executions w pointi k groups n).1
    = map (fun c => (update_execution w pointi k c).1) groups
    /\ grows P n (update_executions w pointi k groups n).2
    /\ read_holds (update_executions w pointi k groups n).2 = read_holds n.
Proof.
  intros HU HL HS. induction groups as [|c rest IH]; intros n;
    cbn [update_executions map].
  { split; [reflexivity|]. split; [apply grows_refl|reflexivity]. }
  destruct (update_execution w pointi k c) as [ret texts].
  destruct (report_success P c texts HL HS (N.emit (CgUpdateExecution c) n))
    as [Hg1 Hr1].
  set (n1 := report success_callback c texts (N.emit (CgUpdateExecution c) n)) in *.
  specialize (IH n1).
  destruct (update_executions w pointi k rest n1) as [rets n2].
  cbn [fst snd] in *. destruct IH as (-> & Hg2 & Hr2).
  split; [reflexivity|]. split.
  - eapply grows_trans; [by apply (grows_emit P (CgUpdateExecution c))|].
    by eapply grows_trans.
  - by rewrite Hr2, Hr1.
Qed.

Lemma feedback_points_exn (d : gmap string float) (point : JointTrajectoryPoint)
    (names : list string) :
  forall i e,
    feedback_points d point i names = Py.Raise e ->
    e = Py.IndexError \/ exists name, e = Py.KeyError name /\ name ∈ names.
Proof.
  induction names as [|name rest IH]; intros i e; cbn [feedback_points];
    [discriminate|].
  destruct (d !! name) as [err|].
  2:{ intros [= <-]. right. exists name. split; [reflexivity|].
      apply elem_of_cons. by left. }
  destruct (positions point !! i) as [x|]; [|intros [= <-]; by left].
  destruct (feedback_points d point (S i) rest) as [tl|e'] eqn:Hrest;
    cbn [Py.bind]; [discriminate|].
  intros [= <-]. destruct (IH _ _ Hrest) as [->|(nm & -> & Hin)]; [by left|].
  right. exists nm. split; [reflexivity|]. apply elem_of_cons. by right.
Qed.

(** How [feedback_callback] ends: in the loop over the joints, or at the
    stamp once the debug line is logged. *)
Lemma feedback_callback_ends (stamp_now : Z) (names : list string)
    (point : JointTrajectoryPoint) (rets : list named_error) (n : Node) :
  exists e n',
    feedback_callback stamp_now names point rets n = (Py.Raise e, n')
    /\ ((e = Py.AssertionError /\ n' = N.emit (Log Debug SendingFeedback) n)
        \/ ((e = Py.IndexError
             \/ exists name, e = Py.KeyError name /\ name ∈ names)
            /\ n' = n)).
Proof.
  unfold feedback_callback.
  destruct (feedback_points _ _ _ _) as [ea|e] eqn:Hfp; cbn [set_stamp].
  - eexists _, _. split; [reflexivity|]. by left.
  - eexists _, _. split; [reflexivity|]. right. split; [|reflexivity].
    by eapply feedback_points_exn.
Qed.

End PollFacts.

Section PollClaims.

Import Server ServerSpec ServerFacts PollFacts.

(** C5 (the code departs from it).  Point [pointi] of a goal on the
    Position/Navigation path: if in the first poll iteration the point is
    not reached, the timeout has not passed, and the stop flag is up or a
    cancel was requested, the call does not end with the goal preempted.
    The first statement of the branch calls [set_preempted] on the action
    server, which an [rclpy] action server does not have: the call leaves
    [execute_cb] with [AttributeError].  Nothing is sent to the robot, but
    the goal is left in the state it had, the stop flag stays as it was,
    and the read hold is not given back. *)
Theorem preemption_branch_raises (fuel : nat) (w : World)
    (names : list string) (pointi : nat) (point : JointTrajectoryPoint)
    (rest : list JointTrajectoryPoint) (n n' : Node) :
  at_first_poll w pointi point n = Some n' ->
  not_reached w pointi ->
  in_time w pointi ->
  stop_the_robot (interleave w pointi 0 n')
    || N.is_cancel_requested (interleave w pointi 0 n') = true ->
  exists nf,
    execute_points (S fuel) w names pointi (point :: rest) n
    = (Raised (Py.AttributeError "set_preempted"), nf)
    /\ trace nf = trace (interleave w pointi 0 n')
                    ++ [StopLockAcquire; StopLockRelease]
    /\ status nf = status (interleave w pointi 0 n')
    /\ stop_the_robot nf = stop_the_robot (interleave w pointi 0 n')
    /\ read_holds nf = read_holds n'
    /\ result nf = result n'.
Proof.
  intros Hat Hgr Hintime Hstop.
  rewrite (execute_points_first_poll _ _ _ _ _ _ _ _ Hat Hgr).
  rewrite (poll_preempt _ _ _ _ _ _ _ Hintime Hstop).
  eexists. split; [reflexivity|]. split.
  { simpl. by rewrite <- !app_assoc. }
  split; [reflexivity|]. split; [reflexivity|]. split.
  - simpl. apply interleave_read_holds.
  - simpl. apply interleave_result.
Qed.

Lemma preemption_branch_raises_witness :
  exists nf,
    execute_points 1 (lift_world (Some 0%nat)) ["joint_lift"] 0
      [lift_point 1; lift_point 2]
      (N.acquire_read (idle_node (Some Position) false))
    = (Raised (Py.AttributeError "set_preempted"), nf)
    /\ status nf = Executing
    /\ stop_the_robot nf = true
    /\ read_holds nf = 1%nat.
Proof.
  edestruct (preemption_branch_raises 0 (lift_world (Some 0%nat)) ["joint_lift"]
               0 (lift_point 1) [lift_point 2]
               (N.acquire_read (idle_node (Some Position) false)))
    as (nf & Hrun & _ & Hstatus & Hflag & Hholds & _).
  - lazy. reflexivity.
  - reflexivity.
  - lazy. discriminate.
  - reflexivity.
  - exists nf. split; [exact Hrun|]. split; [exact Hstatus|].
    split; [exact Hflag|exact Hholds].
Defined.

(** C6 (the code departs from it).  Point [pointi] of a goal on the
    Position/Navigation path: a point that is not reached when its
    setpoints have been pushed is not polled until the 10 s timeout.  No
    poll iteration is ever followed by a second one, because
    [feedback_callback] raises each time it is called: it assigns the
    clock reading to the stamp of the feedback message without converting
    it.  So when the first iteration begins within the timeout, with no
    stop or cancel request and no command group returning [True], the call
    leaves [execute_cb] with an exception in that iteration: the goal is
    not aborted there, no feedback is published, no later point is tried,
    and the read hold is not given back. *)
Theorem unreached_point_raises (fuel : nat) (w : World) (names : list string)
    (pointi : nat) (point : JointTrajectoryPoint)
    (rest : list JointTrajectoryPoint) (n n' : Node) :
  at_first_poll w pointi point n = Some n' ->
  not_reached w pointi ->
  in_time w pointi ->
  stop_the_robot (interleave w pointi 0 n')
    || N.is_cancel_requested (interleave w pointi 0 n') = false ->
  no_fault w pointi 0 ->
  default_goal_timeout_duration = 10 * 1000000000
  /\ (forall t0 k m gr, (poll w names pointi point t0 k m).1 <> Continue gr)
  /\ exists e nf evs,
       execute_points (S fuel) w names pointi (point :: rest) n = (Raised e, nf)
       /\ (e = Py.AssertionError \/ e = Py.IndexError
           \/ exists name, e = Py.KeyError name /\ name ∈ names)
       /\ trace nf = trace n' ++ evs
       /\ Forall no_abort_no_feedback evs
       /\ read_holds nf = read_holds n'.
Proof.
  intros Hat Hgr Hintime Hstop Hfault. split; [reflexivity|].
  split; [intros t0 k m gr; apply poll_never_continues|].
  rewrite (execute_points_first_poll _ _ _ _ _ _ _ _ Hat Hgr).
  unfold poll. unfold in_time in Hintime.
  rewrite (proj2 (Z.ltb_ge _ _) Hintime).
  change (stop_the_robot (N.emit StopLockAcquire (interleave w pointi 0 n')))
    with (stop_the_robot (interleave w pointi 0 n')).
  change (N.is_cancel_requested (N.emit StopLockAcquire (interleave w pointi 0 n')))
    with (N.is_cancel_requested (interleave w pointi 0 n')).
  rewrite Hstop. apply orb_false_elim in Hstop as [Hflag _].
  set (n1 := N.emit GetStatus _).
  assert (trace n1 = trace n' ++ [StopLockAcquire; StopLockRelease; GetStatus]
          /\ read_holds n1 = read_holds n') as [Ht1 Hr1].
  { subst n1. cbn [N.emit N.with_trace trace read_holds].
    rewrite (interleave_quiet _ _ _ _ Hflag), interleave_read_holds.
    by rewrite <- !app_assoc. }
  destruct (update_executions_spec no_abort_no_feedback w pointi 0
              command_groups ltac:(done) ltac:(done) ltac:(done) n1)
    as (Hrets & (evs2 & Ht2 & HP2) & Hr2).
  destruct (update_executions w pointi 0 command_groups n1) as [rets n2].
  cbn [fst snd] in *. subst rets. unfold no_fault in Hfault. rewrite Hfault.
  destruct (feedback_callback_ends (feedback_stamp w pointi 0) names point
              (map (fun c => (update_execution w pointi 0 c).1) command_groups) n2)
    as (e & n3 & -> & [[-> ->]|[He ->]]).
  - eexists _, _, ([StopLockAcquire; StopLockRelease; GetStatus] ++ evs2
                   ++ [Log Debug SendingFeedback]).
    split; [reflexivity|]. split; [by left|]. split.
    { cbn [N.emit N.with_trace trace]. rewrite Ht2, Ht1.
      by rewrite <- !app_assoc. }
    split; [|cbn; by rewrite Hr2, Hr1].
    apply Forall_app. split; [by repeat constructor|].
    apply Forall_app. split; [exact HP2|by repeat constructor].
  - eexists _, _, ([StopLockAcquire; StopLockRelease; GetStatus] ++ evs2).
    split; [reflexivity|]. split; [by right|]. split.
    { rewrite Ht2, Ht1. by rewrite <- !app_assoc. }
    split; [|by rewrite Hr2, Hr1].
    apply Forall_app. split; [by repeat constructor|exact HP2].
Qed.

Lemma unreached_point_raises_witness :
  exists nf,
    execute_points 5 (lift_world None) ["joint_lift"] 0
      [lift_point 1; lift_point 2]
      (N.acquire_read (idle_node (Some Position) false))
    = (Raised Py.AssertionError, nf)
    /\ status nf = Executing
    /\ length (List.filter is_set_goal (trace nf)) = length command_groups
    /\ read_holds nf = 1%nat.
Proof.
  edestruct (unreached_point_raises 4 (lift_world None) ["joint_lift"] 0
               (lift_point 1) [lift_point 2]
               (N.acquire_read (idle_node (Some Position) false)))
    as (_ & _ & e & nf & evs & Hrun & _ & _ & _ & Hholds).
  - lazy. reflexivity.
  - reflexivity.
  - lazy. discriminate.
  - reflexivity.
  - reflexivity.
  - assert (nf = (execute_points 5 (lift_world None) ["joint_lift"] 0
                    [lift_point 1; lift_point 2]
                    (N.acquire_read (idle_node (Some Position) false))).2)
      as -> by (by rewrite Hrun).
    eexists. split; [vm_compute; reflexivity|].
    split; [reflexivity|]. split; [reflexivity|exact Hholds].
Defined.

End PollClaims.

(** ** What every step of the Manipulation path preserves *)

Module ManipulationFrame.

Import Components Manipulation ServerSpec.

Section Steps.

Variable R : Node -> Node -> Prop.
Hypothesis R_refl : forall n, R n n.
Hypothesis R_trans : forall a b c, R a b -> R b c -> R a c.
Hypothesis R_emit : forall e n, R n (N.emit e n).
Hypothesis R_set_status_done :
  forall s n, s = Aborted \/ s = Succeeded -> R n (N.set_status s n).
Hypothesis R_release_read : forall n, R n (N.release_read n).

Ltac last_by tac := eapply R_trans; [|tac].
Ltac emits := apply R_emit.

Lemma R_add_each_waypoint (c : component) (index : nat)
    (waypoints : list JointTrajectoryPoint) :
  forall n, R n (add_each_waypoint c waypoints index n).2.
Proof.
  induction waypoints as [|waypoint rest IH]; intros n; cbn [add_each_waypoint snd];
    [apply R_refl|].
  destruct (positions waypoint !! index); cbn [snd]; [|apply R_refl].
  last_by ltac:(apply IH). emits.
Qed.

Lemma R_add_waypoints (c : component) (waypoints : list JointTrajectoryPoint)
    (index : nat) (n : Node) :
  R n (add_waypoints c waypoints index n).2.
Proof.
  unfold add_waypoints.
  pose proof (R_add_each_waypoint c index waypoints
                (N.emit (ClearWaypoints (name c)) n)) as H.
  assert (R n (add_each_waypoint c waypoints index
                 (N.emit (ClearWaypoints (name c)) n)).2) as H'
    by (last_by ltac:(exact H); emits).
  destruct (add_each_waypoint _ _ _ _) as [[[]|e] n1]; cbn [snd] in *;
    [|exact H'].
  destruct c; cbn [snd]; try exact H'. last_by emits. exact H'.
Qed.

Lemma R_set_waypoints (hw : Playback) (index : nat) (joint : string)
    (pts : list JointTrajectoryPoint) (n : Node) :
  R n (set_waypoints hw index joint pts n).2.
Proof.
  unfold set_waypoints.
  destruct (get_trajectory_components !! joint) as [t_comp|]; [|apply R_refl].
  destruct pts as [|first others]; [apply R_refl|].
  destruct (setitem _ _ _) as [ps|e]; [|apply R_refl].
  match goal with
  | |- context [add_waypoints t_comp ?l index n] =>
      pose proof (R_add_waypoints t_comp l index n) as H;
      destruct (add_waypoints t_comp l index n) as [[[]|e] n1]
  end; exact H.
Qed.

Lemma R_set_all_waypoints (hw : Playback) (names : list string) :
  forall index pts n, R n (set_all_waypoints hw index names pts n).2.
Proof.
  induction names as [|joint rest IH]; intros index pts n;
    cbn [set_all_waypoints snd]; [apply R_refl|].
  pose proof (R_set_waypoints hw index joint pts n) as H.
  destruct (set_waypoints hw index joint pts n) as [[pts'|e] n1]; cbn [snd] in *;
    [|exact H].
  last_by ltac:(apply IH). exact H.
Qed.

Lemma R_feedback_loop (hw : Playback) (names : list string) (start_time : Z)
    (remaining : nat) :
  forall k n, R n (feedback_loop hw names start_time k remaining n).2.
Proof.
  induction remaining as [|remaining IH]; intros k n; cbn [feedback_loop snd].
  - emits.
  - destruct (feedback_positions _ _ _ _) as [[[a d] e]|e]; cbn [snd].
    + last_by ltac:(apply IH). do 2 last_by emits. emits.
    + emits.
Qed.

Lemma R_try_body (cfg : Config) (hw : Playback) (goal : Goal) (n : Node) :
  R n (try_body cfg hw goal n).2.
Proof.
  unfold try_body.
  destruct (Py.bind _ _) as [merged|e]; [|apply R_refl].
  set (n1 := N.emit _ n).
  pose proof (R_set_all_waypoints hw (joint_names merged) 0
                (map (ignore_fields cfg) (points merged)) n1) as Hset.
  assert (R n (set_all_waypoints hw 0 (joint_names merged)
                 (map (ignore_fields cfg) (points merged)) n1).2) as Hset'
    by (last_by ltac:(exact Hset); subst n1; emits).
  destruct (set_all_waypoints _ _ _ _ _) as [[[]|e] n2]; cbn [snd] in *;
    [|exact Hset'].
  pose proof (R_feedback_loop hw (joint_names merged) (clock hw 0)
                (executing_polls hw) 0 (N.emit StartTrajectory n2)) as Hloop.
  assert (R n (feedback_loop hw (joint_names merged) (clock hw 0) 0
                 (executing_polls hw) (N.emit StartTrajectory n2)).2) as Hloop'.
  { last_by ltac:(exact Hloop). last_by emits. exact Hset'. }
  destruct (feedback_loop _ _ _ _ _ _) as [[[]|e] n3]; cbn [snd] in *;
    [|exact Hloop'].
  unfold N.succeed. last_by emits.
  last_by ltac:(apply R_set_status_done; by right). last_by emits. exact Hloop'.
Qed.

Lemma R_execute_trajectory (cfg : Config) (hw : Playback) (goal : Goal)
    (n : Node) :
  R (started n) (execute_trajectory cfg hw goal n).2.
Proof.
  unfold execute_trajectory. fold (started n).
  pose proof (R_try_body cfg hw goal (started n)) as Hbody.
  destruct (try_body cfg hw goal (started n)) as [[r|e] n1]; cbn [snd] in *.
  - last_by ltac:(apply R_release_read). exact Hbody.
  - destruct (Py.is_FollowJointTrajectoryException e); cbn [snd].
    + last_by ltac:(apply R_release_read). unfold N.abort. last_by emits.
      last_by ltac:(apply R_set_status_done; by left). last_by emits. exact Hbody.
    + last_by ltac:(apply R_release_read). unfold N.abort. last_by emits.
      last_by ltac:(apply R_set_status_done; by left). do 2 last_by emits.
      exact Hbody.
Qed.

End Steps.

End ManipulationFrame.

(** ** The stop flag across goals *)

Module StopFlag.

Import Server ServerSpec.

Lemma keeps_settled_fields (n n' : Node) :
  stop_the_robot n' = stop_the_robot n ->
  status n' = status n \/ status n' = Aborted \/ status n' = Succeeded ->
  keeps_settled n n'.
Proof.
  intros Hstop Hstatus (H1 & H2). unfold settled. rewrite Hstop.
  split; [exact H1|].
  destruct Hstatus as [->|[->| ->]]; done.
Qed.

Lemma interleave_undisturbed (w : World) (pointi k : nat) (n : Node) :
  undisturbed w -> interleave w pointi k n = n.
Proof.
  intros Hw. destruct (Hw pointi k) as [Hs Hc]. unfold interleave.
  by rewrite Hs, Hc.
Qed.

Lemma settled_not_preempting (n : Node) :
  settled n -> stop_the_robot n || N.is_cancel_requested n = false.
Proof.
  intros (H1 & H2). rewrite H1. unfold N.is_cancel_requested.
  by destruct (status n).
Qed.

Lemma execute_cb_position_settled (fuel : nat) (w : World)
    (t : JointTrajectory) (n : Node) :
  undisturbed w ->
  status n = Executing ->
  settled (execute_cb_position fuel w t n).2.
Proof.
  intros Hw Hstatus.
  refine (Frame.R_execute_cb_position keeps_settled (fun _ => True)
            _ _ _ _ _ _ w _ _ _ fuel t n _ _ _).
  - intros m Hm. exact Hm.
  - intros a b c Hab Hbc Ha. apply Hbc, Hab, Ha.
  - intros e m _. by apply keeps_settled_fields; [|left].
  - intros r m. by apply keeps_settled_fields; [|left].
  - intros s m [-> | ->]; apply keeps_settled_fields; auto.
  - done.
  - intros m. by apply keeps_settled_fields; [|left].
  - intros pointi k m. rewrite interleave_undisturbed by exact Hw. by intros H.
  - intros m Hpre Hm. apply settled_not_preempting in Hm. congruence.
  - done.
  - done.
  - unfold settled. simpl. rewrite Hstatus. done.
Qed.

Lemma execute_trajectory_settled (cfg : Config) (hw : Components.Playback)
    (goal : Goal) (n : Node) :
  status n = Executing ->
  settled (Manipulation.execute_trajectory cfg hw goal n).2.
Proof.
  intros Hstatus.
  refine (ManipulationFrame.R_execute_trajectory keeps_settled
            _ _ _ _ _ cfg hw goal n _).
  - intros m Hm. exact Hm.
  - intros a b c Hab Hbc Ha. apply Hbc, Hab, Ha.
  - intros e m. by apply keeps_settled_fields; [|left].
  - intros s m [-> | ->]; apply keeps_settled_fields; auto.
  - intros m. by apply keeps_settled_fields; [|left].
  - unfold settled. simpl. rewrite Hstatus. done.
Qed.

(** The events with which [execute_cb] begins once a goal is accepted: the
    stop lock is taken and the flag lowered before anything else. *)
Lemma execute_cb_begins (cfg : Config) (fuel : nat) (w : World)
    (hw : Components.Playback) (goal : Goal) (n : Node) :
  exists rest,
    trace (execute_cb cfg fuel w hw goal n).2
    = trace n ++ StopLockAcquire :: StopFlagSet false
        :: (if decide (robot_mode n = Some Manipulation)
            then [AcquireRead; StopLockRelease]
            else [StopLockRelease; AcquireRead]) ++ rest.
Proof.
  unfold execute_cb. destruct (decide _) as [_|_].
  - destruct (ManipulationFrame.R_execute_trajectory (grows (fun _ => True))
                (Traces.grows_refl _) (Traces.grows_trans _)
                (fun e m => Traces.grows_emit _ e m I)
                (fun s m _ => Traces.grows_same_trace _ m _ eq_refl)
                (fun m => Traces.grows_release_read _ m I)
                cfg hw goal n) as (rest & Htrace & _).
    eexists. rewrite Htrace. simpl. rewrite <- !app_assoc. reflexivity.
  - destruct (Traces.execute_cb_position_as_submitted fuel w (trajectory goal) n)
      as (rest & Htrace & _).
    eexists. rewrite Htrace. simpl. rewrite <- !app_assoc. reflexivity.
Qed.

End StopFlag.

Section StopFlagClaims.

Import Server ServerSpec ServerFacts StopFlag.

(** C10 (the code departs from it).  Whatever the stop flag was when a goal
    is accepted, on either path: [execute_cb] begins by taking the stop lock
    and setting the flag to [False], before any other step, and the read
    lock is taken and the stop lock released next; if no stop or cancel
    request arrives during the run, the call ends with the flag down, so a
    flag raised earlier does not reach the new goal.  But the preemption
    branch of the poll loop does not lower the flag: when the stop service
    has raised it, the branch leaves [execute_cb] with [AttributeError] at
    its first statement, the call of [set_preempted], before the assignment
    that would lower the flag, and the flag is still up after the call. *)
Theorem stop_flag_kept_by_preemption_branch (cfg : Config) (fuel : nat)
    (w : World) (hw : Components.Playback) (goal : Goal) (n : Node) :
  (exists rest,
     trace (execute_cb cfg fuel w hw goal n).2
     = trace n ++ StopLockAcquire :: StopFlagSet false
         :: (if decide (robot_mode n = Some Manipulation)
             then [AcquireRead; StopLockRelease]
             else [StopLockRelease; AcquireRead]) ++ rest)
  /\ (undisturbed w -> status n = Executing ->
      stop_the_robot (execute_cb cfg fuel w hw goal n).2 = false)
  /\ (forall names pointi point rest n',
        at_first_poll w pointi point n = Some n' ->
        not_reached w pointi ->
        in_time w pointi ->
        stop_the_robot (interleave w pointi 0 n') = true ->
        (execute_points (S fuel) w names pointi (point :: rest) n).1
        = Raised (Py.AttributeError "set_preempted")
        /\ stop_the_robot
             (execute_points (S fuel) w names pointi (point :: rest) n).2
           = true).
Proof.
  split; [apply execute_cb_begins|]. split.
  - intros Hw Hstatus.
    assert (settled (execute_cb cfg fuel w hw goal n).2) as (H1 & _); [|done].
    unfold execute_cb. destruct (decide _).
    + by apply execute_trajectory_settled.
    + by apply execute_cb_position_settled.
  - intros names pointi point rest n' Hat Hgr Hintime Hstop.
    rewrite (execute_points_first_poll _ _ _ _ _ _ _ _ Hat Hgr).
    rewrite poll_preempt; [|exact Hintime|by rewrite Hstop].
    split; [reflexivity|exact Hstop].
Qed.

Lemma stop_flag_kept_by_preemption_branch_witness :
  stop_the_robot
    (execute_cb keep_all 3 arm_world (still_playback 0) arm_goal
       (idle_node (Some Position) true)).2 = false
  /\ (execute_points 1 (lift_world (Some 0%nat)) ["joint_lift"] 0
        [lift_point 1; lift_point 2] (idle_node (Some Position) false)).1
     = Raised (Py.AttributeError "set_preempted")
  /\ stop_the_robot
       (execute_points 1 (lift_world (Some 0%nat)) ["joint_lift"] 0
          [lift_point 1; lift_point 2] (idle_node (Some Position) false)).2
     = true.
Proof.
  pose proof (stop_flag_kept_by_preemption_branch keep_all 3 arm_world
                (still_playback 0) arm_goal (idle_node (Some Position) true))
    as (_ & Hclear & _).
  pose proof (stop_flag_kept_by_preemption_branch keep_all 0
                (lift_world (Some 0%nat)) (still_playback 0) lift_goal
                (idle_node (Some Position) false))
    as (_ & _ & Hpreempt).
  split.
  - apply Hclear; [|reflexivity]. intros pointi k. split; reflexivity.
  - eapply (Hpreempt ["joint_lift"] 0%nat (lift_point 1) [lift_point 2]).
    + lazy. reflexivity.
    + reflexivity.
    + lazy. discriminate.
    + reflexivity.
Defined.

End StopFlagClaims.

(** ** The read holds of the robot-mode lock *)

Module Balance.

Import Server ServerSpec.




















(** The periodic task releases the hold on its one return path. *)
Lemma publish_state_balanced (broadcast_odom_tf : bool) (timeout now : Z)
    (n nf : Node) :
  Driver.command_mobile_base_velocity_and_publish_state broadcast_odom_tf
    timeout now n = (Py.Ok tt, nf) ->
  read_holds nf = read_holds n.
Proof.
  unfold Driver.command_mobile_base_velocity_and_publish_state.
  set (n1 := if bool_decide (robot_mode (N.acquire_read n) = Some Navigation)
             then _ else _).
  assert (read_holds n1 = S (read_holds n)) as Hn1.
  { subst n1. destruct (bool_decide _); [|reflexivity].
    by destruct (_ <? _). }
  destruct (_ && _); [discriminate|].
  assert (forall topics m, read_holds (Driver.publish_each topics m)
                           = read_holds m) as Hpub.
  { unfold Driver.publish_each.
    induction topics as [|topic topics IH]; intros m; simpl; [reflexivity|].
    by rewrite IH. }
  destruct (robot_mode (Driver.publish_each _ _)); [|discriminate].
  intros H. injection H as <-.
  cbn [N.release_read N.emit N.with_trace N.set_read_holds read_holds].
  rewrite !Hpub. simpl. by rewrite Hn1.
Qed.

(** The velocity callback in navigation mode releases its hold. *)
Lemma velocity_callback_balanced_in_navigation (now : Z) (twist : Twist)
    (n : Node) :
  robot_mode n = Some Navigation ->
  read_holds (Driver.set_mobile_base_velocity_callback now twist n) = read_holds n.
Proof.
  intros Hmode. unfold Driver.set_mobile_base_velocity_callback.
  change (robot_mode (N.acquire_read n)) with (robot_mode n). rewrite Hmode.
  by rewrite bool_decide_eq_true_2.
Qed.

End Balance.

(** ** The Manipulation path on concrete and general goals *)

Module ManipulationFacts.

Import Components Manipulation.

(** No component class has an attribute [get_desired_position_at]. *)
Lemma no_get_desired_position_at (hw : Playback) (c : component) (dt : Z) :
  call_with_dt hw c "get_desired_position_at" dt
  = Py.Raise (Py.AttributeError "get_desired_position_at").
Proof. by destruct c. Qed.

Lemma feedback_positions_raises (hw : Playback) (k : nat) (dt : Z)
    (joint : string) (rest : list string) :
  is_Some (get_trajectory_components !! joint) ->
  feedback_positions hw k dt (joint :: rest)
  = Py.Raise (Py.AttributeError "get_desired_position_at").
Proof.
  intros [c Hc]. cbn [feedback_positions]. rewrite Hc.
  by rewrite no_get_desired_position_at.
Qed.

Lemma check_names_head (joint : string) (rest : list string) :
  check_names (joint :: rest) = Py.Ok tt ->
  is_Some (get_trajectory_components !! joint).
Proof.
  cbn [check_names]. destruct (get_trajectory_components !! joint); [eauto|discriminate].
Qed.

(** A point of the wrong length makes the position check raise while it
    formats its message. *)
Lemma check_positions_mismatch (goal : Goal) (pts : list JointTrajectoryPoint) :
  Exists (fun pt => length (positions pt) <> length (joint_names (trajectory goal)))
    pts ->
  check_positions goal pts = Py.Raise (Py.AttributeError "joint_names").
Proof.
  induction pts as [|pt rest IH]; intros Hex; [by inversion Hex|].
  cbn [check_positions].
  destruct (Nat.eqb_spec (length (positions pt))
              (length (joint_names (trajectory goal)))) as [Heq|Hne];
    [|reflexivity].
  cbn [negb]. apply IH. by inversion Hex.
Qed.

(** What the set-up of the waypoints can raise is not one of the
    trajectory exceptions. *)
Lemma add_each_waypoint_exn (c : component) (index : nat)
    (waypoints : list JointTrajectoryPoint) :
  forall n e n',
    add_each_waypoint c waypoints index n = (Py.Raise e, n') ->
    Py.is_FollowJointTrajectoryException e = false.
Proof.
  induction waypoints as [|waypoint rest IH]; intros n e n';
    cbn [add_each_waypoint]; [discriminate|].
  destruct (positions waypoint !! index); [apply IH|].
  intros H. by injection H as <- _.
Qed.

Lemma set_waypoints_exn (hw : Playback) (index : nat) (joint : string)
    (pts : list JointTrajectoryPoint) (n : Node) (e : Py.exn) (n' : Node) :
  set_waypoints hw index joint pts n = (Py.Raise e, n') ->
  Py.is_FollowJointTrajectoryException e = false.
Proof.
  unfold set_waypoints.
  destruct (get_trajectory_components !! joint) as [t_comp|];
    [|intros H; by injection H as <- _].
  destruct pts as [|first others]; [intros H; by injection H as <- _|].
  unfold setitem. destruct (_ <? _)%nat; [|intros H; by injection H as <- _].
  unfold add_waypoints.
  destruct (add_each_waypoint _ _ _ _) as [[[]|e'] n1] eqn:Hadd.
  - destruct t_comp; discriminate.
  - intros H. injection H as <- _. by eapply add_each_waypoint_exn.
Qed.

Lemma set_all_waypoints_exn (hw : Playback) (names : list string) :
  forall index pts n e n',
    set_all_waypoints hw index names pts n = (Py.Raise e, n') ->
    Py.is_FollowJointTrajectoryException e = false.
Proof.
  induction names as [|joint rest IH]; intros index pts n e n';
    cbn [set_all_waypoints]; [discriminate|].
  destruct (set_waypoints hw index joint pts n) as [[pts'|e'] n1] eqn:Hset.
  - apply IH.
  - intros H. injection H as <- _. by eapply set_waypoints_exn.
Qed.

End ManipulationFacts.

Section ManipulationClaims.

Import Components Manipulation ManipulationFacts ServerSpec.

(** C1 (the code departs from it).  For every goal that passes validation
    and names at least one joint, once playback is started and reports that
    it is executing at the first poll, the poll iteration raises
    [AttributeError]: the loop calls [get_desired_position_at], the
    component classes define [get_desired_position].  The call ends with
    the unknown-error code on an aborted goal.  On the lift goal below,
    playback is started once and stopped again, and no feedback is
    published. *)
Theorem manipulation_poll_raises (cfg : Config) (hw : Playback) (goal : Goal)
    (n : Node) (merged : JointTrajectory) :
  check_positions goal (points (trajectory goal)) = Py.Ok tt ->
  Merge.merge_arm_joints (trajectory goal) = Py.Ok merged ->
  check_names (joint_names merged) = Py.Ok tt ->
  joint_names merged <> [] ->
  (0 < executing_polls hw)%nat ->
  (exists e nf,
     execute_trajectory cfg hw goal n
     = (Returned {| error_code := UNKNOWN_ERROR; error_string := OfException e |}, nf)
     /\ status nf = Aborted)
  /\ trace (execute_trajectory keep_all (still_playback 1) lift_goal
              (idle_node (Some Manipulation) false)).2
     = [StopLockAcquire; StopFlagSet false; AcquireRead; StopLockRelease;
        Log Info (NewGoal 2 1);
        ClearWaypoints "joint_lift";
        AddWaypoint "joint_lift" 0 0 None None;
        AddWaypoint "joint_lift" 0 2 None None;
        StartTrajectory; IsTrajectoryExecuting; StopTrajectory;
        Log Error (OfException (Py.AttributeError "get_desired_position_at"));
        Abort; ReleaseRead].
Proof.
  intros Hpos Hmerge Hnames Hne Hpolls. split; [|reflexivity].
  unfold execute_trajectory.
  set (n0 := N.emit StopLockRelease _).
  unfold try_body. rewrite Hpos, Hmerge. cbn [Py.bind]. rewrite Hnames.
  cbn [Py.bind].
  destruct (set_all_waypoints _ _ _ _ _) as [[[]|e] n1] eqn:Hset.
  - destruct (joint_names merged) as [|joint rest] eqn:Hjn; [done|].
    destruct (executing_polls hw) as [|polls]; [lia|].
    cbn [feedback_loop].
    rewrite feedback_positions_raises by (by eapply check_names_head).
    cbn [Py.is_FollowJointTrajectoryException]. by eexists _, _.
  - rewrite (set_all_waypoints_exn _ _ _ _ _ _ _ Hset). by eexists _, _.
Qed.

Lemma manipulation_poll_raises_witness :
  exists e nf,
    execute_trajectory keep_all (still_playback 1) lift_goal
      (idle_node (Some Manipulation) false)
    = (Returned {| error_code := UNKNOWN_ERROR; error_string := OfException e |}, nf)
    /\ status nf = Aborted.
Proof.
  refine (proj1 (manipulation_poll_raises keep_all (still_playback 1) lift_goal
                   (idle_node (Some Manipulation) false) (trajectory lift_goal)
                   _ _ _ _ _)).
  - reflexivity.
  - reflexivity.
  - reflexivity.
  - discriminate.
  - simpl. lia.
Defined.

(** C4 (the code departs from it).  A goal with a point whose number of
    positions differs from the number of joint names is not rejected with
    INVALID_GOAL: formatting the message of [InvalidGoalException] reads
    [goal.joint_names], which raises [AttributeError], so the generic
    handler stops the trajectory on the robot, aborts the goal and reports
    the unknown-error code. *)
Theorem length_mismatch_reports_unknown_error (cfg : Config) (hw : Playback)
    (goal : Goal) (n : Node) :
  Exists (fun pt => length (positions pt) <> length (joint_names (trajectory goal)))
    (points (trajectory goal)) ->
  exists nf,
    execute_trajectory cfg hw goal n
    = (Returned {| error_code := UNKNOWN_ERROR;
                   error_string := OfException (Py.AttributeError "joint_names") |},
       nf)
    /\ trace nf
       = trace n ++ [StopLockAcquire; StopFlagSet false; AcquireRead; StopLockRelease;
                     StopTrajectory;
                     Log Error (OfException (Py.AttributeError "joint_names"));
                     Abort; ReleaseRead]
    /\ is_hardware_call StopTrajectory = true
    /\ UNKNOWN_ERROR <> INVALID_GOAL.
Proof.
  intros Hex. unfold execute_trajectory, try_body.
  rewrite (check_positions_mismatch goal _ Hex). cbn [Py.bind].
  cbn [Py.is_FollowJointTrajectoryException]. eexists. split; [reflexivity|].
  split; [|split; [reflexivity|discriminate]].
  simpl. by rewrite <- !app_assoc.
Qed.

Lemma length_mismatch_reports_unknown_error_witness :
  exists nf,
    execute_trajectory keep_all (still_playback 0)
      {| trajectory := {| joint_names := ["joint_lift"];
                          points := [ {| positions := []; velocities := [];
                                         accelerations := []; time_from_start := 0 |} ] |} |}
      (idle_node (Some Manipulation) false)
    = (Returned {| error_code := -100;
                   error_string := OfException (Py.AttributeError "joint_names") |},
       nf)
    /\ StopTrajectory ∈ trace nf.
Proof.
  edestruct (length_mismatch_reports_unknown_error keep_all (still_playback 0)
               {| trajectory := {| joint_names := ["joint_lift"];
                                   points := [ {| positions := []; velocities := [];
                                                  accelerations := [];
                                                  time_from_start := 0 |} ] |} |}
               (idle_node (Some Manipulation) false))
    as (nf & Hrun & Htrace & _).
  - apply Exists_cons_hd. simpl. discriminate.
  - exists nf. split; [exact Hrun|]. rewrite Htrace.
    apply (list_elem_of_lookup_2 _ 4). reflexivity.
Defined.

End ManipulationClaims.

Section LockClaims.

(** C3 (the code departs from it).  [set_mobile_base_velocity_callback]
    takes a read hold and, outside navigation mode, returns after logging
    the error without releasing it: the hold count is one higher after the
    call, and a mode change that follows waits for the write lock without
    end. *)
Theorem velocity_callback_leaks_read_hold (now : Z) (twist : Twist) (n : Node) :
  Forall
    (fun m =>
       let n0 := N.set_robot_mode m n in
       let nf := Driver.set_mobile_base_velocity_callback now twist n0 in
       read_holds nf = S (read_holds n0)
       /\ trace nf = trace n0 ++ [AcquireRead; Log Error (NotInNavigationMode m)]
       /\ forall new_mode code_to_run,
            Driver.change_mode new_mode code_to_run nf = None)
    [None; Some Position; Some Manipulation; Some Calibration].
Proof.
  repeat constructor; simpl; by rewrite <- ?app_assoc.
Qed.

End LockClaims.

(** * Further properties of the code *)

(** ** [merge_arm_joints]: shape of the result, errors, repeated merging *)

Module MergeMore.

Import Merge MergeSpec MergeFacts CoverageSpec.

Lemma wrist_extension_not_arm : is_arm_joint wrist_extension = false.
Proof. reflexivity. Qed.

Lemma filter_not_arm_joint (names : list string) :
  Forall (fun name => is_arm_joint name = false) (List.filter not_arm_joint names).
Proof.
  apply Forall_forall. intros name Hin. apply list_elem_of_In in Hin.
  apply filter_In in Hin as [_ H]. unfold not_arm_joint in H.
  by destruct (is_arm_joint name).
Qed.

Lemma filter_split_length (names : list string) :
  (length (List.filter not_arm_joint names) + segments_present names
   = length names)%nat.
Proof.
  unfold segments_present, not_arm_joint.
  induction names as [|name rest IH]; [reflexivity|]. simpl.
  destruct (is_arm_joint name); simpl; lia.
Qed.

(** One joint index of the third loop over all the points. *)
Lemma gather_raises_IndexError (arm : list nat) (index : nat)
    (pv : JointTrajectoryPoint * arm_values) (e : Py.exn) :
  gather arm index pv = Py.Raise e -> e = Py.IndexError.
Proof.
  destruct pv as [pt vals]. unfold gather.
  destruct (positions pt !! index); [|by intros [= <-]].
  by destruct (bool_decide _).
Qed.

Lemma gather_short (arm : list nat) (index : nat)
    (pv : JointTrajectoryPoint * arm_values) :
  (length (positions pv.1) <= index)%nat ->
  gather arm index pv = Py.Raise Py.IndexError.
Proof.
  destruct pv as [pt vals]. simpl. intros H. unfold gather.
  by rewrite (lookup_ge_None_2 _ _ H).
Qed.

Lemma mapM_gather_short (arm : list nat) (index : nat)
    (st : list (JointTrajectoryPoint * arm_values)) :
  Exists (fun pv => (length (positions pv.1) <= index)%nat) st ->
  Py.mapM (gather arm index) st = Py.Raise Py.IndexError.
Proof.
  induction st as [|pv st IH]; intros Hex; [by inversion Hex|].
  cbn [Py.mapM]. destruct (gather arm index pv) as [pv'|e] eqn:Hg.
  - cbn [Py.bind]. rewrite IH; [reflexivity|].
    inversion Hex as [? ? Hshort|]; subst; [|done].
    by rewrite gather_short in Hg.
  - cbn [Py.bind]. by rewrite (gather_raises_IndexError _ _ _ _ Hg).
Qed.

Lemma gather_all_short (arm : list nat) (names : list string) :
  forall (index : nat) (st : list (JointTrajectoryPoint * arm_values)),
    (forall k name, names !! k = Some name ->
        bool_decide ((index + k)%nat ∈ arm) = is_arm_joint name) ->
    Forall (fun pv => (index <= length (positions pv.1))%nat) st ->
    Exists (fun pv => (length (positions pv.1) < index + length names)%nat) st ->
    gather_all arm index names st = Py.Raise Py.IndexError.
Proof.
  induction names as [|name rest IH]; intros index st Harm Hge Hshort.
  - exfalso. apply Exists_exists in Hshort as (pv & Hin & Hlt).
    rewrite Forall_forall in Hge. specialize (Hge pv Hin). simpl in Hlt. lia.
  - cbn [gather_all].
    destruct (decide (Exists (fun pv => (length (positions pv.1) <= index)%nat) st))
      as [Hnow|Hlater].
    + by rewrite mapM_gather_short.
    + apply not_Exists_Forall in Hlater; [|intros pv; apply _].
      rewrite (mapM_ok _ (fun pv => (pv.1, gathered index [name] pv.1 pv.2))).
      * cbn [Py.bind]. apply IH.
        -- intros k name' Hk.
           replace (S index + k)%nat with (index + S k)%nat by lia. by apply Harm.
        -- apply Forall_fmap. eapply Forall_impl; [exact Hlater|].
           intros pv Hpv. unfold compose. simpl in *. lia.
        -- apply Exists_fmap. eapply Exists_impl; [exact Hshort|].
           intros pv Hpv. unfold compose. simpl in *. lia.
      * eapply Forall_impl; [exact Hlater|]. intros [pt vals] Hpv. simpl in *.
        apply gather_one; [|lia].
        specialize (Harm 0%nat name eq_refl). by rewrite Nat.add_0_r in Harm.
Qed.

(** What [merge_arm_joints] does, case by case. *)
Lemma merge_arm_joints_cases (t : JointTrajectory) :
  merge_arm_joints t
  = if (segments_present (joint_names t) =? 0)%nat then Py.Ok t
    else if Py.list_in wrist_extension (joint_names t) then
      Py.Raise Py.InvalidJointException
    else if negb (segments_present (joint_names t) =? 4)%nat then
      Py.Raise Py.InvalidJointException
    else if bool_decide (enough_positions t) then Py.Ok (merged_trajectory t)
    else Py.Raise Py.IndexError.
Proof.
  unfold merge_arm_joints.
  pose proof (split_names_fst_length 0 (joint_names t)) as Hlen.
  pose proof (split_names_snd 0 (joint_names t)) as Hsnd.
  pose proof (split_names_fst_elem 0 (joint_names t)) as Helem.
  destruct (split_names 0 (joint_names t)) as [arm new_names].
  cbn [fst snd] in *. rewrite <- Hlen.
  destruct arm as [|i0 arm']; [reflexivity|].
  change (length (i0 :: arm') =? 0)%nat with false. cbv iota.
  destruct (Py.list_in _ _); [reflexivity|].
  destruct (negb _); [reflexivity|].
  case_bool_decide as Henough.
  - rewrite gather_all_ok.
    + simpl. unfold merged_trajectory. rewrite Hsnd, !map_map. do 2 f_equal.
      apply map_ext. intros pt. simpl. apply add_arm_values_gathered.
    + intros k name Hk. by apply Helem.
    + apply Forall_fmap. eapply Forall_impl; [exact Henough|].
      intros pt Hpt. unfold compose. simpl in *. lia.
  - rewrite gather_all_short; [reflexivity| | |].
    + intros k name Hk. by apply Helem.
    + apply Forall_fmap, Forall_forall. intros pt _. unfold compose. simpl. lia.
    + apply Exists_fmap. apply not_Forall_Exists in Henough; [|intros pt; apply _].
      eapply Exists_impl; [exact Henough|]. intros pt Hpt. unfold compose.
      simpl in *. lia.
Qed.

Lemma segments_present_0 (names : list string) :
  segments_present names = 0%nat
  <-> Forall (fun name => is_arm_joint name = false) names.
Proof.
  rewrite <- arm_indexes_nil. unfold arm_indexes.
  rewrite <- (split_names_fst_length 0 names).
  by destruct (split_names 0 names).1.
Qed.

(** A successful merge either passed the trajectory through or built the
    merged one. *)
Lemma merge_Ok_inv (t t' : JointTrajectory) :
  merge_arm_joints t = Py.Ok t' ->
  (segments_present (joint_names t) = 0%nat /\ t' = t)
  \/ (segments_present (joint_names t) = 4%nat
      /\ (wrist_extension ∉ joint_names t)
      /\ enough_positions t
      /\ t' = merged_trajectory t).
Proof.
  rewrite merge_arm_joints_cases.
  destruct (Nat.eqb_spec (segments_present (joint_names t)) 0) as [H0|H0].
  { intros [= <-]. by left. }
  unfold Py.list_in. case_bool_decide as Hw; [discriminate|].
  destruct (Nat.eqb_spec (segments_present (joint_names t)) 4) as [H4|H4];
    [|discriminate].
  cbn [negb]. case_bool_decide as He; [|discriminate].
  intros [= <-]. by right.
Qed.

Lemma values_of_full (keep : string -> bool) (names : list string)
    (l : list float) :
  (length names <= length l)%nat ->
  length (values_of keep 0 names l) = length (List.filter keep names).
Proof. intros H. by apply values_of_length. Qed.

Lemma merge_Ok_no_segment (t t' : JointTrajectory) :
  merge_arm_joints t = Py.Ok t' ->
  Forall (fun name => is_arm_joint name = false) (joint_names t').
Proof.
  intros [[H0 ->]|(H4 & Hw & He & ->)]%merge_Ok_inv.
  - by apply segments_present_0.
  - unfold merged_trajectory. cbn [joint_names].
    apply Forall_app. split; [apply filter_not_arm_joint|]. repeat constructor.
Qed.

Lemma merge_Ok_well_formed (t t' : JointTrajectory) :
  merge_arm_joints t = Py.Ok t' -> well_formed t -> well_formed t'.
Proof.
  intros [[H0 ->]|(H4 & Hw & He & ->)]%merge_Ok_inv; [done|].
  intros Hwf. unfold well_formed, merged_trajectory in *. cbn [points joint_names].
  apply Forall_fmap. eapply Forall_impl; [exact Hwf|].
  intros pt Hpt. unfold compose. simpl in *.
  rewrite !length_app, values_of_full by lia. reflexivity.
Qed.

End MergeMore.

Section MergeCoverage.

Import Merge MergeSpec MergeFacts CoverageSpec MergeMore.

(** X1.  Whatever [merge_arm_joints] returns has as many points as its
    argument, with the same [time_from_start] each, names no segment joint,
    and has one position per joint name at every point if its argument
    had. *)
Theorem merge_keeps_shape (t t' : JointTrajectory) :
  merge_arm_joints t = Py.Ok t' ->
  length (points t') = length (points t)
  /\ map time_from_start (points t') = map time_from_start (points t)
  /\ Forall (fun name => is_arm_joint name = false) (joint_names t')
  /\ (well_formed t -> well_formed t').
Proof.
  intros Hmerge.
  pose proof (merge_Ok_no_segment t t' Hmerge) as Hnames.
  pose proof (merge_Ok_well_formed t t' Hmerge) as Hwf.
  apply merge_Ok_inv in Hmerge as [[H0 ->]|(H4 & Hw & He & ->)]; [done|].
  unfold merged_trajectory in *. cbn [points joint_names] in *.
  split; [by rewrite length_map|]. split; [by rewrite map_map|]. by split.
Qed.

Lemma merge_keeps_shape_witness :
  length (points (merged_trajectory scenario_mixed)) = 1%nat
  /\ well_formed (merged_trajectory scenario_mixed).
Proof.
  destruct (merge_keeps_shape scenario_mixed (merged_trajectory scenario_mixed))
    as (Hlen & _ & _ & Hwf).
  - reflexivity.
  - split; [exact Hlen|]. apply Hwf. repeat constructor.
Defined.

(** X2.  Merging is idempotent: a trajectory returned by
    [merge_arm_joints] is returned unchanged when merged again. *)
Theorem merge_twice (t t' : JointTrajectory) :
  merge_arm_joints t = Py.Ok t' -> merge_arm_joints t' = Py.Ok t'.
Proof.
  intros H. apply merge_Ok_no_segment in H as Hnames.
  apply segments_present_0 in Hnames.
  rewrite merge_arm_joints_cases, Hnames. reflexivity.
Qed.

Lemma merge_twice_witness :
  merge_arm_joints (merged_trajectory scenario_mixed)
  = Py.Ok (merged_trajectory scenario_mixed).
Proof. apply (merge_twice scenario_mixed). reflexivity. Defined.

(** X3.  [merge_arm_joints] raises nothing but [InvalidJointException] and
    [IndexError], and it raises [IndexError] exactly when the trajectory
    names four segment joints, does not name [wrist_extension], and has a
    point with fewer positions than joint names. *)
Theorem merge_raises (t : JointTrajectory) :
  (forall e, merge_arm_joints t = Py.Raise e ->
     e = Py.InvalidJointException \/ e = Py.IndexError)
  /\ (merge_arm_joints t = Py.Raise Py.IndexError
      <-> segments_present (joint_names t) = 4%nat
          /\ (wrist_extension ∉ joint_names t)
          /\ short_point t).
Proof.
  rewrite merge_arm_joints_cases. unfold Py.list_in, short_point, enough_positions.
  destruct (Nat.eqb_spec (segments_present (joint_names t)) 0) as [H0|H0].
  { split; [discriminate|]. split; [discriminate|]. intros (H4 & _). lia. }
  case_bool_decide as Hw.
  { split; [intros e [= <-]; by left|]. split; [discriminate|]. by intros (_ & ? & _). }
  destruct (Nat.eqb_spec (segments_present (joint_names t)) 4) as [H4|H4]; cbn [negb].
  2:{ split; [intros e [= <-]; by left|]. split; [discriminate|]. by intros (? & _). }
  case_bool_decide as He.
  - split; [discriminate|]. split; [discriminate|]. intros (_ & _ & Hshort).
    apply Exists_exists in Hshort as (pt & Hin & Hlt).
    rewrite Forall_forall in He. specialize (He pt Hin). lia.
  - split; [intros e [= <-]; by right|]. split; [|done]. intros _.
    split; [done|]. split; [done|].
    apply not_Forall_Exists in He; [|intros pt; apply _].
    eapply Exists_impl; [exact He|]. intros pt Hpt. simpl in *. lia.
Qed.

(** X4.  When [merge_arm_joints] merges, the result has three joint names
    fewer than the argument and [wrist_extension] is the last of them. *)
Theorem merge_joint_count (t t' : JointTrajectory) :
  segments_present (joint_names t) <> 0%nat ->
  merge_arm_joints t = Py.Ok t' ->
  (length (joint_names t') + 3 = length (joint_names t))%nat
  /\ last (joint_names t') = Some wrist_extension.
Proof.
  intros Hseg [[H0 _]|(H4 & _ & _ & ->)]%merge_Ok_inv; [done|].
  unfold merged_trajectory. cbn [joint_names].
  pose proof (filter_split_length (joint_names t)) as Hsplit.
  rewrite length_app, last_snoc. simpl. split; [lia|done].
Qed.

Lemma merge_joint_count_witness :
  (length (joint_names (merged_trajectory scenario_mixed)) + 3
   = length (joint_names scenario_mixed))%nat.
Proof.
  refine (proj1 (merge_joint_count scenario_mixed _ _ _)); [discriminate|reflexivity].
Defined.

(** X5.  When [merge_arm_joints] merges a point that supplies a velocity
    for every joint, the merged point again has one velocity per joint
    name, the last being the mean [(0.0 + v0 + v1 + v2 + v3) / 4] of the
    four segment velocities; the same holds for accelerations. *)
Theorem merge_full_velocities (t t' : JointTrajectory) (i : nat)
    (pt : JointTrajectoryPoint) :
  segments_present (joint_names t) <> 0%nat ->
  merge_arm_joints t = Py.Ok t' ->
  points t !! i = Some pt ->
  exists pt',
    points t' !! i = Some pt'
    /\ ((length (joint_names t) <= length (velocities pt))%nat ->
        length (velocities pt') = length (joint_names t')
        /\ exists v0 v1 v2 v3 : float,
             values_of is_arm_joint 0 (joint_names t) (velocities pt)
             = [v0; v1; v2; v3]
             /\ last (velocities pt') = Some ((0 + v0 + v1 + v2 + v3) / 4)%float)
    /\ ((length (joint_names t) <= length (accelerations pt))%nat ->
        length (accelerations pt') = length (joint_names t')
        /\ exists a0 a1 a2 a3 : float,
             values_of is_arm_joint 0 (joint_names t) (accelerations pt)
             = [a0; a1; a2; a3]
             /\ last (accelerations pt') = Some ((0 + a0 + a1 + a2 + a3) / 4)%float).
Proof.
  intros Hseg [[H0 _]|(H4 & _ & _ & ->)]%merge_Ok_inv Hpt; [done|].
  exists (merged_point (joint_names t) pt). unfold merged_trajectory.
  cbn [points joint_names]. split; [by rewrite list_lookup_fmap, Hpt|].
  assert (forall l : list float,
            (length (joint_names t) <= length l)%nat ->
            length (values_of not_arm_joint 0 (joint_names t) l
                      ++ mean_if_any (values_of is_arm_joint 0 (joint_names t) l))
            = length (List.filter not_arm_joint (joint_names t) ++ [wrist_extension])
            /\ exists x0 x1 x2 x3 : float,
                 values_of is_arm_joint 0 (joint_names t) l = [x0; x1; x2; x3]
                 /\ last (values_of not_arm_joint 0 (joint_names t) l
                            ++ mean_if_any (values_of is_arm_joint 0 (joint_names t) l))
                    = Some ((0 + x0 + x1 + x2 + x3) / 4)%float) as Hfield.
  { intros l Hl.
    pose proof (values_of_full is_arm_joint (joint_names t) l Hl) as Harm.
    fold (segments_present (joint_names t)) in Harm. rewrite H4 in Harm.
    rewrite !length_app, (values_of_full not_arm_joint) by exact Hl.
    destruct (values_of is_arm_joint 0 (joint_names t) l)
      as [|x0 [|x1 [|x2 [|x3 [|]]]]]; try discriminate Harm.
    split; [reflexivity|]. exists x0, x1, x2, x3. split; [reflexivity|].
    unfold mean_if_any. by rewrite last_snoc. }
  split; intros Hl; apply (Hfield _ Hl).
Qed.

Lemma merge_full_velocities_witness :
  exists pt',
    points (merged_trajectory scenario_full) !! 0%nat = Some pt'
    /\ velocities pt' = [7; 2]%float.
Proof.
  destruct (merge_full_velocities scenario_full (merged_trajectory scenario_full) 0
              {| positions := [1; 5; 2; 3; 4]%float;
                 velocities := [1; 7; 3; 2; 2]%float;
                 accelerations := []; time_from_start := 3 |})
    as (pt' & Hpt' & _).
  - discriminate.
  - reflexivity.
  - reflexivity.
  - exists pt'. split; [exact Hpt'|]. injection Hpt' as <-. reflexivity.
Defined.

End MergeCoverage.

(** ** [execute_cb] on the Position/Navigation path: validation, rejection,
    goals already reached *)

Module ServerMore.

Import Server ServerSpec ServerFacts CoverageSpec Traces.

(** *** The error callbacks *)

Lemma error_callback_inactive (code : Z) (t : text) (n : Node) :
  N.is_active n = false -> error_callback code t n = n.
Proof.
  unfold error_callback, N.is_active, N.is_cancel_requested.
  by destruct (status n).
Qed.

Lemma error_callback_active (code : Z) (t : text) (n : Node) :
  N.is_active n = true ->
  error_callback code t n
  = N.abort (N.set_result {| error_code := code; error_string := t |}
               (N.emit (Log Error t) n)).
Proof. unfold error_callback. by intros ->. Qed.

Lemma error_callback_twice (code code' : Z) (t t' : text) (n : Node) :
  error_callback code' t' (error_callback code t n) = error_callback code t n.
Proof.
  destruct (N.is_active n) eqn:Hactive.
  - rewrite (error_callback_active code t n Hactive).
    by apply error_callback_inactive.
  - rewrite (error_callback_inactive code t n Hactive).
    by apply error_callback_inactive.
Qed.

Lemma report_error_callback (code : Z) (c : cg_id) (texts : list string)
    (n : Node) :
  report (error_callback code) c texts n
  = match texts with
    | [] => n
    | s :: _ => error_callback code (FromCommandGroup c s) n
    end.
Proof.
  destruct texts as [|s texts]; [reflexivity|]. unfold report. cbn [foldl].
  induction texts as [|s' texts IH]; [reflexivity|]. cbn [foldl].
  by rewrite error_callback_twice.
Qed.

Lemma error_callback_fields (code : Z) (t : text) (n : Node) :
  robot_mode (error_callback code t n) = robot_mode n
  /\ fail_out_of_range_goal (error_callback code t n) = fail_out_of_range_goal n
  /\ read_holds (error_callback code t n) = read_holds n.
Proof. unfold error_callback. by destruct (_ || _). Qed.

Lemma grows_error_callback (P : event -> Prop) (code : Z) (t : text) (n : Node) :
  P (Log Error t) -> P Abort -> grows P n (error_callback code t n).
Proof.
  intros HL HA. unfold error_callback. destruct (_ || _); [|apply grows_refl].
  exists [Log Error t; Abort]. split; [simpl; by rewrite <- app_assoc|].
  by repeat constructor.
Qed.

(** State of the goal after a group's report: untouched without a text or
    on a goal that is no longer active, aborted with the first text
    otherwise. *)
Lemma report_state (code : Z) (c : cg_id) (texts : list string) (n : Node) :
  let n' := report (error_callback code) c texts n in
  match texts with
  | s :: _ =>
      if N.is_active n then
        status n' = Aborted
        /\ result n' = {| error_code := code;
                          error_string := FromCommandGroup c s |}
      else status n' = status n /\ result n' = result n
  | [] => status n' = status n /\ result n' = result n
  end.
Proof.
  cbv zeta. rewrite report_error_callback. destruct texts as [|s _]; [done|].
  destruct (N.is_active n) eqn:Hactive.
  - by rewrite error_callback_active.
  - by rewrite error_callback_inactive.
Qed.

(** *** [update] on all groups *)

(** What the list comprehension over [update] leaves behind. *)
Lemma updates_spec (P : event -> Prop) (w : World) (names : list string)
    (groups : list cg_id) :
  (forall c m, P (CgUpdate c names m)) ->
  (forall l t, P (Log l t)) -> P Abort ->
  forall n,
    let answers := map (fun c => (c, update w c names (robot_mode n))) groups in
    let n' := (updates w names groups n).2 in
    (updates w names groups n).1 = map (fun a => a.2.1) answers
    /\ grows P n n'
    /\ robot_mode n' = robot_mode n
    /\ fail_out_of_range_goal n' = fail_out_of_range_goal n
    /\ read_holds n' = read_holds n
    /\ match first_text answers with
       | Some (c, s) =>
           if N.is_active n then
             status n' = Aborted
             /\ result n' = {| error_code := INVALID_JOINTS;
                               error_string := FromCommandGroup c s |}
           else status n' = status n /\ result n' = result n
       | None => status n' = status n /\ result n' = result n
       end.
Proof.
  intros HPu HPl HPa. induction groups as [|c rest IH]; intros n; cbv zeta.
  { cbn. split; [done|]. split; [apply grows_refl|done]. }
  cbn [updates map first_text].
  change (robot_mode (N.emit (CgUpdate c names (robot_mode n)) n))
    with (robot_mode n).
  destruct (update w c names (robot_mode n)) as [ok texts] eqn:Hupd.
  change invalid_joints_callback with (error_callback INVALID_JOINTS).
  set (n0 := N.emit (CgUpdate c names (robot_mode n)) n).
  set (n1 := report (error_callback INVALID_JOINTS) c texts n0).
  pose proof (report_state INVALID_JOINTS c texts n0) as Hstate.
  cbv zeta in Hstate. fold n1 in Hstate.
  assert (grows P n n1 /\ robot_mode n1 = robot_mode n
          /\ fail_out_of_range_goal n1 = fail_out_of_range_goal n
          /\ read_holds n1 = read_holds n) as (Hg1 & Hm1 & Hf1 & Hr1).
  { subst n1. rewrite report_error_callback. destruct texts as [|s texts'].
    - split; [by apply grows_emit|done].
    - split.
      + apply grows_trans with n0; [by apply grows_emit|].
        by apply grows_error_callback.
      + exact (error_callback_fields _ _ n0). }
  specialize (IH n1). cbv zeta in IH. rewrite Hm1 in IH.
  destruct (updates w names rest n1) as [oks n2].
  destruct IH as (Hoks & Hg2 & Hm2 & Hf2 & Hr2 & Hst2). cbn [fst snd] in *.
  split; [by rewrite Hoks|]. split; [by eapply grows_trans|].
  split; [congruence|]. split; [congruence|]. split; [congruence|].
  change (N.is_active n0) with (N.is_active n) in Hstate.
  change (status n0) with (status n) in Hstate.
  change (result n0) with (result n) in Hstate.
  destruct texts as [|s texts'].
  - destruct Hstate as [Hs Hr].
    assert (N.is_active n1 = N.is_active n) as Ha by (unfold N.is_active; by rewrite Hs).
    rewrite Ha, Hs, Hr in Hst2. exact Hst2.
  - destruct (N.is_active n) eqn:Hactive.
    + destruct Hstate as [Hs Hr].
      assert (N.is_active n1 = false) as Ha by (unfold N.is_active; by rewrite Hs).
      rewrite Ha in Hst2.
      assert (status n2 = status n1 /\ result n2 = result n1) as [Hs2 Hr2'].
      { by destruct (first_text _) as [[c' s']|]. }
      by rewrite Hs2, Hr2', Hs, Hr.
    + destruct Hstate as [Hs Hr].
      assert (N.is_active n1 = false) as Ha
          by (unfold N.is_active in *; by rewrite Hs).
      rewrite Ha in Hst2.
      assert (status n2 = status n1 /\ result n2 = result n1) as [Hs2 Hr2'].
      { by destruct (first_text _) as [[c' s']|]. }
      by rewrite Hs2, Hr2', Hs, Hr.
Qed.

(** *** [set_goal] on all groups *)

Lemma set_goals_spec (P : event -> Prop) (w : World) (pointi : nat)
    (point : JointTrajectoryPoint) (groups : list cg_id) :
  (forall c, P (CgSetGoal c point)) ->
  (forall l t, P (Log l t)) -> P Abort ->
  forall n,
    let answers :=
      map (fun c => (c, set_goal w pointi c point (fail_out_of_range_goal n)))
        groups in
    let n' := (set_goals w pointi point groups n).2 in
    (set_goals w pointi point groups n).1 = map (fun a => a.2.1) answers
    /\ (exists evs, trace n' = trace n ++ evs /\ Forall P evs
                    /\ length (List.filter is_set_goal evs) = length groups)
    /\ robot_mode n' = robot_mode n
    /\ fail_out_of_range_goal n' = fail_out_of_range_goal n
    /\ read_holds n' = read_holds n
    /\ match first_text answers with
       | Some (c, s) =>
           if N.is_active n then
             status n' = Aborted
             /\ result n' = {| error_code := INVALID_GOAL;
                               error_string := FromCommandGroup c s |}
           else status n' = status n /\ result n' = result n
       | None => status n' = status n /\ result n' = result n
       end.
Proof.
  intros HPu HPl HPa. induction groups as [|c rest IH]; intros n; cbv zeta.
  { cbn. split; [done|]. split; [|done].
    exists []. by rewrite app_nil_r. }
  cbn [set_goals map first_text].
  change (fail_out_of_range_goal (N.emit (CgSetGoal c point) n))
    with (fail_out_of_range_goal n).
  destruct (set_goal w pointi c point (fail_out_of_range_goal n))
    as [ok texts] eqn:Hset.
  change invalid_goal_callback with (error_callback INVALID_GOAL).
  set (n0 := N.emit (CgSetGoal c point) n).
  set (n1 := report (error_callback INVALID_GOAL) c texts n0).
  pose proof (report_state INVALID_GOAL c texts n0) as Hstate.
  cbv zeta in Hstate. fold n1 in Hstate.
  assert ((exists evs, trace n1 = trace n ++ CgSetGoal c point :: evs
                       /\ Forall P evs /\ List.filter is_set_goal evs = [])
          /\ robot_mode n1 = robot_mode n
          /\ fail_out_of_range_goal n1 = fail_out_of_range_goal n
          /\ read_holds n1 = read_holds n) as (Hg1 & Hm1 & Hf1 & Hr1).
  { subst n1. rewrite report_error_callback. destruct texts as [|s texts'].
    - split; [|done]. exists []. by repeat split.
    - split; [|exact (error_callback_fields _ _ n0)].
      unfold error_callback. destruct (_ || _).
      + exists [Log Error (FromCommandGroup c s); Abort]. split.
        * simpl. by rewrite <- !app_assoc.
        * split; [by repeat constructor|reflexivity].
      + exists []. by repeat split. }
  specialize (IH n1). cbv zeta in IH. rewrite Hf1 in IH.
  destruct (set_goals w pointi point rest n1) as [oks n2].
  destruct IH as (Hoks & Hg2 & Hm2 & Hf2 & Hr2 & Hst2). cbn [fst snd] in *.
  split; [by rewrite Hoks|]. split.
  { destruct Hg1 as (e1 & Ht1 & HP1 & Hc1). destruct Hg2 as (e2 & Ht2 & HP2 & Hc2).
    exists (CgSetGoal c point :: e1 ++ e2). split.
    - rewrite Ht2, Ht1. by rewrite <- app_assoc.
    - split; [constructor; [apply HPu|by apply Forall_app]|].
      cbn [List.filter is_set_goal length]. rewrite List.filter_app, Hc1.
      simpl. by rewrite Hc2. }
  split; [congruence|]. split; [congruence|]. split; [congruence|].
  change (N.is_active n0) with (N.is_active n) in Hstate.
  change (status n0) with (status n) in Hstate.
  change (result n0) with (result n) in Hstate.
  destruct texts as [|s texts'].
  - destruct Hstate as [Hs Hr].
    assert (N.is_active n1 = N.is_active n) as Ha by (unfold N.is_active; by rewrite Hs).
    rewrite Ha, Hs, Hr in Hst2. exact Hst2.
  - destruct (N.is_active n) eqn:Hactive.
    + destruct Hstate as [Hs Hr].
      assert (N.is_active n1 = false) as Ha by (unfold N.is_active; by rewrite Hs).
      rewrite Ha in Hst2.
      assert (status n2 = status n1 /\ result n2 = result n1) as [Hs2 Hr2'].
      { by destruct (first_text _) as [[c' s']|]. }
      by rewrite Hs2, Hr2', Hs, Hr.
    + destruct Hstate as [Hs Hr].
      assert (N.is_active n1 = false) as Ha
          by (unfold N.is_active in *; by rewrite Hs).
      rewrite Ha in Hst2.
      assert (status n2 = status n1 /\ result n2 = result n1) as [Hs2 Hr2'].
      { by destruct (first_text _) as [[c' s']|]. }
      by rewrite Hs2, Hr2', Hs, Hr.
Qed.

(** The events of [execute_cb] before the joint names are validated. *)
Lemma prologue_grows (P : event -> Prop) (names : list string) (n : Node) :
  P StopLockAcquire -> P (StopFlagSet false) -> P StopLockRelease ->
  P AcquireRead -> (forall l t, P (Log l t)) ->
  grows P n
    (N.emit (Log Info (NewTrajectory names))
       (N.acquire_read
          (N.emit StopLockRelease
             (N.set_stop_the_robot false (N.emit StopLockAcquire n))))).
Proof.
  intros H1 H2 H3 H4 H5.
  exists [StopLockAcquire; StopFlagSet false; StopLockRelease; AcquireRead;
          Log Info (NewTrajectory names)].
  split; [simpl; by rewrite <- !app_assoc|]. by repeat constructor.
Qed.

End ServerMore.

Section ServerCoverage.

Import Server ServerSpec ServerFacts CoverageSpec Traces ServerMore.

(** X6. Of the three error callbacks of the action server (invalid joints,
    invalid goal, tolerance violated) the first one to run decides: whatever
    the state of the goal, a second error callback with any text changes
    nothing, neither the result nor the goal handle nor the log. *)
Theorem first_error_wins (cb1 cb2 : text -> Node -> Node) (t1 t2 : text)
    (n : Node) :
  cb1 ∈ error_callbacks -> cb2 ∈ error_callbacks ->
  cb2 t2 (cb1 t1 n) = cb1 t1 n.
Proof.
  unfold error_callbacks. intros H1 H2.
  assert (forall cb, cb ∈ error_callbacks -> exists code, cb = error_callback code)
    as Hshape.
  { intros cb Hcb. unfold error_callbacks in Hcb.
    apply elem_of_cons in Hcb as [->|Hcb]; [by exists INVALID_JOINTS|].
    apply elem_of_cons in Hcb as [->|Hcb]; [by exists INVALID_GOAL|].
    apply elem_of_cons in Hcb as [->|Hcb]; [by exists GOAL_TOLERANCE_VIOLATED|].
    by apply elem_of_nil in Hcb. }
  destruct (Hshape cb1 H1) as [code1 ->]. destruct (Hshape cb2 H2) as [code2 ->].
  apply error_callback_twice.
Qed.

Lemma first_error_wins_witness :
  let n := idle_node (Some Position) false in
  goal_tolerance_violated_callback (TimeExceeded (lift_point 1))
    (invalid_goal_callback NoText n)
  = invalid_goal_callback NoText n
  /\ error_code (result (invalid_goal_callback NoText n)) = INVALID_GOAL.
Proof.
  split; [|reflexivity].
  apply (first_error_wins invalid_goal_callback goal_tolerance_violated_callback).
  - unfold error_callbacks. apply elem_of_cons. right. apply elem_of_cons. by left.
  - unfold error_callbacks. apply elem_of_cons. right. apply elem_of_cons. right.
    apply elem_of_cons. by left.
Defined.

Lemma before_motion_calm :
  (forall l t, before_motion (Log l t)) /\ before_motion Abort
  /\ before_motion ReleaseRead.
Proof. by repeat split. Qed.

Lemma error_callback_result (code : Z) (t : text) (n : Node) :
  N.is_active n = true ->
  error_code (result (error_callback code t n)) = code
  /\ status (error_callback code t n) = Aborted.
Proof. intros H. by rewrite error_callback_active. Qed.

(** X7. A goal whose joint names fail the validation of [execute_cb] (a
    command group rejects them, or the groups together do not claim every
    name) is answered without any [set_goal] and without any call on the
    robot, and the read hold is given back.  On an active goal the result is
    INVALID_JOINTS and the goal is aborted, unless a group rejected the
    names without calling the callback: then the result and the goal
    handle are left as they were. *)
Theorem joint_validation_failure (fuel : nat) (w : World) (t : JointTrajectory)
    (n : Node) :
  let answers := update_answers w (joint_names t) (robot_mode n) in
  validated w t (robot_mode n) = false ->
  exists nf,
    execute_cb_position fuel w t n = (Returned (result nf), nf)
    /\ grows before_motion n nf
    /\ read_holds nf = read_holds n
    /\ (N.is_active n = true ->
        accepted_by_all answers = true \/ is_Some (first_text answers) ->
        error_code (result nf) = INVALID_JOINTS /\ status nf = Aborted)
    /\ (accepted_by_all answers = false -> first_text answers = None ->
        result nf = result n /\ status nf = status n).
Proof.
  cbv zeta. unfold validated, accepted_by_all, update_answers. intros Hval.
  destruct before_motion_calm as (HL & HA & HR).
  unfold execute_cb_position.
  set (n0 := N.emit (Log Info (NewTrajectory (joint_names t))) _).
  assert (grows before_motion n n0) as Hg0 by (by apply prologue_grows).
  pose proof (updates_spec before_motion w (joint_names t) command_groups
                ltac:(done) HL HA n0) as Hupd.
  cbv zeta in Hupd.
  change (robot_mode n0) with (robot_mode n) in Hupd.
  change (read_holds n0) with (S (read_holds n)) in Hupd.
  change (N.is_active n0) with (N.is_active n) in Hupd.
  change (status n0) with (status n) in Hupd.
  change (result n0) with (result n) in Hupd.
  destruct (updates w (joint_names t) command_groups n0) as [upds n1].
  cbn [fst snd] in Hupd. destruct Hupd as (-> & Hg1 & _ & _ & Hr1 & Hst).
  set (answers := map (fun c => (c, update w c (joint_names t) (robot_mode n)))
                    command_groups) in *.
  assert (forall code text,
             N.is_active n = true ->
             error_code (result (error_callback code text n1)) = INVALID_JOINTS
             /\ status (error_callback code text n1) = Aborted
             \/ first_text answers = None
                /\ error_code (result (error_callback code text n1)) = code
                /\ status (error_callback code text n1) = Aborted) as Hcb.
  { intros code text Hactive. rewrite Hactive in Hst.
    destruct (first_text answers) as [[c s]|].
    - left. destruct Hst as [Hs Hres].
      rewrite error_callback_inactive; [by rewrite Hres|].
      unfold N.is_active. by rewrite Hs.
    - right. split; [done|]. apply error_callback_result.
      destruct Hst as [Hs _]. unfold N.is_active in *. by rewrite Hs. }
  assert (forall code text,
             grows before_motion n (N.release_read (error_callback code text n1))
             /\ read_holds (N.release_read (error_callback code text n1))
                = read_holds n) as Hend.
  { intros code text. split.
    - apply grows_trans with n0; [done|]. apply grows_trans with n1; [done|].
      apply grows_trans with (error_callback code text n1).
      + by apply grows_error_callback.
      + by apply grows_release_read.
    - cbn [N.release_read N.emit N.with_trace read_holds N.set_read_holds].
      destruct (error_callback_fields code text n1) as (_ & _ & ->).
      by rewrite Hr1. }
  destruct (all (map (fun a => a.2.1) answers)) eqn:Hall; cbn [negb].
  - cbn [andb] in Hval.
    change invalid_joints_callback with (error_callback INVALID_JOINTS).
    destruct (num_valid_points w <=? 0) eqn:Hle.
    + eexists. split; [reflexivity|]. destruct (Hend INVALID_JOINTS
        (NoValidJointNames (joint_names t))) as [Hg Hr].
      split; [exact Hg|]. split; [exact Hr|]. split; [|done].
      intros Hactive _.
      destruct (Hcb INVALID_JOINTS (NoValidJointNames (joint_names t)) Hactive)
        as [H|(_ & H)]; exact H.
    + assert ((0 <? num_valid_points w) = true) as Hpos by lia.
      rewrite Hpos in Hval. cbn [andb] in Hval. rewrite Hval. cbn [negb].
      eexists. split; [reflexivity|].
      destruct (Hend INVALID_JOINTS
                  (OnlySomeValid (num_valid_points w) (length (joint_names t))
                     (joint_names t))) as [Hg Hr].
      split; [exact Hg|]. split; [exact Hr|]. split; [|done].
      intros Hactive _.
      destruct (Hcb INVALID_JOINTS
                  (OnlySomeValid (num_valid_points w) (length (joint_names t))
                     (joint_names t)) Hactive) as [H|(_ & H)]; exact H.
  - eexists. split; [reflexivity|]. split.
    { apply grows_trans with n0; [done|]. apply grows_trans with n1; [done|].
      by apply grows_release_read. }
    split; [cbn; by rewrite Hr1|]. split.
    + intros Hactive [?|[cs Hcs]]; [done|]. rewrite Hcs, Hactive in Hst.
      destruct cs as [c s]. destruct Hst as [Hs Hres]. cbn. by rewrite Hres.
    + intros _ Hnone. rewrite Hnone in Hst. destruct Hst as [Hs Hres]. by split.
Qed.

Lemma joint_validation_failure_witness :
  let n := idle_node (Some Position) false in
  exists nf,
    execute_cb_position 1 (lift_world None) lift_and_unknown n
    = (Returned (result nf), nf)
    /\ error_code (result nf) = INVALID_JOINTS /\ status nf = Aborted
    /\ read_holds nf = 0%nat.
Proof.
  cbv zeta.
  destruct (joint_validation_failure 1 (lift_world None) lift_and_unknown
              (idle_node (Some Position) false) eq_refl)
    as (nf & Hrun & _ & Hr & Hcode & _).
  exists nf. split; [exact Hrun|].
  destruct Hcode as [Hc Hs]; [reflexivity|left; reflexivity|].
  split; [exact Hc|]. split; [exact Hs|exact Hr].
Defined.

Lemma filter_none {A : Type} (f : A -> bool) (l : list A) :
  Forall (fun x => f x = false) l -> List.filter f l = [].
Proof.
  induction 1 as [|x l Hx _ IH]; [reflexivity|]. cbn. by rewrite Hx.
Qed.

(** X8. When a command group refuses the goal of a trajectory point,
    [execute_cb] returns at that point: its [set_goal] calls are the only
    ones made (no later point is tried), nothing is sent to the robot, and
    the read hold is given back.  On an active goal the result is
    INVALID_GOAL with the first text a group reported and the goal is
    aborted; if no group reported anything the result and the goal handle
    are left as they were. *)
Theorem point_rejected (fuel : nat) (w : World) (names : list string)
    (pointi : nat) (point : JointTrajectoryPoint)
    (rest : list JointTrajectoryPoint) (n : Node) :
  let answers := set_goal_answers w pointi point (fail_out_of_range_goal n) in
  accepted_by_all answers = false ->
  exists nf evs,
    execute_points fuel w names pointi (point :: rest) n
    = (Returned (result nf), nf)
    /\ trace nf = trace n ++ evs
    /\ Forall (fun e => is_hardware_call e = false) evs
    /\ length (List.filter is_set_goal evs) = length command_groups
    /\ read_holds nf = pred (read_holds n)
    /\ (N.is_active n = true ->
        forall c s, first_text answers = Some (c, s) ->
        result nf = {| error_code := INVALID_GOAL;
                       error_string := FromCommandGroup c s |}
        /\ status nf = Aborted)
    /\ (first_text answers = None ->
        result nf = result n /\ status nf = status n).
Proof.
  cbv zeta. unfold accepted_by_all, set_goal_answers. intros Hrej.
  rewrite execute_points_cons.
  set (n0 := N.emit (Log Debug (TargetPoint pointi point)) n).
  pose proof (set_goals_spec (fun e => is_hardware_call e = false) w pointi
                point command_groups ltac:(done) ltac:(done) ltac:(done) n0)
    as Hset.
  cbv zeta in Hset.
  change (fail_out_of_range_goal n0) with (fail_out_of_range_goal n) in Hset.
  change (read_holds n0) with (read_holds n) in Hset.
  change (N.is_active n0) with (N.is_active n) in Hset.
  change (status n0) with (status n) in Hset.
  change (result n0) with (result n) in Hset.
  destruct (set_goals w pointi point command_groups n0) as [oks n1].
  cbn [fst snd] in Hset.
  destruct Hset as (-> & (evs & Ht & HP & Hcount) & _ & _ & Hr1 & Hst).
  rewrite Hrej. cbn [negb].
  exists (N.release_read n1),
    (Log Debug (TargetPoint pointi point) :: evs ++ [ReleaseRead]).
  split; [reflexivity|]. split.
  { cbn [N.release_read N.emit N.with_trace trace N.set_read_holds].
    rewrite Ht. subst n0. cbn [N.emit N.with_trace trace].
    by rewrite <- !app_assoc. }
  split.
  { constructor; [done|]. apply Forall_app. split; [done|by constructor]. }
  split.
  { cbn [List.filter is_set_goal]. rewrite List.filter_app, length_app, Hcount.
    simpl. lia. }
  split; [cbn; by rewrite Hr1|]. split.
  - intros Hactive c s Hfirst. rewrite Hfirst, Hactive in Hst.
    destruct Hst as [Hs Hres]. by split.
  - intros Hnone. rewrite Hnone in Hst. destruct Hst as [Hs Hres]. by split.
Qed.

Lemma point_rejected_witness :
  let n := N.acquire_read (idle_node (Some Position) false) in
  exists nf evs,
    execute_points 1 refusing_world ["joint_lift"] 0
      [lift_point 1; lift_point 2] n
    = (Returned {| error_code := INVALID_GOAL;
                   error_string := FromCommandGroup lift_cg "out of range" |}, nf)
    /\ trace nf = trace n ++ evs
    /\ length (List.filter is_set_goal evs) = 7%nat
    /\ status nf = Aborted.
Proof.
  cbv zeta.
  destruct (point_rejected 1 refusing_world ["joint_lift"] 0 (lift_point 1)
              [lift_point 2] (N.acquire_read (idle_node (Some Position) false))
              eq_refl)
    as (nf & evs & Hrun & Ht & _ & Hcount & _ & Hcode & _).
  destruct (Hcode eq_refl lift_cg "out of range" eq_refl) as [Hres Hs].
  exists nf, evs. rewrite <- Hres. by repeat split.
Defined.

(** The points of a goal already reached, from point [pointi] on. *)
Lemma execute_points_at_once (fuel : nat) (w : World) (names : list string)
    (fail : bool) (pts : list JointTrajectoryPoint) :
  forall pointi n,
    N.is_active n = true ->
    fail_out_of_range_goal n = fail ->
    reached_at_once w fail pointi pts ->
    exists nf evs,
      execute_points fuel w names pointi pts n
      = (Returned {| error_code := SUCCESSFUL;
                     error_string := AchievedAllTargetPoints |}, nf)
      /\ status nf = Succeeded
      /\ read_holds nf = pred (read_holds n)
      /\ trace nf = trace n ++ evs
      /\ Forall (fun e => is_poll_event e = false) evs
      /\ length (List.filter is_push_command evs) = length pts.
Proof.
  induction pts as [|point rest IH]; intros pointi n Hactive Hfail Hall.
  { eexists.
    exists [Log Info AchievedAllTargetPoints; Succeed; ReleaseRead].
    split; [reflexivity|]. split; [reflexivity|]. split; [reflexivity|].
    split; [simpl; by rewrite <- !app_assoc|]. split; [by repeat constructor|].
    reflexivity. }
  rewrite execute_points_cons.
  set (n0 := N.emit (Log Debug (TargetPoint pointi point)) n).
  pose proof (set_goals_spec
                (fun e => is_poll_event e = false /\ is_push_command e = false)
                w pointi point command_groups ltac:(done) ltac:(done)
                ltac:(done) n0) as Hset.
  cbv zeta in Hset.
  change (fail_out_of_range_goal n0) with (fail_out_of_range_goal n) in Hset.
  change (read_holds n0) with (read_holds n) in Hset.
  change (N.is_active n0) with (N.is_active n) in Hset.
  change (status n0) with (status n) in Hset.
  change (result n0) with (result n) in Hset.
  destruct (Hall 0%nat point eq_refl) as (Hacc & Hquiet & Hreached).
  rewrite Nat.add_0_r in Hacc, Hquiet, Hreached.
  unfold accepted_by_all, set_goal_answers in Hacc, Hquiet.
  rewrite Hfail in Hset.
  destruct (set_goals w pointi point command_groups n0) as [oks n1].
  cbn [fst snd] in Hset.
  destruct Hset as (-> & (evs1 & Ht1 & HP1 & _) & _ & Hf1 & Hr1 & Hst).
  rewrite Hquiet in Hst. destruct Hst as [Hs1 _].
  rewrite Hacc. cbn [negb].
  assert (forall m, poll_loop fuel w names pointi point (now w pointi 0) 0
                      (map (goal_reached w pointi 0) command_groups) m
                    = (Continue (map (goal_reached w pointi 0) command_groups), m))
    as Hloop.
  { intros m. destruct fuel; cbn [poll_loop]; by rewrite Hreached. }
  rewrite Hloop.
  set (n2 := N.emit (Log Debug AchievedTargetPoint) (start_point n1)).
  destruct (IH (S pointi) n2) as (nf & evs2 & Hrun & Hsf & Hrf & Htf & HPf & Hcf).
  { unfold N.is_active in *. change (status n2) with (status n1). by rewrite Hs1. }
  { exact Hf1. }
  { intros i pt Hi. specialize (Hall (S i) pt Hi).
    by rewrite Nat.add_succ_r in Hall. }
  exists nf,
    (Log Debug (TargetPoint pointi point) :: evs1
     ++ (GetStatus :: map CgInitExecution command_groups
         ++ [PushCommand; Log Debug AchievedTargetPoint]) ++ evs2).
  split; [exact Hrun|]. split; [exact Hsf|]. split.
  { rewrite Hrf. change (read_holds n2) with (read_holds n1). by rewrite Hr1. }
  split.
  { rewrite Htf. subst n2. cbn -[app]. rewrite Ht1. subst n0. cbn -[app].
    rewrite <- !app_assoc. reflexivity. }
  split.
  { constructor; [done|]. apply Forall_app. split.
    - eapply Forall_impl; [exact HP1|]. by intros e [He _].
    - apply Forall_app. split; [by repeat constructor|done]. }
  cbn [List.filter is_push_command]. rewrite !List.filter_app, !length_app.
  rewrite (filter_none is_push_command evs1).
  - rewrite Hcf. reflexivity.
  - eapply Forall_impl; [exact HP1|]. by intros e [_ He].
Qed.

(** X9. A validated goal whose points are all accepted and already reached
    when their commands have been pushed succeeds without a single poll
    iteration, however many the caller would follow: no [update_execution],
    no feedback message and no executor spin occur, one command is pushed
    per point, and the call returns SUCCESSFUL with the goal succeeded and
    the read hold given back.  This holds for a goal whose cancellation was
    already requested as well: the request is only looked at inside the
    poll loop. *)
Theorem satisfied_goal_needs_no_poll (fuel : nat) (w : World)
    (t : JointTrajectory) (n : Node) :
  N.is_active n = true ->
  validated w t (robot_mode n) = true ->
  first_text (update_answers w (joint_names t) (robot_mode n)) = None ->
  reached_at_once w (fail_out_of_range_goal n) 0 (points t) ->
  exists nf evs,
    execute_cb_position fuel w t n
    = (Returned {| error_code := SUCCESSFUL;
                   error_string := AchievedAllTargetPoints |}, nf)
    /\ status nf = Succeeded
    /\ read_holds nf = read_holds n
    /\ trace nf = trace n ++ evs
    /\ Forall (fun e => is_poll_event e = false) evs
    /\ length (List.filter is_push_command evs) = length (points t).
Proof.
  unfold validated, accepted_by_all, update_answers.
  intros Hactive Hval Hquiet Hall.
  apply andb_prop in Hval as [Hval Hcount]. apply andb_prop in Hval as [Hok Hpos].
  unfold execute_cb_position.
  set (n0 := N.emit (Log Info (NewTrajectory (joint_names t))) _).
  pose proof (updates_spec
                (fun e => is_poll_event e = false /\ is_push_command e = false)
                w (joint_names t) command_groups ltac:(done) ltac:(done)
                ltac:(done) n0) as Hupd.
  cbv zeta in Hupd.
  change (robot_mode n0) with (robot_mode n) in Hupd.
  change (read_holds n0) with (S (read_holds n)) in Hupd.
  change (fail_out_of_range_goal n0) with (fail_out_of_range_goal n) in Hupd.
  change (status n0) with (status n) in Hupd.
  destruct (updates w (joint_names t) command_groups n0) as [upds n1].
  cbn [fst snd] in Hupd.
  destruct Hupd as (-> & (evs1 & Ht1 & HP1) & _ & Hf1 & Hr1 & Hst).
  rewrite Hquiet in Hst. destruct Hst as [Hs1 _].
  rewrite Hok. cbn [negb].
  assert ((num_valid_points w <=? 0) = false) as -> by lia.
  rewrite Hcount. cbn [negb].
  destruct (execute_points_at_once fuel w (joint_names t)
              (fail_out_of_range_goal n) (points t) 0 n1)
    as (nf & evs2 & Hrun & Hsf & Hrf & Htf & HPf & Hcf).
  { unfold N.is_active in *. by rewrite Hs1. }
  { exact Hf1. }
  { exact Hall. }
  exists nf,
    ([StopLockAcquire; StopFlagSet false; StopLockRelease; AcquireRead;
      Log Info (NewTrajectory (joint_names t))] ++ evs1 ++ evs2).
  split; [exact Hrun|]. split; [exact Hsf|]. split.
  { rewrite Hrf, Hr1. reflexivity. }
  split.
  { rewrite Htf, Ht1. subst n0. cbn -[app]. by rewrite <- !app_assoc. }
  split.
  { apply Forall_app. split; [by repeat constructor|]. apply Forall_app. split.
    - eapply Forall_impl; [exact HP1|]. by intros e [He _].
    - done. }
  rewrite !List.filter_app, !length_app.
  rewrite (filter_none is_push_command evs1).
  - rewrite Hcf. reflexivity.
  - eapply Forall_impl; [exact HP1|]. by intros e [_ He].
Qed.

Lemma satisfied_goal_needs_no_poll_witness :
  let n := N.request_cancel (idle_node (Some Position) false) in
  exists nf evs,
    execute_cb_position 0 arm_world (trajectory arm_goal) n
    = (Returned {| error_code := SUCCESSFUL;
                   error_string := AchievedAllTargetPoints |}, nf)
    /\ status nf = Succeeded
    /\ trace nf = trace n ++ evs
    /\ length (List.filter is_push_command evs) = 1%nat.
Proof.
  cbv zeta.
  destruct (satisfied_goal_needs_no_poll 0 arm_world (trajectory arm_goal)
              (N.request_cancel (idle_node (Some Position) false)))
    as (nf & evs & Hrun & Hs & _ & Ht & _ & Hc).
  - reflexivity.
  - reflexivity.
  - reflexivity.
  - intros i point Hi. destruct i as [|i]; [|destruct i; discriminate Hi].
    by repeat split.
  - exists nf, evs. by repeat split.
Defined.

End ServerCoverage.

(** ** Feedback of the Position/Navigation path and the read hold *)

Module FeedbackMore.

Import Server ServerSpec ServerFacts CoverageSpec.





End FeedbackMore.

Section FeedbackCoverage.

Import Server ServerSpec ServerFacts CoverageSpec FeedbackMore.




End FeedbackCoverage.

(** ** [execute_trajectory]: which goals are turned down, which succeed *)

Module ManipulationMore.

Import Merge MergeSpec MergeFacts MergeMore Components Manipulation.
Import ManipulationFacts ServerSpec CoverageSpec.

Lemma check_positions_ok (goal : Goal) (pts : list JointTrajectoryPoint) :
  Forall (fun pt => length (positions pt) = length (joint_names (trajectory goal)))
    pts ->
  check_positions goal pts = Py.Ok tt.
Proof.
  induction 1 as [|pt rest Hpt _ IH]; [reflexivity|]. cbn [check_positions].
  by rewrite Hpt, Nat.eqb_refl.
Qed.

Lemma check_names_ok (names : list string) :
  Forall known_joint names -> check_names names = Py.Ok tt.
Proof.
  induction 1 as [|name rest [c Hc] _ IH]; [reflexivity|]. cbn [check_names].
  by rewrite Hc.
Qed.

Lemma check_names_unknown (names : list string) :
  ~ Forall known_joint names ->
  check_names names = Py.Raise Py.InvalidJointException.
Proof.
  induction names as [|name rest IH]; intros Hnot.
  { exfalso. apply Hnot. constructor. }
  cbn [check_names].
  destruct (get_trajectory_components !! name) as [c|] eqn:Hc; [|reflexivity].
  apply IH. intros Hrest. apply Hnot. constructor; [by exists c|done].
Qed.

Lemma well_formed_enough (t : JointTrajectory) :
  well_formed t -> enough_positions t.
Proof.
  unfold well_formed, enough_positions. intros H.
  eapply Forall_impl; [exact H|]. intros pt Hpt. simpl in *. lia.
Qed.

Lemma segment_name_In (names : list string) (name : string) :
  name ∈ List.filter not_arm_joint names
  <-> name ∈ names /\ is_arm_joint name = false.
Proof.
  rewrite !list_elem_of_In, filter_In. unfold not_arm_joint.
  destruct (is_arm_joint name); simpl; intuition congruence.
Qed.

(** The three ways the validation ends. *)
Lemma validate_cases (goal : Goal) :
  let t := trajectory goal in
  (~ well_formed t
   /\ validate goal = Py.Raise (Py.AttributeError "joint_names"))
  \/ (well_formed t /\ rejected_joints t
      /\ validate goal = Py.Raise Py.InvalidJointException)
  \/ (well_formed t /\ ~ rejected_joints t
      /\ exists merged,
           validate goal = Py.Ok merged
           /\ merge_arm_joints t = Py.Ok merged
           /\ Forall known_joint (joint_names merged)).
Proof.
  cbv zeta. unfold validate. set (t := trajectory goal).
  destruct (decide (well_formed t)) as [Hwf|Hwf].
  2:{ left. split; [exact Hwf|].
      rewrite check_positions_mismatch; [reflexivity|].
      apply not_Forall_Exists in Hwf; [exact Hwf|]. intros pt. apply _. }
  right. rewrite (check_positions_ok goal _ Hwf). cbn [Py.bind].
  fold t. rewrite merge_arm_joints_cases.
  destruct (Nat.eqb_spec (segments_present (joint_names t)) 0) as [H0|H0].
  { cbn [Py.bind].
    destruct (decide (Forall known_joint (joint_names t))) as [Hk|Hk].
    - right. split; [exact Hwf|]. split.
      + intros [[Hne _]|Hex]; [done|].
        apply Exists_exists in Hex as (name & Hin & _ & Hunk).
        rewrite Forall_forall in Hk. by apply Hunk, Hk.
      + exists t. rewrite (check_names_ok _ Hk). by repeat split.
    - left. split; [exact Hwf|]. split.
      + right. apply not_Forall_Exists in Hk; [|intros name; apply _].
        apply Exists_exists in Hk as (name & Hin & Hunk).
        apply Exists_exists. exists name. split; [exact Hin|]. split; [|exact Hunk].
        apply segments_present_0 in H0. rewrite Forall_forall in H0. by apply H0.
      + by rewrite (check_names_unknown _ Hk). }
  unfold Py.list_in. case_bool_decide as Hw.
  { left. split; [exact Hwf|]. split; [|reflexivity]. left. split; [exact H0|by left]. }
  destruct (Nat.eqb_spec (segments_present (joint_names t)) 4) as [H4|H4];
    cbn [negb].
  2:{ left. split; [exact Hwf|]. split; [|reflexivity]. left. split; [exact H0|by right]. }
  rewrite bool_decide_eq_true_2 by (by apply well_formed_enough).
  cbn [Py.bind merged_trajectory joint_names].
  assert (known_joint wrist_extension) as Hwrist by (by exists ArmComponent).
  destruct (decide (Forall known_joint (List.filter not_arm_joint (joint_names t))))
    as [Hk|Hk].
  - right. split; [exact Hwf|]. split.
    + intros [[_ [Hin|Hne]]|Hex]; [done|done|].
      apply Exists_exists in Hex as (name & Hin & Hna & Hunk).
      rewrite Forall_forall in Hk. apply Hunk, Hk. by apply segment_name_In.
    + exists (merged_trajectory t). rewrite check_names_ok.
      * by repeat split; try (apply Forall_app; split; [done|by constructor]).
      * apply Forall_app. split; [done|by constructor].
  - left. split; [exact Hwf|]. split.
    + right. apply not_Forall_Exists in Hk; [|intros name; apply _].
      apply Exists_exists in Hk as (name & Hin & Hunk).
      apply segment_name_In in Hin as [Hin Hna].
      apply Exists_exists. by exists name.
    + rewrite check_names_unknown; [reflexivity|].
      intros Hall. apply Hk. by apply Forall_app in Hall as [Hall _].
Qed.

Lemma same_goal_refl (n : Node) : same_goal n n.
Proof. by repeat split. Qed.

Lemma same_goal_trans (a b c : Node) :
  same_goal a b -> same_goal b c -> same_goal a c.
Proof. unfold same_goal. intros (? & ? & ?) (? & ? & ?). repeat split; congruence. Qed.

Lemma same_goal_emit (e : event) (n : Node) : same_goal n (N.emit e n).
Proof. by repeat split. Qed.

Lemma feedback_positions_exn (hw : Playback) (k : nat) (dt : Z)
    (names : list string) (e : Py.exn) :
  feedback_positions hw k dt names = Py.Raise e ->
  Py.is_FollowJointTrajectoryException e = false.
Proof.
  induction names as [|joint rest IH]; cbn [feedback_positions]; [discriminate|].
  destruct (get_trajectory_components !! joint) as [c|]; [|by intros [= <-]].
  rewrite no_get_desired_position_at. cbn [Py.bind]. by intros [= <-].
Qed.

Lemma feedback_loop_spec (hw : Playback) (names : list string) (start_time : Z)
    (remaining : nat) :
  forall k n,
    let r := feedback_loop hw names start_time k remaining n in
    same_goal n r.2
    /\ grows (fun _ => True) n r.2
    /\ match r.1 with
       | Py.Ok _ => remaining = 0%nat \/ names = []
       | Py.Raise e =>
           Py.is_FollowJointTrajectoryException e = false
           /\ remaining <> 0%nat /\ names <> []
       end.
Proof.
  induction remaining as [|remaining IH]; intros k n; cbv zeta;
    cbn [feedback_loop].
  { cbn [fst snd]. split; [apply same_goal_emit|].
    split; [by apply Traces.grows_emit|by left]. }
  destruct (feedback_positions hw k (clock hw (S k) - start_time) names)
    as [[[a d] e]|e] eqn:Hfb.
  - match goal with
    | |- context [feedback_loop hw names start_time (S k) remaining ?m] =>
        specialize (IH (S k) m); cbv zeta in IH;
        destruct (feedback_loop hw names start_time (S k) remaining m)
          as [[[]|e'] n1]
    end; cbn [fst snd] in *; destruct IH as (Hsame & Hgrows & Hres).
    + split; [eapply same_goal_trans; [|exact Hsame]; by repeat split|].
      split.
      { eapply Traces.grows_trans; [|exact Hgrows].
        exists [IsTrajectoryExecuting;
                PublishFeedback
                  {| stamp := clock hw (S k); fb_joint_names := names;
                     desired := point_at (clock hw (S k) - start_time) d;
                     actual := point_at (clock hw (S k) - start_time) a;
                     error := point_at (clock hw (S k) - start_time) e |};
                RateSleep].
        split; [simpl; by rewrite <- !app_assoc|by repeat constructor]. }
      right. destruct names as [|joint rest]; [reflexivity|].
      cbn [feedback_positions] in Hfb.
      destruct (get_trajectory_components !! joint); [|discriminate].
      by rewrite no_get_desired_position_at in Hfb.
    + split; [eapply same_goal_trans; [|exact Hsame]; by repeat split|].
      split.
      { eapply Traces.grows_trans; [|exact Hgrows].
        exists [IsTrajectoryExecuting;
                PublishFeedback
                  {| stamp := clock hw (S k); fb_joint_names := names;
                     desired := point_at (clock hw (S k) - start_time) d;
                     actual := point_at (clock hw (S k) - start_time) a;
                     error := point_at (clock hw (S k) - start_time) e |};
                RateSleep].
        split; [simpl; by rewrite <- !app_assoc|by repeat constructor]. }
      destruct Hres as (Hexn & _ & Hnames). by repeat split.
  - cbn [fst snd]. split; [apply same_goal_emit|].
    split; [by apply Traces.grows_emit|].
    split; [by eapply feedback_positions_exn|]. split; [done|].
    intros ->. discriminate Hfb.
Qed.

Lemma add_each_waypoint_ok (c : component) (index : nat)
    (waypoints : list JointTrajectoryPoint) :
  Forall (fun pt => (index < length (positions pt))%nat) waypoints ->
  forall n, (add_each_waypoint c waypoints index n).1 = Py.Ok tt.
Proof.
  induction 1 as [|pt rest Hpt _ IH]; intros n; cbn [add_each_waypoint];
    [reflexivity|].
  destruct (lookup_lt_is_Some_2 _ _ Hpt) as [x ->]. apply IH.
Qed.

Lemma set_waypoints_ok (hw : Playback) (index : nat) (joint : string)
    (pts : list JointTrajectoryPoint) (n : Node) :
  known_joint joint -> pts <> [] ->
  Forall (fun pt => (index < length (positions pt))%nat) pts ->
  exists pts',
    (set_waypoints hw index joint pts n).1 = Py.Ok pts'
    /\ map (fun pt => length (positions pt)) pts'
       = map (fun pt => length (positions pt)) pts.
Proof.
  intros [c Hc] Hne Hall. unfold set_waypoints. rewrite Hc.
  destruct pts as [|first others]; [done|].
  apply Forall_cons in Hall as [Hfirst Hothers].
  unfold setitem. apply Nat.ltb_lt in Hfirst as Hltb. rewrite Hltb.
  match goal with
  | |- context [add_waypoints c ?l index n] =>
      assert ((add_waypoints c l index n).1 = Py.Ok tt) as Hadd;
      [|destruct (add_waypoints c l index n) as [[[]|e] n1];
        cbn [fst] in Hadd; [|discriminate]]
  end.
  { unfold add_waypoints.
    match goal with
    | |- context [add_each_waypoint c ?l index ?m] =>
        pose proof (add_each_waypoint_ok c index l) as Hok;
        specialize (Hok ltac:(constructor;
                       [cbn [positions]; by rewrite length_insert|done]) m);
        destruct (add_each_waypoint c l index m) as [[[]|e] n1];
        cbn [fst] in Hok; [|discriminate]
    end.
    by destruct c. }
  eexists. split; [reflexivity|]. cbn [map positions].
  by rewrite length_insert.
Qed.

Lemma set_all_waypoints_ok (hw : Playback) (names : list string) :
  forall index pts n,
    Forall known_joint names -> pts <> [] ->
    Forall (fun pt => (index + length names <= length (positions pt))%nat) pts ->
    (set_all_waypoints hw index names pts n).1 = Py.Ok tt.
Proof.
  induction names as [|joint rest IH]; intros index pts n Hknown Hne Hall;
    cbn [set_all_waypoints]; [reflexivity|].
  apply Forall_cons in Hknown as [Hjoint Hrest].
  destruct (set_waypoints_ok hw index joint pts n Hjoint Hne) as (pts' & Hset & Hlen).
  { eapply Forall_impl; [exact Hall|]. intros pt Hpt. simpl in Hpt. lia. }
  destruct (set_waypoints hw index joint pts n) as [[pts''|e] n1];
    cbn [fst] in Hset; [|discriminate].
  injection Hset as ->. apply IH; [exact Hrest| |].
  - intros ->. destruct pts; [done|discriminate Hlen].
  - apply Forall_forall. intros pt Hin.
    apply list_elem_of_lookup in Hin as [i Hi].
    assert ((map (fun pt => length (positions pt)) pts') !! i
            = Some (length (positions pt))) as Hi'
        by (by rewrite list_lookup_fmap, Hi).
    rewrite Hlen, list_lookup_fmap in Hi'.
    destruct (pts !! i) as [pt0|] eqn:Hpt0; [|discriminate].
    injection Hi' as Hi'. rewrite <- Hi'.
    rewrite Forall_forall in Hall.
    specialize (Hall pt0 (list_elem_of_lookup_2 _ _ _ Hpt0)). simpl in *. lia.
Qed.

Lemma set_all_waypoints_no_points (hw : Playback) (joint : string)
    (rest : list string) (index : nat) (n : Node) :
  known_joint joint ->
  set_all_waypoints hw index (joint :: rest) [] n = (Py.Raise Py.IndexError, n).
Proof.
  intros [c Hc]. cbn [set_all_waypoints]. unfold set_waypoints. by rewrite Hc.
Qed.

Lemma set_all_waypoints_frame (hw : Playback) (names : list string)
    (index : nat) (pts : list JointTrajectoryPoint) (n : Node) :
  same_goal n (set_all_waypoints hw index names pts n).2
  /\ grows (fun _ => True) n (set_all_waypoints hw index names pts n).2.
Proof.
  split.
  - apply (ManipulationFrame.R_set_all_waypoints same_goal);
      first [exact same_goal_refl | exact same_goal_trans | exact same_goal_emit].
  - apply (ManipulationFrame.R_set_all_waypoints (grows (fun _ => True))).
    + apply Traces.grows_refl.
    + apply Traces.grows_trans.
    + intros e m. by apply Traces.grows_emit.
Qed.

(** The [try] body once the validation has passed. *)
Lemma try_body_validated (cfg : Config) (hw : Playback) (goal : Goal)
    (n : Node) (merged : JointTrajectory) :
  validate goal = Py.Ok merged ->
  Forall known_joint (joint_names merged) -> well_formed merged ->
  let r := try_body cfg hw goal n in
  match r.1 with
  | Py.Ok res =>
      res = {| error_code := SUCCESSFUL;
               error_string := AchievedAllTargetPoints |}
      /\ plays_out hw merged
      /\ exists n1, same_goal n n1 /\ grows (fun _ => True) n n1
                    /\ r.2 = N.succeed (N.emit StopTrajectory n1)
  | Py.Raise e =>
      Py.is_FollowJointTrajectoryException e = false
      /\ ~ plays_out hw merged /\ same_goal n r.2
      /\ grows (fun _ => True) n r.2
  end.
Proof.
  intros Hval Hknown Hwf. cbv zeta. unfold try_body.
  change (Py.bind (check_positions goal (points (trajectory goal))) _)
    with (validate goal).
  rewrite Hval.
  set (n0 := N.emit (Log Info _) n).
  assert (same_goal n n0 /\ grows (fun _ => True) n n0) as [Hs0 Hg0]
    by (split; [apply same_goal_emit|by apply Traces.grows_emit]).
  destruct (set_all_waypoints_frame hw (joint_names merged) 0
              (map (ignore_fields cfg) (points merged)) n0) as [Hs1 Hg1].
  assert (match (set_all_waypoints hw 0 (joint_names merged)
                   (map (ignore_fields cfg) (points merged)) n0).1 with
          | Py.Ok _ => joint_names merged = [] \/ points merged <> []
          | Py.Raise e =>
              Py.is_FollowJointTrajectoryException e = false
              /\ joint_names merged <> [] /\ points merged = []
          end) as Hset.
  { unfold well_formed in Hwf. clearbody n0. clear Hs1 Hg1.
    destruct (joint_names merged) as [|joint rest]; [by left|].
    destruct (points merged) as [|pt pts].
    - rewrite set_all_waypoints_no_points by (by apply Forall_cons in Hknown as [? _]).
      by repeat split.
    - rewrite set_all_waypoints_ok; [by right|exact Hknown|done|].
      apply Forall_fmap. eapply Forall_impl; [exact Hwf|].
      intros p Hp. unfold compose. simpl in *. lia. }
  destruct (set_all_waypoints hw 0 (joint_names merged)
              (map (ignore_fields cfg) (points merged)) n0) as [[[]|e] n1];
    cbn [fst snd] in *.
  2:{ destruct Hset as (Hexn & Hne & Hnil). split; [exact Hexn|]. split.
      - intros [Hnames|[Hpts _]]; done.
      - split; [by eapply same_goal_trans|by eapply Traces.grows_trans]. }
  pose proof (feedback_loop_spec hw (joint_names merged) (clock hw 0)
                (executing_polls hw) 0 (N.emit StartTrajectory n1)) as Hloop.
  cbv zeta in Hloop.
  assert (same_goal n (N.emit StartTrajectory n1)
          /\ grows (fun _ => True) n (N.emit StartTrajectory n1)) as [Hs1' Hg1'].
  { split.
    - eapply same_goal_trans; [exact Hs0|]. eapply same_goal_trans; [exact Hs1|].
      apply same_goal_emit.
    - eapply Traces.grows_trans; [exact Hg0|].
      eapply Traces.grows_trans; [exact Hg1|]. by apply Traces.grows_emit. }
  destruct (feedback_loop hw (joint_names merged) (clock hw 0) 0
              (executing_polls hw) (N.emit StartTrajectory n1)) as [[[]|e] n2];
    cbn [fst snd] in *; destruct Hloop as (Hs2 & Hg2 & Hres).
  - split; [reflexivity|]. split.
    + unfold plays_out. destruct Hres as [Hz|Hnil]; [|by left].
      destruct Hset as [Hnil|Hpts]; [by left|by right].
    + exists n2. split; [by eapply same_goal_trans|].
      split; [by eapply Traces.grows_trans|reflexivity].
  - destruct Hres as (Hexn & Hrem & Hne). split; [exact Hexn|]. split.
    + intros [Hnames|[_ Hz]]; done.
    + split; [by eapply same_goal_trans|by eapply Traces.grows_trans].
Qed.

Lemma merge_Ok_plays_out (hw : Playback) (t merged : JointTrajectory) :
  merge_arm_joints t = Py.Ok merged ->
  plays_out hw merged <-> plays_out hw t.
Proof.
  intros [[H0 ->]|(H4 & Hw & He & ->)]%merge_Ok_inv; [done|].
  unfold plays_out, merged_trajectory. cbn [joint_names points].
  assert (joint_names t <> []) as Hne by (intros Hnil; by rewrite Hnil in H4).
  assert (map (merged_point (joint_names t)) (points t) <> [] <-> points t <> [])
    as Hpts by (by destruct (points t)).
  rewrite Hpts. split.
  - intros [Hnil|H]; [|by right]. by destruct (List.filter _ _).
  - intros [Hnil|H]; [done|by right].
Qed.

(** The four ways [execute_trajectory] ends. *)
Lemma execute_trajectory_cases (cfg : Config) (hw : Playback) (goal : Goal)
    (n : Node) :
  let t := trajectory goal in
  exists r nf evs,
    execute_trajectory cfg hw goal n = (Returned r, nf)
    /\ result nf = result n
    /\ trace nf = trace n ++ prologue ++ evs
    /\ ((~ well_formed t
         /\ r = {| error_code := UNKNOWN_ERROR;
                   error_string := OfException (Py.AttributeError "joint_names") |}
         /\ status nf = Aborted
         /\ evs = [StopTrajectory;
                   Log Error (OfException (Py.AttributeError "joint_names"));
                   Abort; ReleaseRead])
        \/ (well_formed t /\ rejected_joints t
            /\ r = {| error_code := INVALID_JOINTS;
                      error_string := OfException Py.InvalidJointException |}
            /\ status nf = Aborted
            /\ evs = [Log Error (OfException Py.InvalidJointException);
                      Abort; ReleaseRead])
        \/ (well_formed t /\ ~ rejected_joints t /\ plays_out hw t
            /\ r = {| error_code := SUCCESSFUL;
                      error_string := AchievedAllTargetPoints |}
            /\ status nf = Succeeded
            /\ exists evs', evs = evs' ++ [StopTrajectory; Succeed; ReleaseRead])
        \/ (well_formed t /\ ~ rejected_joints t /\ ~ plays_out hw t
            /\ exists e,
                 Py.is_FollowJointTrajectoryException e = false
                 /\ r = {| error_code := UNKNOWN_ERROR;
                           error_string := OfException e |}
                 /\ status nf = Aborted
                 /\ exists evs',
                      evs = evs' ++ [StopTrajectory; Log Error (OfException e);
                                     Abort; ReleaseRead])).
Proof.
  cbv zeta. unfold execute_trajectory. fold (started n).
  assert (trace (started n) = trace n ++ prologue) as Hpro
      by (simpl; by rewrite <- !app_assoc).
  assert (result (started n) = result n) as Hres0 by reflexivity.
  destruct (validate_cases goal) as [(Hwf & Hval)|[(Hwf & Hrej & Hval)
                                    |(Hwf & Hrej & merged & Hval & Hmerge & Hknown)]].
  - unfold try_body.
    change (Py.bind (check_positions goal (points (trajectory goal))) _)
      with (validate goal).
    rewrite Hval. cbn [Py.is_FollowJointTrajectoryException].
    eexists _, _, _. split; [reflexivity|]. split; [reflexivity|]. split.
    2:{ left. split; [exact Hwf|]. split; [reflexivity|]. split; reflexivity. }
    simpl. by rewrite <- !app_assoc.
  - unfold try_body.
    change (Py.bind (check_positions goal (points (trajectory goal))) _)
      with (validate goal).
    rewrite Hval. cbn [Py.is_FollowJointTrajectoryException CODE].
    eexists _, _, _. split; [reflexivity|]. split; [reflexivity|]. split.
    2:{ right. left. split; [exact Hwf|]. split; [exact Hrej|].
        split; [reflexivity|]. split; reflexivity. }
    simpl. by rewrite <- !app_assoc.
  - pose proof (try_body_validated cfg hw goal (started n) merged Hval Hknown
                  (merge_Ok_well_formed _ _ Hmerge Hwf)) as Hbody.
    cbv zeta in Hbody.
    pose proof (merge_Ok_plays_out hw _ _ Hmerge) as Hplay.
    destruct (try_body cfg hw goal (started n)) as [[res|e] n1];
      cbn [fst snd] in Hbody.
    + destruct Hbody as (-> & Hp & n0 & (Hs0 & Hr0 & _) & (evs1 & Ht1 & _) & ->).
      eexists _, _, _. split; [reflexivity|]. split.
      { cbn. by rewrite Hr0. }
      split.
      2:{ right. right. left. split; [exact Hwf|]. split; [exact Hrej|].
          split; [by apply Hplay|]. split; [reflexivity|]. split; [reflexivity|].
          exists evs1. reflexivity. }
      cbn [N.release_read N.succeed N.emit N.with_trace trace N.set_status
           N.set_read_holds].
      rewrite Ht1, Hpro. by rewrite <- !app_assoc.
    + destruct Hbody as (Hexn & Hp & (Hs1 & Hr1 & _) & (evs1 & Ht1 & _)).
      rewrite Hexn.
      eexists _, _, _. split; [reflexivity|]. split; [cbn; by rewrite Hr1|].
      split.
      2:{ right. right. right. split; [exact Hwf|]. split; [exact Hrej|].
          split; [by rewrite <- Hplay|]. exists e. split; [exact Hexn|].
          split; [reflexivity|]. split; [reflexivity|]. exists evs1. reflexivity. }
      cbn [N.release_read N.abort N.emit N.with_trace trace N.set_status
           N.set_read_holds].
      rewrite Ht1, Hpro. by rewrite <- !app_assoc.
Qed.

End ManipulationMore.

Section ManipulationCoverage.

Import Merge MergeSpec Components Manipulation ServerSpec CoverageSpec.
Import ManipulationMore.


(** X13. What [execute_trajectory] leaves behind.  The stored result of the
    action server is not written (the call builds a fresh result), and the
    goal handle is succeeded with SUCCESSFUL and aborted with every other
    code.  With INVALID_JOINTS nothing was sent to the robot: the call
    logged the error, aborted and released the read hold.  With the
    unknown-error code [stop_trajectory] was sent just before the abort,
    whether or not playback had been started; with SUCCESSFUL it was sent
    just before [succeed]. *)
Theorem manipulation_side_effects (cfg : Config) (hw : Playback) (goal : Goal)
    (n : Node) :
  exists r nf evs,
    execute_trajectory cfg hw goal n = (Returned r, nf)
    /\ result nf = result n
    /\ trace nf = trace n ++ prologue ++ evs
    /\ (error_code r = SUCCESSFUL ->
        status nf = Succeeded
        /\ exists evs', evs = evs' ++ [StopTrajectory; Succeed; ReleaseRead])
    /\ (error_code r = INVALID_JOINTS ->
        status nf = Aborted
        /\ evs = [Log Error (error_string r); Abort; ReleaseRead])
    /\ (error_code r = UNKNOWN_ERROR ->
        status nf = Aborted
        /\ exists evs',
             evs = evs' ++ [StopTrajectory; Log Error (error_string r);
                            Abort; ReleaseRead]).
Proof.
  destruct (execute_trajectory_cases cfg hw goal n)
    as (r & nf & evs & Hrun & Hres & Htrace & Hcases).
  exists r, nf, evs. split; [exact Hrun|]. split; [exact Hres|].
  split; [exact Htrace|].
  destruct Hcases as [(Hwf & -> & Hs & ->)|[(Hwf & Hrej & -> & Hs & ->)
                     |[(Hwf & Hrej & Hplay & -> & Hs & evs' & ->)
                      |(Hwf & Hrej & Hplay & e & _ & -> & Hs & evs' & ->)]]];
    cbn [error_code error_string]; unfold INVALID_JOINTS, SUCCESSFUL,
      UNKNOWN_ERROR; repeat split; try done.
  - by exists [].
  - by exists evs'.
  - by exists evs'.
Qed.

End ManipulationCoverage.

(** ** The component table and the first waypoint *)

Module ComponentsMore.

Import Components Manipulation CoverageSpec.

Lemma add_each_waypoint_trace (c : component) (index : nat)
    (waypoints : list JointTrajectoryPoint) :
  forall n n',
    add_each_waypoint c waypoints index n = (Py.Ok tt, n') ->
    exists evs, trace n' = trace n ++ evs /\ length evs = length waypoints.
Proof.
  induction waypoints as [|pt rest IH]; intros n n'; cbn [add_each_waypoint].
  { intros [= <-]. exists []. by rewrite app_nil_r. }
  destruct (positions pt !! index) as [x|]; [|discriminate].
  intros H. destruct (IH _ _ H) as (evs & Ht & Hlen).
  eexists (_ :: evs). split.
  - rewrite Ht. cbn [N.emit N.with_trace trace]. by rewrite <- app_assoc.
  - simpl. by rewrite Hlen.
Qed.

Lemma components_by_name_aux (s : string) (c : component) :
  get_trajectory_components !! s = Some c -> s = name c.
Proof.
  unfold get_trajectory_components. cbn [foldl].
  repeat (rewrite lookup_insert_Some; intros [[<- <-]|[_ H]];
          [reflexivity|revert H]).
  by rewrite lookup_empty.
Qed.

End ComponentsMore.

Section ComponentsCoverage.

Import Components Manipulation CoverageSpec ComponentsMore.

(** X14. The table of trajectory components has exactly the seven component
    names as keys: every component is found under its own name, and a
    lookup finds a component under no other name, so no two components
    share a name and none is lost in the dictionary. *)
Theorem components_by_name (s : string) (c : component) :
  get_trajectory_components !! s = Some c <-> s = name c.
Proof.
  split; [apply components_by_name_aux|].
  intros ->. by destruct c.
Qed.

(** X15. The first point of a goal on the manipulation path is not executed
    as commanded.  When the waypoints of a joint are set up, the position
    of that joint in the first point is overwritten with the position the
    component measures (its velocity too, if the point has one for the
    joint), the other joints and the later points are left alone, and the
    first waypoint handed to the component carries the measured values,
    followed by one waypoint per later point. *)
Theorem first_waypoint_is_measured (hw : Playback) (index : nat)
    (joint : string) (pts pts' : list JointTrajectoryPoint) (n n' : Node) :
  set_waypoints hw index joint pts n = (Py.Ok pts', n') ->
  exists c first first' others evs,
    joint = name c /\ pts = first :: others /\ pts' = first' :: others
    /\ positions first' !! index = Some (get_position hw 0 c)
    /\ (forall i, i <> index -> positions first' !! i = positions first !! i)
    /\ trace n'
       = trace n
         ++ ClearWaypoints joint
         :: add_waypoint c (time_from_start first) (get_position hw 0 c)
              (if (index <? length (velocities first))%nat
               then Some (get_velocity hw c) else None)
              (accelerations first !! index)
         :: evs
    /\ length evs
       = (length others + match c with BaseComponent => 1 | _ => 0 end)%nat.
Proof.
  unfold set_waypoints.
  destruct (get_trajectory_components !! joint) as [c|] eqn:Hc; [|discriminate].
  apply components_by_name_aux in Hc as ->.
  destruct pts as [|first others]; [discriminate|].
  unfold setitem. destruct (Nat.ltb_spec index (length (positions first)))
    as [Hlt|Hge]; [|discriminate].
  unfold add_waypoints. cbn [add_each_waypoint positions].
  rewrite list_lookup_insert_eq by exact Hlt.
  cbn [velocities accelerations time_from_start].
  match goal with
  | |- context [add_each_waypoint c others index ?m] =>
      destruct (add_each_waypoint c others index m) as [[[]|e] n1] eqn:Hadd;
      [apply add_each_waypoint_trace in Hadd as (evs & Ht & Hlen)|discriminate]
  end.
  assert ((if (index <? length (velocities first))%nat
           then <[index := get_velocity hw c]> (velocities first)
           else velocities first) !! index
          = if (index <? length (velocities first))%nat
            then Some (get_velocity hw c) else None) as Hv.
  { destruct (Nat.ltb_spec index (length (velocities first))) as [Hl|Hg].
    - by rewrite list_lookup_insert_eq.
    - by apply lookup_ge_None_2. }
  rewrite Hv in Ht.
  intros H.
  assert (exists n2, n' = n2 /\ pts' = {| positions := <[index := get_position hw 0 c]> (positions first);
             velocities := if (index <? length (velocities first))%nat
                           then <[index := get_velocity hw c]> (velocities first)
                           else velocities first;
             accelerations := accelerations first;
             time_from_start := time_from_start first |} :: others
          /\ exists evs', trace n2 = trace n1 ++ evs'
             /\ length evs' = match c with BaseComponent => 1%nat | _ => 0%nat end)
    as (n2 & <- & -> & evs' & Ht' & Hlen').
  { destruct c; injection H as <- <-; eexists; (split; [reflexivity|]);
      (split; [reflexivity|]);
      first [ by exists []; rewrite app_nil_r
            | by exists [CompleteTrajectory] ]. }
  eexists c, first, _, others, (evs ++ evs').
  split; [reflexivity|]. split; [reflexivity|]. split; [reflexivity|].
  cbn [positions]. split; [by rewrite list_lookup_insert_eq|].
  split; [intros i Hi; by rewrite list_lookup_insert_ne|]. split.
  - rewrite Ht', Ht. cbn [N.emit N.with_trace trace].
    by rewrite <- !app_assoc.
  - rewrite length_app, Hlen, Hlen'. reflexivity.
Qed.

End ComponentsCoverage.

Lemma first_waypoint_is_measured_witness :
  exists pts' n' first' others,
    Manipulation.set_waypoints (ServerSpec.still_playback 0) 0 "joint_lift"
      [ServerSpec.lift_point 1; ServerSpec.lift_point 2]
      (ServerSpec.idle_node (Some Manipulation) false)
    = (Py.Ok pts', n')
    /\ pts' = first' :: others
    /\ positions first' !! 0%nat = Some 0%float
    /\ positions (ServerSpec.lift_point 1) !! 0%nat = Some 1%float.
Proof.
  set (run := Manipulation.set_waypoints (ServerSpec.still_playback 0) 0
                "joint_lift" [ServerSpec.lift_point 1; ServerSpec.lift_point 2]
                (ServerSpec.idle_node (Some Manipulation) false)).
  assert (exists pts' n', run = (Py.Ok pts', n')) as (pts' & n' & Hrun)
      by (eexists _, _; lazy; reflexivity).
  destruct (first_waypoint_is_measured _ _ _ _ _ _ _ Hrun)
    as (c & first & first' & others & evs & _ & _ & Hp' & Hpos & _).
  exists pts', n', first', others. split; [exact Hrun|].
  split; [exact Hp'|]. split; [exact Hpos|reflexivity].
Defined.

(** ** The driver: velocity commands, the stop service, the modes *)

Module DriverMore.

Import Driver ServerSpec CoverageSpec.

Lemma publish_all (topics : list string) :
  forall n,
    let n' := publish_each topics n in
    trace n' = trace n ++ map Publish topics
    /\ read_holds n' = read_holds n /\ robot_mode n' = robot_mode n
    /\ mobile_base_manipulation_origin n' = mobile_base_manipulation_origin n
    /\ write_held n' = write_held n /\ stop_the_robot n' = stop_the_robot n.
Proof.
  unfold publish_each.
  induction topics as [|topic rest IH]; intros n; cbv zeta; cbn [foldl map].
  { by rewrite app_nil_r. }
  specialize (IH (N.emit (Publish topic) n)). cbv zeta in IH.
  destruct IH as (Ht & Hr & Hm & Ho & Hw & Hs).
  rewrite Ht. cbn [N.emit N.with_trace trace]. rewrite <- app_assoc.
  by repeat split.
Qed.

(** Once the mode is set, the two groups of messages are all of them. *)
Lemma publish_both (b : bool) (n : Node) :
  publish_each topics_from_mode (publish_each (topics_before_mode b) n)
  = publish_each (state_topics b) n.
Proof. unfold publish_each. rewrite <- foldl_app. by destruct b. Qed.

(** The end of the periodic task, from the first publication on, in a
    node whose mode is set. *)
Lemma publish_state (b : bool) (n : Node) :
  is_Some (robot_mode n) ->
  match robot_mode (publish_each (topics_before_mode b) n) with
  | Some _ =>
      (Py.Ok tt,
       N.release_read
         (publish_each topics_from_mode
            (publish_each (topics_before_mode b) n)))
  | None =>
      (Py.Raise Py.AssertionError, publish_each (topics_before_mode b) n)
  end
  = (Py.Ok tt, N.release_read (publish_each (state_topics b) n)).
Proof.
  intros [m Hm].
  destruct (publish_all (topics_before_mode b) n) as (_ & _ & Hmode & _).
  rewrite Hmode, Hm. by rewrite publish_both.
Qed.

(** One run of the periodic task in navigation mode. *)
Lemma tick_navigation (b : bool) (timeout now : Z) (n : Node) :
  robot_mode n = Some Navigation ->
  exists n2,
    command_mobile_base_velocity_and_publish_state b timeout now n
    = (Py.Ok tt, n2)
    /\ trace n2
       = trace n
         ++ tick_events b
              (Some (if now - last_twist_time n <? timeout
                     then BaseSetVelocity (linear_velocity_mps n)
                            (angular_velocity_radps n)
                     else standstill))
    /\ read_holds n2 = read_holds n /\ robot_mode n2 = robot_mode n
    /\ write_held n2 = write_held n /\ stop_the_robot n2 = stop_the_robot n.
Proof.
  intros Hmode. unfold command_mobile_base_velocity_and_publish_state.
  change (robot_mode (N.acquire_read n)) with (robot_mode n). rewrite Hmode.
  rewrite (bool_decide_eq_true_2 (Some Navigation = Some Navigation) eq_refl).
  change (last_twist_time (N.acquire_read n)) with (last_twist_time n).
  change (linear_velocity_mps (N.acquire_read n)) with (linear_velocity_mps n).
  change (angular_velocity_radps (N.acquire_read n))
    with (angular_velocity_radps n).
  set (cmd := if now - last_twist_time n <? timeout
              then BaseSetVelocity (linear_velocity_mps n)
                     (angular_velocity_radps n)
              else standstill).
  set (n1 := if now - last_twist_time n <? timeout then _ else _).
  assert (n1 = N.emit PushCommand (N.emit cmd (N.acquire_read n))) as ->.
  { subst n1 cmd. by destruct (_ <? _). }
  cbn [N.emit N.with_trace robot_mode N.acquire_read N.set_read_holds].
  rewrite Hmode.
  rewrite (bool_decide_eq_false_2 (Some Navigation = Some Manipulation))
    by discriminate.
  cbn [andb]. rewrite publish_state by (exists Navigation; exact Hmode).
  eexists. split; [reflexivity|].
  match goal with
  | |- context [publish_each (state_topics b) ?m] =>
      destruct (publish_all (state_topics b) m) as (Ht & Hr & Hm & _ & Hw & Hs)
  end.
  cbn [N.release_read N.emit N.with_trace trace read_holds N.set_read_holds
       robot_mode write_held stop_the_robot].
  rewrite Ht, Hr, Hm, Hw, Hs.
  cbn [trace read_holds robot_mode write_held stop_the_robot Nat.pred
       N.emit N.with_trace N.acquire_read N.set_read_holds].
  split; [|by repeat split]. unfold tick_events.
  by rewrite <- !app_assoc.
Qed.

(** One run of the periodic task outside navigation mode, the origin of
    the base known. *)
Lemma tick_other (b : bool) (timeout now : Z) (n : Node) :
  robot_mode n <> Some Navigation -> is_Some (robot_mode n) ->
  origin_known n ->
  exists n2,
    command_mobile_base_velocity_and_publish_state b timeout now n
    = (Py.Ok tt, n2)
    /\ trace n2 = trace n ++ tick_events b None
    /\ read_holds n2 = read_holds n /\ robot_mode n2 = robot_mode n
    /\ write_held n2 = write_held n /\ stop_the_robot n2 = stop_the_robot n.
Proof.
  intros Hmode Hset Horigin.
  unfold command_mobile_base_velocity_and_publish_state.
  change (robot_mode (N.acquire_read n)) with (robot_mode n).
  rewrite (bool_decide_eq_false_2 _ Hmode).
  cbn [N.emit N.with_trace robot_mode N.acquire_read N.set_read_holds
       mobile_base_manipulation_origin].
  assert (bool_decide (robot_mode n = Some Manipulation)
          && negb (bool_decide (is_Some (mobile_base_manipulation_origin n)))
          = false) as ->.
  { case_bool_decide as Hm; [|reflexivity].
    by rewrite (bool_decide_eq_true_2 _ (Horigin Hm)). }
  rewrite publish_state by exact Hset.
  eexists. split; [reflexivity|].
  match goal with
  | |- context [publish_each (state_topics b) ?m] =>
      destruct (publish_all (state_topics b) m) as (Ht & Hr & Hm & _ & Hw & Hs)
  end.
  cbn [N.release_read N.emit N.with_trace trace read_holds N.set_read_holds
       robot_mode write_held stop_the_robot].
  rewrite Ht, Hr, Hm, Hw, Hs.
  cbn [trace read_holds robot_mode write_held stop_the_robot Nat.pred
       N.emit N.with_trace N.acquire_read N.set_read_holds].
  split; [|by repeat split]. unfold tick_events. cbn [app].
  by rewrite <- !app_assoc.
Qed.

Lemma change_mode_Some (new_mode : mode) (code_to_run : Node -> Node)
    (n n1 : Node) :
  change_mode new_mode code_to_run n = Some n1 ->
  read_holds n = 0%nat /\ write_held n = false
  /\ n1 = release_write
            (N.emit (Log Info (ChangedMode
                                 (robot_mode
                                    (code_to_run
                                       (N.set_robot_mode (Some new_mode)
                                          (N.emit AcquireWrite
                                             (N.set_write_held true n)))))))
               (code_to_run
                  (N.set_robot_mode (Some new_mode)
                     (N.emit AcquireWrite (N.set_write_held true n))))).
Proof.
  unfold change_mode, acquire_write.
  destruct (Nat.eqb_spec (read_holds n) 0) as [Hr|]; [|discriminate].
  destruct (write_held n); [discriminate|]. cbn [andb negb].
  intros [= <-]. by repeat split.
Qed.

Lemma mode_function_Some (base_pose : float * float * float)
    (f : Node -> option Node) (n n1 : Node) :
  f ∈ mode_functions base_pose -> f n = Some n1 ->
  read_holds n1 = 0%nat /\ write_held n1 = false
  /\ (is_Some (robot_mode n1) /\ origin_known n1)
  /\ stop_the_robot n1 = stop_the_robot n
  /\ (f = turn_on_navigation_mode ->
      robot_mode n1 = Some Navigation
      /\ linear_velocity_mps n1 = 0%float /\ angular_velocity_radps n1 = 0%float).
Proof.
  unfold mode_functions. intros Hf Hrun.
  assert (forall g : Node -> option Node,
             (exists m, m <> Navigation /\ forall k, robot_mode <$> g k
                                       = if (read_holds k =? 0)%nat
                                            && negb (write_held k)
                                         then Some (Some m) else None) ->
             g n = Some n1 -> g = turn_on_navigation_mode -> False) as Hother.
  { intros g (m & Hm & Hg) Hgn Heq. subst g. specialize (Hg n).
    apply change_mode_Some in Hgn as (Hr & Hw & _).
    unfold turn_on_navigation_mode, change_mode, acquire_write in Hg.
    rewrite Hr, Hw in Hg. cbn in Hg. congruence. }
  apply elem_of_cons in Hf as [->|Hf].
  { apply change_mode_Some in Hrun as (Hr & Hw & ->).
    split; [cbn; exact Hr|]. split; [reflexivity|].
    split; [split; [by eexists|intros Hm; discriminate Hm]|].
    split; [reflexivity|].
    intros _. by repeat split. }
  apply elem_of_cons in Hf as [->|Hf].
  { assert (Hrun' := Hrun). apply change_mode_Some in Hrun as (Hr & Hw & ->).
    split; [cbn; exact Hr|]. split; [reflexivity|].
    split; [split; [by eexists|intros _; by eexists]|]. split; [reflexivity|].
    intros Heq. exfalso. eapply (Hother _); [|exact Hrun'|exact Heq].
    exists Manipulation. split; [discriminate|]. intros k.
    unfold turn_on_manipulation_mode, change_mode, acquire_write.
    by destruct (_ && _). }
  apply elem_of_cons in Hf as [->|Hf].
  { assert (Hrun' := Hrun). apply change_mode_Some in Hrun as (Hr & Hw & ->).
    split; [cbn; exact Hr|]. split; [reflexivity|].
    split; [split; [by eexists|intros Hm; discriminate Hm]|].
    split; [reflexivity|].
    intros Heq. exfalso. eapply (Hother _); [|exact Hrun'|exact Heq].
    exists Position. split; [discriminate|]. intros k.
    unfold turn_on_position_mode, change_mode, acquire_write.
    by destruct (_ && _). }
  apply elem_of_cons in Hf as [->|Hf]; [|by apply elem_of_nil in Hf].
  assert (Hrun' := Hrun). apply change_mode_Some in Hrun as (Hr & Hw & ->).
  split; [cbn; exact Hr|]. split; [reflexivity|].
  split; [split; [by eexists|intros Hm; discriminate Hm]|].
  split; [reflexivity|].
  intros Heq. exfalso. eapply (Hother _); [|exact Hrun'|exact Heq].
  exists Calibration. split; [discriminate|]. intros k.
  unfold calibrate, change_mode, acquire_write.
  by destruct (_ && _).
Qed.

End DriverMore.

Section DriverCoverage.

Import Driver ServerSpec CoverageSpec DriverMore.

(** X16. The velocity watchdog.  In navigation mode a twist received at
    time [t0] is what the next run of the periodic task at time [t1]
    commands to the base if less than the timeout has passed since, and
    otherwise the task commands zero velocities; either way the command is
    pushed, the state is published, and both calls give their read hold
    back. *)
Theorem velocity_watchdog (b : bool) (timeout t0 t1 : Z) (twist : Twist)
    (n : Node) :
  robot_mode n = Some Navigation ->
  exists n2,
    command_mobile_base_velocity_and_publish_state b timeout t1
      (set_mobile_base_velocity_callback t0 twist n)
    = (Py.Ok tt, n2)
    /\ trace n2
       = trace n ++ [AcquireRead; ReleaseRead]
         ++ tick_events b (Some (if t1 - t0 <? timeout
                                 then base_velocity_of twist else standstill))
    /\ read_holds n2 = read_holds n.
Proof.
  intros Hmode.
  assert (set_mobile_base_velocity_callback t0 twist n
          = N.release_read
              (N.set_twist (linear_x twist) (angular_z twist) t0
                 (N.acquire_read n))) as Hcb.
  { unfold set_mobile_base_velocity_callback.
    change (robot_mode (N.acquire_read n)) with (robot_mode n).
    by rewrite Hmode. }
  destruct (tick_navigation b timeout t1
              (set_mobile_base_velocity_callback t0 twist n))
    as (n2 & Hrun & Ht & Hr & _).
  { by rewrite Hcb. }
  exists n2. split; [exact Hrun|]. rewrite Ht, Hr, Hcb. split; [|reflexivity].
  cbn [N.release_read N.set_twist N.acquire_read N.emit N.with_trace trace
       N.set_read_holds last_twist_time linear_velocity_mps
       angular_velocity_radps].
  by rewrite <- !app_assoc.
Qed.

Lemma velocity_watchdog_witness :
  let n := idle_node (Some Navigation) false in
  (exists n2,
     command_mobile_base_velocity_and_publish_state false one_second
       (one_second / 2) (set_mobile_base_velocity_callback 0 a_twist n)
     = (Py.Ok tt, n2)
     /\ trace n2 !! 3%nat = Some (base_velocity_of a_twist))
  /\ (exists n2,
        command_mobile_base_velocity_and_publish_state false one_second
          (2 * one_second) (set_mobile_base_velocity_callback 0 a_twist n)
        = (Py.Ok tt, n2)
        /\ trace n2 !! 3%nat = Some standstill).
Proof.
  cbv zeta. split.
  - destruct (velocity_watchdog false one_second 0 (one_second / 2) a_twist
                (idle_node (Some Navigation) false) eq_refl)
      as (n2 & Hrun & Ht & _).
    exists n2. split; [exact Hrun|]. rewrite Ht. reflexivity.
  - destruct (velocity_watchdog false one_second 0 (2 * one_second) a_twist
                (idle_node (Some Navigation) false) eq_refl)
      as (n2 & Hrun & Ht & _).
    exists n2. split; [exact Hrun|]. rewrite Ht. reflexivity.
Defined.

(** X17. The stop service does not stop velocity control of the base.  In
    navigation mode, when the stop service runs after a twist was received,
    the stop flag is raised and every actuator is commanded to move by
    zero, but the stored velocities are left as they are and the periodic
    task does not read the flag: its next run within the timeout commands
    the velocities of the twist again. *)
Theorem stop_leaves_velocity_command (b : bool) (timeout t0 t1 : Z)
    (twist : Twist) (n : Node) :
  robot_mode n = Some Navigation ->
  t1 - t0 < timeout ->
  let n1 := stop_the_robot_callback
              (set_mobile_base_velocity_callback t0 twist n) in
  stop_the_robot n1 = true
  /\ exists n2,
       command_mobile_base_velocity_and_publish_state b timeout t1 n1
       = (Py.Ok tt, n2)
       /\ trace n2 = trace n1 ++ tick_events b (Some (base_velocity_of twist))
       /\ stop_the_robot n2 = true.
Proof.
  intros Hmode Hfresh. cbv zeta. split; [reflexivity|].
  assert (set_mobile_base_velocity_callback t0 twist n
          = N.release_read
              (N.set_twist (linear_x twist) (angular_z twist) t0
                 (N.acquire_read n))) as Hcb.
  { unfold set_mobile_base_velocity_callback.
    change (robot_mode (N.acquire_read n)) with (robot_mode n).
    by rewrite Hmode. }
  destruct (tick_navigation b timeout t1
              (stop_the_robot_callback
                 (set_mobile_base_velocity_callback t0 twist n)))
    as (n2 & Hrun & Ht & _ & _ & _ & Hs).
  { by rewrite Hcb. }
  exists n2. split; [exact Hrun|]. split; [|by rewrite Hs].
  rewrite Ht, Hcb.
  cbn [stop_the_robot_callback N.set_stop_the_robot N.release_read N.set_twist
       N.acquire_read N.emit N.with_trace N.set_read_holds last_twist_time
       linear_velocity_mps angular_velocity_radps].
  apply Z.ltb_lt in Hfresh. by rewrite Hfresh.
Qed.

Lemma stop_leaves_velocity_command_witness :
  let n1 := stop_the_robot_callback
              (set_mobile_base_velocity_callback 0 a_twist
                 (idle_node (Some Navigation) false)) in
  exists n2,
    command_mobile_base_velocity_and_publish_state false one_second
      (one_second / 2) n1
    = (Py.Ok tt, n2)
    /\ trace n2 !! (length (trace n1) + 1)%nat = Some (base_velocity_of a_twist).
Proof.
  cbv zeta.
  destruct (stop_leaves_velocity_command false one_second 0 (one_second / 2)
              a_twist (idle_node (Some Navigation) false) eq_refl eq_refl)
    as (_ & n2 & Hrun & Ht & _).
  exists n2. split; [exact Hrun|]. rewrite Ht. reflexivity.
Defined.

(** X18. Navigation mode starts at standstill.  Once
    [turn_on_navigation_mode] has returned, whatever velocities were stored
    and however recent the last twist is, the next run of the periodic
    task commands zero velocities to the base. *)
Theorem navigation_starts_at_standstill (b : bool) (timeout now : Z)
    (n n1 : Node) :
  turn_on_navigation_mode n = Some n1 ->
  exists n2,
    command_mobile_base_velocity_and_publish_state b timeout now n1
    = (Py.Ok tt, n2)
    /\ trace n2 = trace n1 ++ tick_events b (Some standstill).
Proof.
  intros Hrun.
  destruct (mode_function_Some (0, 0, 0)%float turn_on_navigation_mode n n1)
    as (_ & _ & _ & _ & Hnav); [apply elem_of_cons; by left|exact Hrun|].
  destruct (Hnav eq_refl) as (Hmode & Hv & Hw).
  destruct (tick_navigation b timeout now n1 Hmode) as (n2 & Htick & Ht & _).
  exists n2. split; [exact Htick|]. rewrite Ht, Hv, Hw.
  by destruct (_ <? _).
Qed.

Lemma navigation_starts_at_standstill_witness :
  let n := N.set_robot_mode (Some Position)
             (set_mobile_base_velocity_callback 0 a_twist
                (idle_node (Some Navigation) false)) in
  linear_velocity_mps n = linear_x a_twist
  /\ exists n1 n2,
       turn_on_navigation_mode n = Some n1
       /\ command_mobile_base_velocity_and_publish_state false one_second 1 n1
          = (Py.Ok tt, n2)
       /\ trace n2 = trace n1 ++ tick_events false (Some standstill).
Proof.
  cbv zeta. split; [reflexivity|].
  eexists _. 
  edestruct (navigation_starts_at_standstill false one_second 1
               (N.set_robot_mode (Some Position)
                  (set_mobile_base_velocity_callback 0 a_twist
                     (idle_node (Some Navigation) false))))
    as (n2 & Htick & Ht).
  - lazy. reflexivity.
  - exists n2. split; [lazy; reflexivity|]. split; [exact Htick|exact Ht].
Defined.

(** X19. Mode changes and the periodic task compose.  After any of the
    four mode functions has returned, no lock is held and the origin of
    the base is known whenever the mode is manipulation; so the next run
    of the periodic task returns without raising and gives its read hold
    back, every mode function can run again after it, and in a mode other
    than navigation the run commands no base velocity. *)
Theorem mode_change_then_tick (base_pose base_pose' : float * float * float)
    (b : bool) (timeout now : Z) (f g : Node -> option Node) (n n1 : Node) :
  f ∈ mode_functions base_pose -> g ∈ mode_functions base_pose' ->
  f n = Some n1 ->
  read_holds n1 = 0%nat /\ write_held n1 = false
  /\ exists n2,
       command_mobile_base_velocity_and_publish_state b timeout now n1
       = (Py.Ok tt, n2)
       /\ robot_mode n2 = robot_mode n1
       /\ is_Some (g n2)
       /\ (robot_mode n1 <> Some Navigation ->
           trace n2 = trace n1 ++ tick_events b None).
Proof.
  intros Hf Hg Hrun.
  destruct (mode_function_Some base_pose f n n1 Hf Hrun)
    as (Hr & Hw & [Hset Horigin] & _ & _).
  split; [exact Hr|]. split; [exact Hw|].
  assert (forall n2, read_holds n2 = 0%nat -> write_held n2 = false ->
                     is_Some (g n2)) as Hfree.
  { intros n2 Hr2 Hw2. unfold mode_functions in Hg.
    repeat (apply elem_of_cons in Hg as [->|Hg];
            [unfold turn_on_navigation_mode, turn_on_manipulation_mode,
               turn_on_position_mode, calibrate, change_mode, acquire_write;
             rewrite Hr2, Hw2; by eexists|]).
    by apply elem_of_nil in Hg. }
  destruct (decide (robot_mode n1 = Some Navigation)) as [Hnav|Hnav].
  - destruct (tick_navigation b timeout now n1 Hnav)
      as (n2 & Htick & _ & Hr2 & Hm2 & Hw2 & _).
    exists n2. split; [exact Htick|]. split; [exact Hm2|]. split; [|done].
    apply Hfree; congruence.
  - destruct (tick_other b timeout now n1 Hnav Hset Horigin)
      as (n2 & Htick & Ht & Hr2 & Hm2 & Hw2 & _).
    exists n2. split; [exact Htick|]. split; [exact Hm2|].
    split; [apply Hfree; congruence|]. by intros _.
Qed.

Lemma mode_change_then_tick_witness :
  exists n1 n2 n3,
    turn_on_manipulation_mode (1, 2, 0)%float (idle_node None false) = Some n1
    /\ command_mobile_base_velocity_and_publish_state false one_second 0 n1
       = (Py.Ok tt, n2)
    /\ turn_on_navigation_mode n2 = Some n3.
Proof.
  eexists _.
  edestruct (mode_change_then_tick (1, 2, 0)%float (0, 0, 0)%float false
               one_second 0 (turn_on_manipulation_mode (1, 2, 0)%float)
               turn_on_navigation_mode (idle_node None false))
    as (_ & _ & n2 & Htick & _ & [n3 Hn3] & _).
  - apply elem_of_cons. right. apply elem_of_cons. by left.
  - apply elem_of_cons. by left.
  - lazy. reflexivity.
  - exists n2, n3. split; [lazy; reflexivity|]. split; [exact Htick|exact Hn3].
Defined.



End DriverCoverage.
